(** * GhostWriter: a Rocq model of the RAG service, the analytics scores,
      the model manager, the loopback HTTP routes, the Gemini adapter and
      the snapshot generator

    The development embeds the JavaScript sources of the GhostWriter desktop
    backend as Rocq functions (Part I) and proves the behaviour documented
    for them (Part II).

    - [JS]               the string and array primitives the sources rely on
    - [Effect]           state, exceptions and calls to the outside
    - [NodePath]         [path.basename] and [path.extname], POSIX flavour
    - [FileType]         [RAGService.getFileType]
    - [AnalyticsService] the security score and the maintainability index
    - [RAGService]       services/ragService.js
    - [ModelManager]     services/modelManager.js
    - [CLIServer]        the body parser, the Express routes and the IPC
                         channels of main.js
    - [GeminiService]    services/providers/geminiService.js
    - [SnapshotGenerator] the generator script of the command-line tool
    - [Sample]           concrete stores, managers and environments

    JavaScript strings are modelled by [string], one [ascii] per character
    (text outside ASCII appears as its UTF-8 bytes, and only the ASCII part
    of the [\s], [\w] and case tables is represented); JavaScript numbers
    that hold scores by the kernel's binary64 [float]; counters by [Z] or
    [nat].  Whatever the sources obtain from outside the process (clock,
    random identifiers, embedding and generation adapters, the file system)
    is an oracle indexed by a tick counter kept in the state, so that two
    calls may answer differently. *)

From Stdlib Require Import String Ascii List ZArith Bool Arith Lia.
From Stdlib Require Import DecimalString DecimalNat Permutation Sorted.
From Stdlib Require Import Reals Lra.
From Stdlib Require Import Floats.
From Stdlib.Strings Require Byte.
From Stdlib Require Uint63.
Import ListNotations.

Set Implicit Arguments.

(* ################################################################# *)
(** * JavaScript primitives *)

Module JS.

Local Open Scope char_scope.
Local Open Scope string_scope.

(** [Array.prototype.includes] on an array of strings. *)
Definition includes (xs : list string) (x : string) : bool :=
  existsb (String.eqb x) xs.

(** The ASCII members of the regular-expression class [\s], which is also
    the set [String.prototype.trim] strips. *)
Definition isWhitespace (c : ascii) : bool :=
  let n := nat_of_ascii c in
  (((9 <=? n) && (n <=? 13)) || (n =? 32))%nat.

Definition isUpper (c : ascii) : bool :=
  let n := nat_of_ascii c in ((65 <=? n) && (n <=? 90))%nat.

Definition lowerChar (c : ascii) : ascii :=
  if isUpper c then ascii_of_nat (nat_of_ascii c + 32) else c.

Fixpoint toLowerCase (s : string) : string :=
  match s with
  | EmptyString => EmptyString
  | String c s' => String (lowerChar c) (toLowerCase s')
  end.

Fixpoint trimStart (s : string) : string :=
  match s with
  | EmptyString => EmptyString
  | String c s' => if isWhitespace c then trimStart s' else s
  end.

(** [trimEnd] keeps a character when it is not white space or when
    something that is kept follows it. *)
Fixpoint trimEnd (s : string) : string :=
  match s with
  | EmptyString => EmptyString
  | String c s' =>
      match trimEnd s' with
      | EmptyString => if isWhitespace c then EmptyString else String c EmptyString
      | t => String c t
      end
  end.

Definition trim (s : string) : string := trimEnd (trimStart s).

(** [String.prototype.startsWith]. *)
Definition startsWith (s p : string) : bool := String.prefix p s.

(** JavaScript truthiness of a value that is a string, [null] or
    [undefined]: only a non-empty string is truthy. *)
Definition truthy (v : option string) : bool :=
  match v with
  | Some s => negb (String.eqb s "")
  | None => false
  end.

(** [|x - y| < eps] on binary64 numbers. *)
Definition approx (x y eps : float) : bool :=
  (abs (x - y) <? eps)%float.

(** [String.prototype.includes]: [sub] occurs somewhere in [s]. *)
Fixpoint includesText (s sub : string) : bool :=
  String.prefix sub s ||
  match s with
  | EmptyString => false
  | String _ s' => includesText s' sub
  end.

(** [String.prototype.split] with a separator of one character: the
    pieces between the separators, at least one. *)
Fixpoint split (sep : ascii) (s : string) : list string :=
  match s with
  | EmptyString => [""]
  | String c rest =>
      if Ascii.eqb c sep then "" :: split sep rest
      else
        match split sep rest with
        | piece :: pieces => String c piece :: pieces
        | [] => [String c ""]
        end
  end.

(** Whether a character occurs in a string. *)
Fixpoint occurs (c : ascii) (s : string) : bool :=
  match s with
  | EmptyString => false
  | String d s' => Ascii.eqb c d || occurs c s'
  end.

(** A string of white space only (the empty string included). *)
Fixpoint isBlank (s : string) : bool :=
  match s with
  | EmptyString => true
  | String c s' => isWhitespace c && isBlank s'
  end.

End JS.

(* ################################################################# *)
(** * Effects: state, exceptions and the outside world *)

Module Effect.

(** How a JavaScript call completes: it returns a value or throws an
    [Error] carrying a message. *)
Inductive Result (A : Type) : Type :=
| Ok (value : A)
| Throw (message : string).
Arguments Ok {A} value.
Arguments Throw {A} message.

(** A computation over a state [S]: the completion and the state left
    behind (a throw keeps the writes made before it). *)
Definition M (S A : Type) : Type := S -> Result A * S.

Definition ret {S A : Type} (a : A) : M S A := fun st => (Ok a, st).

Definition bind {S A B : Type} (c : M S A) (k : A -> M S B) : M S B :=
  fun st =>
    match c st with
    | (Ok a, st') => k a st'
    | (Throw e, st') => (Throw e, st')
    end.

Definition throw {S A : Type} (e : string) : M S A := fun st => (Throw e, st).

(** [try { body } catch (error) { handler(error.message) }]. *)
Definition tryCatch {S A : Type} (body : M S A) (handler : string -> M S A) : M S A :=
  fun st =>
    match body st with
    | (Ok a, st') => (Ok a, st')
    | (Throw e, st') => handler e st'
    end.

(** The completion of an adapter call that the environment decided. *)
Definition lift {S A : Type} (r : Result A) : M S A := fun st => (r, st).


Declare Scope effect_scope.
Delimit Scope effect_scope with effect.
Notation "x <- c ;; k" := (bind c (fun x => k))
  (at level 61, c at next level, right associativity) : effect_scope.
Notation "c ;;; k" := (bind c (fun _ => k))
  (at level 61, right associativity) : effect_scope.

End Effect.

(* ################################################################# *)
(** * Node's [path] module, POSIX flavour *)

Module NodePath.

Local Open Scope char_scope.

Definition isSlash (c : ascii) : bool := Ascii.eqb c "/".
Definition isDot (c : ascii) : bool := Ascii.eqb c ".".

Fixpoint dropWhile (p : ascii -> bool) (l : list ascii) : list ascii :=
  match l with
  | [] => []
  | c :: l' => if p c then dropWhile p l' else l
  end.

Fixpoint takeWhile (p : ascii -> bool) (l : list ascii) : list ascii :=
  match l with
  | [] => []
  | c :: l' => if p c then c :: takeWhile p l' else []
  end.

(** The last component of a path, read from its end: trailing separators
    are skipped, then characters are taken up to the next separator.  The
    result is the component reversed. *)
Definition lastComponentRev (path : string) : list ascii :=
  takeWhile (fun c => negb (isSlash c))
            (dropWhile isSlash (rev (list_ascii_of_string path))).

Definition basename (path : string) : string :=
  string_of_list_ascii (rev (lastComponentRev path)).

(** The extension of a reversed component: the text from its last dot on,
    unless there is no dot, the dot opens the component (a dot file), or
    the component is exactly [..]. *)
Definition extOfRev (r : list ascii) : list ascii :=
  let e := takeWhile (fun c => negb (isDot c)) r in
  match dropWhile (fun c => negb (isDot c)) r with
  | [] => []                                  (* no dot *)
  | _ :: [] => []                             (* the dot is the first character *)
  | _ :: before =>
      match e, before with
      | [], [d] => if isDot d then [] else ["."]
      | _, _ => "." :: rev e
      end
  end.

Definition extname (path : string) : string :=
  string_of_list_ascii (extOfRev (lastComponentRev path)).

End NodePath.

(* ################################################################# *)
(** * services/ragService.js: file classification *)

Module FileType.

Import JS NodePath.
Local Open Scope string_scope.

(** [RAGService.getFileType]: the tests of the source, in its order. *)
Definition getFileType (filePath : string) : string :=
  let ext := toLowerCase (extname filePath) in
  let basename := toLowerCase (basename filePath) in
  (* Code files *)
  if includes [".js"; ".jsx"; ".ts"; ".tsx"] ext then "javascript"
  else if includes [".py"] ext then "python"
  else if includes [".java"] ext then "java"
  else if includes [".cpp"; ".cc"; ".cxx"; ".c++"] ext then "cpp"
  else if includes [".c"; ".h"] ext then "c"
  else if includes [".cs"] ext then "csharp"
  else if includes [".php"] ext then "php"
  else if includes [".rb"] ext then "ruby"
  else if includes [".go"] ext then "go"
  else if includes [".rs"] ext then "rust"
  else if includes [".kt"] ext then "kotlin"
  else if includes [".swift"] ext then "swift"
  (* Web files *)
  else if includes [".html"; ".htm"] ext then "html"
  else if includes [".css"; ".scss"; ".sass"; ".less"] ext then "css"
  else if includes [".vue"] ext then "vue"
  (* Config files *)
  else if includes [".json"] ext then "json"
  else if includes [".yaml"; ".yml"] ext then "yaml"
  else if includes [".xml"] ext then "xml"
  else if includes [".toml"] ext then "toml"
  else if includes [".ini"] ext then "ini"
  (* Documentation *)
  else if includes [".md"; ".markdown"] ext then "markdown"
  else if includes [".txt"] ext then "text"
  else if includes [".rst"] ext then "rst"
  (* Special files *)
  else if includes ["package.json"] basename then "package-config"
  else if includes ["dockerfile"] basename then "docker"
  else if includes [".env"; ".env.example"] basename then "environment"
  else if includes ["makefile"] basename then "makefile"
  else if includes [".sh"; ".bash"] ext then "bash"
  else "unknown".

End FileType.

(* ################################################################# *)
(** * services/analyticsService.js: the security score *)

Module AnalyticsService.

Import JS.
Local Open Scope string_scope.
Local Open Scope Z_scope.

(** The five vulnerability patterns all have the shape
    [/head\s*tail/]: a literal, any run of white space, a literal (empty
    for [/document\.write/]).  No [tail] starts with white space, so the
    greedy run never has to give characters back. *)
Record Pattern := { head : string; tail : string }.

Record Vulnerability := { pattern : Pattern; penalty : Z }.

Fixpoint dropPrefix (p s : string) : option string :=
  match p, s with
  | EmptyString, _ => Some s
  | String a p', String b s' => if Ascii.eqb a b then dropPrefix p' s' else None
  | String _ _, EmptyString => None
  end.

(** A match that starts at the first character of [s]. *)
Definition matchesAt (p : Pattern) (s : string) : bool :=
  match dropPrefix (head p) s with
  | Some rest => String.prefix (tail p) (trimStart rest)
  | None => false
  end.

(** [content.match(pattern)] is truthy when the pattern matches at some
    position of the content. *)
Fixpoint matches (p : Pattern) (s : string) : bool :=
  matchesAt p s ||
  match s with
  | EmptyString => false
  | String _ s' => matches p s'
  end.

Definition vulnerabilities : list Vulnerability :=
  [ {| pattern := {| head := "eval"; tail := "(" |}; penalty := 20 |};
    {| pattern := {| head := "innerHTML"; tail := "=" |}; penalty := 15 |};
    {| pattern := {| head := "document.write"; tail := "" |}; penalty := 15 |};
    {| pattern := {| head := "sql"; tail := "+" |}; penalty := 10 |};
    {| pattern := {| head := "password"; tail := "=" |}; penalty := 5 |} ].

(** [calculateSecurityScore]: the [forEach] over the table updates the
    local [score]; the result is [Math.max(0, score)]. *)
Definition calculateSecurityScore (content : string) : Z :=
  let score :=
    fold_left
      (fun score vuln =>
         if matches (pattern vuln) content then score - penalty vuln else score)
      vulnerabilities 100 in
  Z.max 0 score.

Definition evalCall : Pattern := {| head := "eval"; tail := "(" |}.
Definition innerHTMLAssignment : Pattern := {| head := "innerHTML"; tail := "=" |}.
Definition documentWrite : Pattern := {| head := "document.write"; tail := "" |}.
Definition sqlConcatenation : Pattern := {| head := "sql"; tail := "+" |}.
Definition passwordAssignment : Pattern := {| head := "password"; tail := "=" |}.

(** The deduction a pattern contributes: its penalty when it matches at
    least once, nothing otherwise. *)
Definition deduction (p : Pattern) (n : Z) (content : string) : Z :=
  if matches p content then n else 0.

(** The score as the specification words it. *)
Definition securityScoreSpec (content : string) : Z :=
  Z.max 0 (100 - deduction evalCall 20 content
               - deduction innerHTMLAssignment 15 content
               - deduction documentWrite 15 content
               - deduction sqlConcatenation 10 content
               - deduction passwordAssignment 5 content).

(** [n] copies of a string, one after the other. *)
Fixpoint repeatString (s : string) (n : nat) : string :=
  match n with
  | O => ""
  | S n' => s ++ repeatString s n'
  end.

(* ----------------------------------------------------------------- *)
(** ** calculateCodeMetrics: size, comments, complexity, maintainability *)

Local Set Warnings "-inexact-float".

Definition LF : ascii := "010"%char.

(** [content.split('\n')] *)
Fixpoint splitLines (content : string) : list string :=
  match content with
  | EmptyString => [""]
  | String c rest =>
      if Ascii.eqb c LF then "" :: splitLines rest
      else
        match splitLines rest with
        | line :: lines => String c line :: lines
        | [] => [String c ""]
        end
  end.

Definition isCommentLine (line : string) : bool :=
  startsWith (trim line) "//" || startsWith (trim line) "/*"
  || startsWith (trim line) "*" || startsWith (trim line) "#".

(** The class [\w]. *)
Definition isWordChar (c : ascii) : bool :=
  let n := nat_of_ascii c in
  (((48 <=? n) && (n <=? 57)) || ((65 <=? n) && (n <=? 90))
   || ((97 <=? n) && (n <=? 122)) || (n =? 95))%nat.

Definition firstIsWord (s : string) : bool :=
  match s with
  | EmptyString => false
  | String c _ => isWordChar c
  end.

Fixpoint lastIsWord (s : string) : bool :=
  match s with
  | EmptyString => false
  | String c EmptyString => isWordChar c
  | String _ rest => lastIsWord rest
  end.

Fixpoint dropChars (n : nat) (s : string) : string :=
  match n, s with
  | S n', String _ rest => dropChars n' rest
  | _, _ => s
  end.

(** The matches of [/\bkeyword\b/g] for a keyword without an operator of
    the pattern language.  A [\b] holds between two characters of which
    exactly one is a word character (the ends of the string count as
    none), so a match sits at every position where the keyword stands with
    such a boundary on either side; two of them never overlap.
    [previousIsWord] tells whether the character before [s] is a word
    character. *)
Fixpoint countBounded (keyword : string) (previousIsWord : bool) (s : string) : nat :=
  match s with
  | EmptyString => 0
  | String c rest =>
      (if xorb previousIsWord (firstIsWord keyword)
          && String.prefix keyword s
          && xorb (lastIsWord keyword) (firstIsWord (dropChars (String.length keyword) s))
       then 1 else 0)
      + countBounded keyword (isWordChar c) rest
  end.

(** [(content.match(new RegExp(`\\b${keyword}\\b`, 'g')) || []).length].
    For the keyword [||] the pattern reads [\b||\b], an alternation with an
    empty branch: it matches the empty string at every position of the
    content, the end included. *)
Definition countKeyword (keyword content : string) : nat :=
  if String.eqb keyword "||" then String.length content + 1
  else countBounded keyword false content.

Definition complexityKeywords : list string :=
  ["if"; "else"; "for"; "while"; "switch"; "case"; "catch"; "&&"; "||"].

(** A count as a JavaScript number. *)
Definition toNumber (n : nat) : float :=
  PrimFloat.of_uint63 (Uint63Axioms.of_Z (Z.of_nat n)).

(** [Math.max(0, x)] *)
Definition mathMax0 (x : float) : float :=
  if PrimFloat.is_nan x then x
  else if (0 <? x)%float then x else 0%float.

(** The metrics that enter the maintainability index, with the index and
    the scores derived from it.  The counts of functions, classes,
    methods, variables, imports and code smells, and the cognitive
    complexity, which the index does not read, are not represented. *)
Record CodeMetrics : Type := {
  linesOfCode : nat;
  commentRatio : float;
  cyclomaticComplexity : nat;
  maintainabilityIndex : float;
  technicalDebtRatio : float;
  duplicationRatio : float;
  securityScore : Z
}.

Section WithMathLog.

(** [Math.log], which the language leaves to the implementation. *)
Variable MathLog : float -> float.

(** The expression assigned to [maintainabilityIndex]. *)
Definition maintainability (cyclomaticComplexity linesOfCode : nat) (commentRatio : float)
  : float :=
  mathMax0 (171 - 5.2 * MathLog (toNumber cyclomaticComplexity)
                - 0.23 * MathLog (toNumber linesOfCode)
                - 16.2 * MathLog (commentRatio + 0.1))%float.

Definition calculateCodeMetrics (content : string) : CodeMetrics :=
  let lines := splitLines content in
  let linesOfCode := List.length lines in
  let commentLines := List.length (filter isCommentLine lines) in
  let commentRatio :=
    if (0 <? linesOfCode)%nat
    then (toNumber commentLines / toNumber linesOfCode)%float else 0%float in
  let cyclomaticComplexity :=
    fold_left (fun sum keyword => sum + countKeyword keyword content)%nat
              complexityKeywords 1%nat in
  let maintainabilityIndex := maintainability cyclomaticComplexity linesOfCode commentRatio in
  {| linesOfCode := linesOfCode;
     commentRatio := commentRatio;
     cyclomaticComplexity := cyclomaticComplexity;
     maintainabilityIndex := maintainabilityIndex;
     technicalDebtRatio := (mathMax0 (100 - maintainabilityIndex) / 100)%float;
     duplicationRatio := 0%float;
     securityScore := calculateSecurityScore content |}.

End WithMathLog.

(** The formula of the maintainability index read over the real numbers,
    with the natural logarithm itself. *)
Definition maintainabilityReal (cyclomaticComplexity linesOfCode commentRatio : R) : R :=
  Rmax 0 (171 - 5.2 * ln cyclomaticComplexity - 0.23 * ln linesOfCode
              - 16.2 * ln (commentRatio + 0.1))%R.

(** A table of [Math.log] at the three arguments of the worked example,
    with the values a correctly rounding implementation returns. *)
Definition logTable (x : float) : float :=
  if (x =? 1)%float then 0%float
  else if (x =? 10)%float then 2.302585092994046%float
  else if (x =? 0.1)%float then (-2.3025850929940455)%float
  else 0%float.

(* ----------------------------------------------------------------- *)
(** ** trackCodeEvolution: the kind of a change *)

(** [determineChangeType]: the tests of the source, in its order. *)
Definition determineChangeType (commitMessage : string) : string :=
  let message := toLowerCase commitMessage in
  if includesText message "feat" || includesText message "add" then "feature"
  else if includesText message "fix" || includesText message "bug" then "bugfix"
  else if includesText message "refactor" then "refactor"
  else if includesText message "doc" || includesText message "readme" then "docs"
  else if includesText message "test" then "test"
  else "other".

(* ----------------------------------------------------------------- *)
(** ** detectTechnologies: the language of a file *)

(** [AnalyticsService.getFileType]:
    [filePath.split('.').pop()?.toLowerCase() || 'unknown']. *)
Definition getFileType (filePath : string) : string :=
  let popped := toLowerCase (last (split "."%char filePath) "") in
  if String.eqb popped "" then "unknown" else popped.

Definition languageMap : list (string * string) :=
  [ (".js", "JavaScript"); (".ts", "TypeScript"); (".jsx", "React JSX");
    (".tsx", "React TSX"); (".py", "Python"); (".java", "Java"); (".cpp", "C++");
    (".c", "C"); (".cs", "C#"); (".php", "PHP"); (".rb", "Ruby"); (".go", "Go");
    (".rs", "Rust") ].

Fixpoint lookupLanguage (ext : string) (table : list (string * string)) : option string :=
  match table with
  | [] => None
  | (k, v) :: rest => if String.eqb k ext then Some v else lookupLanguage ext rest
  end.

(** [getLanguageFromExtension] *)
Definition getLanguageFromExtension (filePath : string) (table : list (string * string))
  : string :=
  let ext := "." ++ getFileType filePath in
  match lookupLanguage ext table with
  | Some language => if String.eqb language "" then "Unknown" else language
  | None => "Unknown"
  end.

(** The [language] field of [detectTechnologies], which lower-cases the
    path first. *)
Definition detectLanguage (file_path : string) : string :=
  getLanguageFromExtension (toLowerCase file_path) languageMap.

End AnalyticsService.

(* ################################################################# *)
(** * services/ragService.js *)

Module RAGService.

Import JS NodePath FileType Effect.
Local Open Scope string_scope.
Local Open Scope effect_scope.
Local Set Warnings "-inexact-float".

(** An embedding as the code holds it: an array of numbers, or an absent
    value ([null], [undefined]). *)
Definition Vector : Type := option (list float).

(* --------------------------------------------------------------- *)
(** ** Cosine similarity *)

(** The body of the [for] loop of [cosine], with its three running sums. *)
Fixpoint cosineLoop (a b : list float) (dot na nb : float) : float * float * float :=
  match a, b with
  | x :: a', y :: b' => cosineLoop a' b' (dot + x * y)%float (na + x * x)%float (nb + y * y)%float
  | _, _ => (dot, na, nb)
  end.

Definition cosine (a b : Vector) : float :=
  match a, b with
  | Some a, Some b =>
      if negb (Nat.eqb (List.length a) (List.length b)) then (-1)%float
      else
        let '(dot, na, nb) := cosineLoop a b 0%float 0%float 0%float in
        (dot / (sqrt na * sqrt nb + 1e-8))%float
  | _, _ => (-1)%float
  end.

(** The quantities the specification names: the dot product and the
    Euclidean norm, summed in index order. *)
Definition dotProduct (a b : list float) : float :=
  fold_left (fun acc xy => (acc + fst xy * snd xy)%float) (combine a b) 0%float.

Definition norm (a : list float) : float :=
  sqrt (fold_left (fun acc x => (acc + x * x)%float) a 0%float).

(* --------------------------------------------------------------- *)
(** ** The document store *)

Module Meta.
(** The metadata object stored with a document; a field that the
    object lacks is [None]. *)
Record Metadata : Type := {
  project_name : option string;
  file_path : option string;
  author : option string;
  commit_message : option string;
  commit_date : option string;
  ingested_at : option string;
  file_type : option string;
  commit_hash : option string
}.
End Meta.
Abbreviation Metadata := Meta.Metadata.

(** A row of the [documents] table, in the parsed form [allDocs] hands
    out. *)
Record Row : Type := {
  id : string;
  text : string;
  metadata : Metadata;
  embedding : Vector
}.

(** The table in row order (a scan returns the rows in the order of
    their insertion), and the count of calls made to the outside. *)
Record State : Type := {
  db : list Row;
  tick : nat
}.

(** What the service obtains from outside the process.  Every answer may
    depend on the tick at which it is asked. *)
Record Environment : Type := {
  (** [new Date().toISOString()] *)
  now : nat -> string;
  (** the identifier built from [Date.now()] and [Math.random()] *)
  generateId : nat -> string;
  (** [getEmbeddingService().embedText(text)]: a vector, or a throw of the
      adapter or of the getter when no adapter is initialized *)
  embedText : nat -> string -> Result Vector;
  (** [getLLMService().generateWithContext(systemPrompt, userPrompt)] *)
  generateWithContext : nat -> string -> string -> Result string;
  (** [JSON.stringify] on a metadata object *)
  stringifyMetadata : Metadata -> string;
  (** [JSON.stringify(JSON.parse(text), null, 2)], [None] when the parse
      throws *)
  reformatJSON : string -> option string;
  (** [Number.prototype.toFixed(1)] *)
  toFixed1 : float -> string;
  (** the time value of [new Date(text)] *)
  dateValue : option string -> float;
  (** [db.prepare(...)] and [stmt.run({...})] of the insert: [None] when
      the statement runs, the message of the error when one of them
      throws (the database fails, a value cannot be bound) *)
  insertError : nat -> Row -> option string
}.

Definition nextTick : M State nat :=
  fun st => (Ok (tick st), {| db := db st; tick := S (tick st) |}).

(** [INSERT ... ON CONFLICT(id) DO UPDATE SET text, metadata, embedding]:
    a row with the same id is overwritten in place, otherwise the row is
    appended. *)
Fixpoint upsert (r : Row) (rows : list Row) : list Row :=
  match rows with
  | [] => [r]
  | x :: rows' =>
      if String.eqb (id x) (id r) then r :: rows' else x :: upsert r rows'
  end.

(** The insert of [ingestDocument]; a statement that throws leaves the
    table as it is. *)
Definition run_insert (env : Environment) (r : Row) : M State unit :=
  fun st =>
    match insertError env (tick st) r with
    | Some error => (Throw error, st)
    | None => (Ok tt, {| db := upsert r (db st); tick := tick st |})
    end.

Definition allDocs : M State (list Row) :=
  fun st => (Ok (db st), st).

Module Commit.
(** The commit payload [{projectName, metadata, files}] of the
    documented shape: a metadata object, and files that are objects with
    a string for their path.  [Payload], below, is the payload without
    these assumptions. *)
Record Metadata : Type := {
  author : option string;
  commit_message : option string;   (* the key 'commit-message' *)
  date : option string;
  hash : option string
}.
Record File : Type := {
  path : string;
  content : option string           (* [None]: not a string *)
}.
Record Data : Type := {
  projectName : string;
  metadata : Metadata;
  files : list File
}.
End Commit.

(** One entry of [results]: [status: 'success'] or [status: 'error']. *)
Inductive FileResult : Type :=
| Success (file_path document_id : string) (content_length : nat)
| Failure (file_path error : string).

Module Summary.
(** What [ingestCommit] returns. *)
Record t : Type := {
  project_name : string;
  commit_metadata : Commit.Metadata;
  total_files : nat;
  successful : nat;
  failed : nat;
  results : list FileResult
}.
End Summary.

Module Payload.
(** The argument of [ingestCommit] as its two callers let it through:
    they check that [projectName] is truthy and that [files] is an array,
    and nothing else.  The metadata may be missing, an element of [files]
    may be [null], and a file may come with a path that is no string. *)
Inductive Absent : Type := Undefined | Null.

(** [commitData.metadata].  A value that is neither an object nor absent
    reads like an object without properties. *)
Inductive MetadataValue : Type :=
| NoMetadata (absent : Absent)
| SomeMetadata (metadata : Commit.Metadata).

(** [file.path]: a string, or any other value, given by the words with
    which Node describes it in the message of an argument error
    ([undefined], [null], [type number (5)], [an instance of Array]). *)
Inductive PathValue : Type :=
| PathString (path : string)
| NotAString (received : string).

(** An element of [files] that is not [null]. *)
Record File : Type := {
  path : PathValue;
  content : option string           (* [None]: not a string *)
}.

Record Data : Type := {
  projectName : string;
  metadata : MetadataValue;
  files : list (option File)        (* [None]: [null] *)
}.

(** One entry of [results]. *)
Inductive Entry : Type :=
| Success (file_path document_id : string) (content_length : nat)
| Error (file_path : PathValue) (error : string).

Record Summary : Type := {
  project_name : string;
  commit_metadata : MetadataValue;
  total_files : nat;
  successful : nat;
  failed : nat;
  results : list Entry
}.





Definition isSuccess (entry : Entry) : bool :=
  match entry with Success _ _ _ => true | Error _ _ => false end.

Definition isError (entry : Entry) : bool :=
  match entry with Success _ _ _ => false | Error _ _ => true end.



Definition absentName (absent : Absent) : string :=
  match absent with Undefined => "undefined" | Null => "null" end.

(** The message of the TypeError of a property read on [undefined] or
    [null]. *)
Definition cannotRead (absent : Absent) (key : string) : string :=
  "Cannot read properties of " ++ absentName absent ++ " (reading '" ++ key ++ "')".

Definition quoted (s : string) : string :=
  String (ascii_of_nat 34) s ++ String (ascii_of_nat 34) EmptyString.

(** The message of the TypeError of [path.extname] and [path.basename]
    for an argument that is not a string. *)
Definition invalidPath (received : string) : string :=
  "The " ++ quoted "path" ++ " argument must be of type string. Received " ++ received.
End Payload.

Module Scored.
(** A document with its score, [{...d, score}]. *)
Record t : Type := { doc : Row; score : float }.
End Scored.

Module Source.
(** An entry of [sources]. *)
Record t : Type := {
  file_path : option string;
  author : option string;
  commit_message : option string;
  commit_date : option string;
  relevance_score : string;
  preview : string
}.
End Source.

Module SearchResult.
Record t : Type := {
  query : string;
  answer : string;
  project : option string;
  sources : list Source.t
}.
End SearchResult.

Module Project.
Record t : Type := {
  name : option string;
  documents : nat;
  last_updated : option string;
  authors : list (option string)
}.
End Project.

Section WithEnvironment.

Variable env : Environment.

(* ------------------------------------------------------------- *)
(** ** ingestDocument *)

Definition LF : ascii := "010"%char.
Definition CR : ascii := "013"%char.
Definition TAB : ascii := "009"%char.
Definition newline : string := String LF EmptyString.

Definition ingestDocument (text : string) (metadata : Metadata)
  : M State (string * string) :=
  t <- nextTick ;;
  let id := generateId env t in
  let embeddingText := text ++ newline ++ stringifyMetadata env metadata in
  t' <- nextTick ;;
  embedding <- lift (embedText env t' embeddingText) ;;
  run_insert env {| id := id; text := text; metadata := metadata; embedding := embedding |} ;;;
  ret (id, "ingested").

(* ------------------------------------------------------------- *)
(** ** cleanFileContent *)

(** [.replace(/\r\n/g, '\n')] *)
Fixpoint replaceCRLF (s : string) : string :=
  match s with
  | EmptyString => EmptyString
  | String c s' =>
      match s' with
      | String d s'' =>
          if Ascii.eqb c CR && Ascii.eqb d LF
          then String LF (replaceCRLF s'')
          else String c (replaceCRLF s')
      | EmptyString => String c EmptyString
      end
  end.

(** [.replace(/\r/g, '\n')] *)
Fixpoint replaceCR (s : string) : string :=
  match s with
  | EmptyString => EmptyString
  | String c s' => String (if Ascii.eqb c CR then LF else c) (replaceCR s')
  end.

(** [.replace(/\t/g, '  ')] *)
Fixpoint replaceTabs (s : string) : string :=
  match s with
  | EmptyString => EmptyString
  | String c s' =>
      if Ascii.eqb c TAB then String " " (String " " (replaceTabs s'))
      else String c (replaceTabs s')
  end.

(** The run of white space at the head of a string. *)
Fixpoint whitespaceRun (s : string) : list ascii :=
  match s with
  | EmptyString => []
  | String c s' => if isWhitespace c then c :: whitespaceRun s' else []
  end.

Definition countLF (l : list ascii) : nat :=
  List.length (filter (Ascii.eqb LF) l).

(** The length of the shortest prefix that holds every line feed. *)
Fixpoint throughLastLF (l : list ascii) : nat :=
  match l with
  | [] => 0
  | c :: l' =>
      match throughLastLF l' with
      | O => if Ascii.eqb LF c then 1 else 0
      | S n => S (S n)
      end
  end.

(** [.replace(/\n\s*\n\s*\n+/g, '\n\n')].  A match starts at a line
    feed whose white-space run holds at least three line feeds and ends
    with the last of them; [skip] counts the characters of the current
    match still to be dropped. *)
Fixpoint collapseFrom (skip : nat) (s : string) : string :=
  match s with
  | EmptyString => EmptyString
  | String c s' =>
      match skip with
      | S k => collapseFrom k s'
      | O =>
          if Ascii.eqb c LF && (3 <=? countLF (whitespaceRun s))%nat
          then String LF (String LF
                 (collapseFrom (throughLastLF (whitespaceRun s) - 1) s'))
          else String c (collapseFrom 0 s')
      end
  end.

Definition collapseBlankLines (s : string) : string := collapseFrom 0 s.

(** [content] is [None] for a value that is not a string. *)
Definition cleanFileContent (content : option string) (filePath : string) : string :=
  match content with
  | None => ""
  | Some content =>
      if String.eqb content "" then ""
      else
        let cleaned := trim (replaceTabs (replaceCR (replaceCRLF content))) in
        let cleaned := collapseBlankLines cleaned in
        let fileExt := toLowerCase (extname filePath) in
        if includes [".json"] fileExt then
          match reformatJSON env cleaned with
          | Some pretty => pretty
          | None => cleaned
          end
        else cleaned
  end.

(* ------------------------------------------------------------- *)
(** ** ingestCommit *)

Definition isSuccess (r : FileResult) : bool :=
  match r with Success _ _ _ => true | Failure _ _ => false end.

Definition isError (r : FileResult) : bool :=
  match r with Success _ _ _ => false | Failure _ _ => true end.

Definition resultPath (r : FileResult) : string :=
  match r with Success p _ _ => p | Failure p _ => p end.

(** The test [!cleanContent || cleanContent.trim().length === 0]. *)
Definition isEmptyContent (cleanContent : string) : bool :=
  String.eqb cleanContent "" || (String.length (trim cleanContent) =? 0)%nat.

(** The metadata object built for a file of a commit. *)
Definition buildFileMetadata (projectName : string) (metadata : Commit.Metadata)
           (file : Commit.File) (ingestedAt : string) : Metadata :=
  {| Meta.project_name := Some projectName;
     Meta.file_path := Some (Commit.path file);
     Meta.author := Commit.author metadata;
     Meta.commit_message := Commit.commit_message metadata;
     Meta.commit_date := Commit.date metadata;
     Meta.ingested_at := Some ingestedAt;
     Meta.file_type := Some (getFileType (Commit.path file));
     Meta.commit_hash :=
       if truthy (Commit.hash metadata) then Commit.hash metadata else None |}.

(** The body of the [for] loop for a payload of the documented shape
    (a metadata object, files that are objects with a string for their
    path): [None] stands for [continue], a file that leaves no entry. *)
Definition ingestFile (projectName : string) (metadata : Commit.Metadata)
           (file : Commit.File) : M State (option FileResult) :=
  tryCatch
    (t <- nextTick ;;
     let fileMetadata := buildFileMetadata projectName metadata file (now env t) in
     let cleanContent := cleanFileContent (Commit.content file) (Commit.path file) in
     if isEmptyContent cleanContent then ret None
     else
       result <- ingestDocument cleanContent fileMetadata ;;
       ret (Some (Success (Commit.path file) (fst result) (String.length cleanContent))))
    (fun error => ret (Some (Failure (Commit.path file) error))).

Fixpoint ingestFiles (projectName : string) (metadata : Commit.Metadata)
         (files : list Commit.File) (results : list FileResult)
  : M State (list FileResult) :=
  match files with
  | [] => ret results
  | file :: rest =>
      r <- ingestFile projectName metadata file ;;
      ingestFiles projectName metadata rest
        (match r with Some entry => results ++ [entry] | None => results end)
  end.

Definition ingestCommit (commitData : Commit.Data) : M State Summary.t :=
  let projectName := Commit.projectName commitData in
  let metadata := Commit.metadata commitData in
  let files := Commit.files commitData in
  results <- ingestFiles projectName metadata files [] ;;
  let successCount := List.length (filter isSuccess results) in
  let failCount := List.length (filter isError results) in
  ret {| Summary.project_name := projectName;
         Summary.commit_metadata := metadata;
         Summary.total_files := List.length files;
         Summary.successful := successCount;
         Summary.failed := failCount;
         Summary.results := results |}.

(** A file that the loop skips: its cleaned content is empty. *)
Definition isSkipped (file : Commit.File) : bool :=
  isEmptyContent (cleanFileContent (Commit.content file) (Commit.path file)).

(** The same loop for any payload the callers let through.  The metadata
    object of a file reads [metadata.author] first and calls
    [getFileType(file.path)] after [new Date()]; both can throw within
    the [try].  For an element that is [null], [file.path] throws within
    the [try] and again in the [catch] block, whose template literal
    reads it once more: that error leaves the loop and [ingestCommit]. *)
Definition ingestPayloadFile (projectName : string) (metadata : Payload.MetadataValue)
           (file : Payload.File) : M State (option Payload.Entry) :=
  tryCatch
    (match metadata with
     | Payload.NoMetadata absent => throw (Payload.cannotRead absent "author")
     | Payload.SomeMetadata metadata =>
         t <- nextTick ;;
         match Payload.path file with
         | Payload.NotAString received => throw (Payload.invalidPath received)
         | Payload.PathString path =>
             let file := {| Commit.path := path; Commit.content := Payload.content file |} in
             let fileMetadata := buildFileMetadata projectName metadata file (now env t) in
             let cleanContent := cleanFileContent (Commit.content file) path in
             if isEmptyContent cleanContent then ret None
             else
               result <- ingestDocument cleanContent fileMetadata ;;
               ret (Some (Payload.Success path (fst result) (String.length cleanContent)))
         end
     end)
    (fun error => ret (Some (Payload.Error (Payload.path file) error))).

Fixpoint ingestPayloadFiles (projectName : string) (metadata : Payload.MetadataValue)
         (files : list (option Payload.File)) (results : list Payload.Entry)
  : M State (list Payload.Entry) :=
  match files with
  | [] => ret results
  | None :: _ => throw (Payload.cannotRead Payload.Null "path")
  | Some file :: rest =>
      r <- ingestPayloadFile projectName metadata file ;;
      ingestPayloadFiles projectName metadata rest
        (match r with Some entry => results ++ [entry] | None => results end)
  end.

Definition ingestCommitPayload (commitData : Payload.Data) : M State Payload.Summary :=
  let projectName := Payload.projectName commitData in
  let metadata := Payload.metadata commitData in
  let files := Payload.files commitData in
  results <- ingestPayloadFiles projectName metadata files [] ;;
  let successCount := List.length (filter Payload.isSuccess results) in
  let failCount := List.length (filter Payload.isError results) in
  ret {| Payload.project_name := projectName;
         Payload.commit_metadata := metadata;
         Payload.total_files := List.length files;
         Payload.successful := successCount;
         Payload.failed := failCount;
         Payload.results := results |}.



(* ------------------------------------------------------------- *)
(** ** searchAndGenerate *)

(** [Array.prototype.sort(comparefn)]: a stable sort in which [a] stays
    before [b] unless [comparefn(a, b) > 0].  An element is inserted in
    front of the sorted rest, behind the elements it compares greater
    than. *)
Fixpoint insertBy {A : Type} (comparefn : A -> A -> float) (x : A) (l : list A) : list A :=
  match l with
  | [] => [x]
  | y :: l' =>
      if (0 <? comparefn x y)%float then y :: insertBy comparefn x l' else x :: l
  end.

Definition sortBy {A : Type} (comparefn : A -> A -> float) (l : list A) : list A :=
  fold_right (insertBy comparefn) [] l.

(** [Array.prototype.slice(0, k)] for an integer [k]: a negative [k]
    counts from the end. *)
Definition slice0 {A : Type} (k : Z) (l : list A) : list A :=
  if (k <? 0)%Z
  then firstn (Z.to_nat (Z.max (Z.of_nat (List.length l) + k) 0)) l
  else firstn (Z.to_nat k) l.

Definition byScoreDescending (a b : Scored.t) : float :=
  (Scored.score b - Scored.score a)%float.

Definition optionEqb (a b : option string) : bool :=
  match a, b with
  | Some x, Some y => String.eqb x y
  | None, None => true
  | _, _ => false
  end.

(** A template literal prints an absent value as [undefined]. *)
Definition interpolate (v : option string) : string :=
  match v with Some s => s | None => "undefined" end.

Definition showNat (n : nat) : string :=
  NilEmpty.string_of_uint (Nat.to_uint n).

Fixpoint join (sep : string) (parts : list string) : string :=
  match parts with
  | [] => ""
  | [x] => x
  | x :: rest => x ++ sep ++ join sep rest
  end.

Fixpoint repeatString (s : string) (n : nat) : string :=
  match n with
  | O => ""
  | S n' => s ++ repeatString s n'
  end.

Definition contextEntry (i : nat) (hit : Scored.t) : string :=
  let m := metadata (Scored.doc hit) in
  "# Result " ++ showNat (i + 1) ++ " (Relevance: "
    ++ toFixed1 env (Scored.score hit * 100)%float ++ "%)" ++ newline
  ++ "📁 File: " ++ interpolate (Meta.file_path m) ++ newline
  ++ "👤 Author: "
    ++ (if truthy (Meta.author m) then interpolate (Meta.author m) else "Unknown")
    ++ newline
  ++ "📅 Date: " ++ interpolate (Meta.commit_date m) ++ newline
  ++ "💬 Commit: " ++ interpolate (Meta.commit_message m) ++ newline
  ++ newline
  ++ "CODE/CONTENT:" ++ newline
  ++ text (Scored.doc hit).

Fixpoint mapi {A B : Type} (f : nat -> A -> B) (i : nat) (l : list A) : list B :=
  match l with
  | [] => []
  | x :: l' => f i x :: mapi f (S i) l'
  end.

(** The context block: one entry per hit, separated by a rule of 80 [=]. *)
Definition buildContext (topResults : list Scored.t) : string :=
  join (newline ++ newline ++ repeatString "=" 80 ++ newline ++ newline)
       (mapi contextEntry 0 topResults).

Definition systemPrompt : string :=
  "You are GhostWriter, an AI code assistant that helps developers understand their codebase."
  ++ newline ++ newline
  ++ "You have access to code from git commits with file paths, authors, and commit messages."
  ++ newline
  ++ "Answer questions about code, explain functionality, suggest improvements, or help debug issues."
  ++ newline ++ newline
  ++ "Guidelines:" ++ newline
  ++ "- Reference specific files and line numbers when possible" ++ newline
  ++ "- Include file paths in your answers" ++ newline
  ++ "- Mention the author/commit context when relevant" ++ newline
  ++ "- Format code examples clearly" ++ newline
  ++ "- Be concise but thorough" ++ newline
  ++ "- Focus on explaining functionality and relationships between code files".

Definition userPrompt (query context : string) : string :=
  "Question: " ++ query ++ newline ++ newline
  ++ "Relevant code/files:" ++ newline
  ++ context ++ newline ++ newline
  ++ "Please provide a helpful answer based on the code above.".

(** The entry of [sources] built from a hit. *)
Definition toSource (r : Scored.t) : Source.t :=
  let m := metadata (Scored.doc r) in
  {| Source.file_path := Meta.file_path m;
     Source.author := Meta.author m;
     Source.commit_message := Meta.commit_message m;
     Source.commit_date := Meta.commit_date m;
     Source.relevance_score := toFixed1 env (Scored.score r * 100)%float ++ "%";
     Source.preview := text (Scored.doc r) |}.

(** The documents a search ranks: all of them, or those of the project
    when a (truthy) project name is given. *)
Definition searchedDocs (projectName : option string) (docs : list Row) : list Row :=
  if truthy projectName
  then filter (fun d => optionEqb (Meta.project_name (metadata d)) projectName) docs
  else docs.

Definition scoreDocs (queryEmbedding : Vector) (docs : list Row) : list Scored.t :=
  map (fun d => {| Scored.doc := d;
                   Scored.score := cosine queryEmbedding (embedding d) |}) docs.

(** [k] is [None] when the caller passes [undefined]: the default 5
    applies. *)
Definition searchAndGenerate (query : string) (k : option Z) (projectName : option string)
  : M State SearchResult.t :=
  let k := match k with Some k => k | None => 5%Z end in
  t <- nextTick ;;
  queryEmbedding <- lift (embedText env t query) ;;
  docs <- allDocs ;;
  let docs := searchedDocs projectName docs in
  let scored := scoreDocs queryEmbedding docs in
  let scored := sortBy byScoreDescending scored in
  let topResults := slice0 k scored in
  let context := buildContext topResults in
  t' <- nextTick ;;
  answer <- lift (generateWithContext env t' systemPrompt (userPrompt query context)) ;;
  ret {| SearchResult.query := query;
         SearchResult.answer := answer;
         SearchResult.project := projectName;
         SearchResult.sources := map toSource topResults |}.

(* ------------------------------------------------------------- *)
(** ** getProjects *)

(** The values of a [Set] built from an array, in insertion order. *)
Fixpoint distinct (l : list (option string)) : list (option string) :=
  match l with
  | [] => []
  | x :: l' => x :: filter (fun y => negb (optionEqb x y)) (distinct l')
  end.

Definition byCommitDateDescending (a b : Row) : float :=
  (dateValue env (Meta.commit_date (metadata b))
   - dateValue env (Meta.commit_date (metadata a)))%float.

Definition projectSummary (docs : list Row) (projectName : option string) : Project.t :=
  let projectDocs :=
    filter (fun d => optionEqb (Meta.project_name (metadata d)) projectName) docs in
  let latestDoc := hd_error (sortBy byCommitDateDescending projectDocs) in
  {| Project.name := projectName;
     Project.documents := List.length projectDocs;
     Project.last_updated :=
       match latestDoc with
       | Some d => Meta.commit_date (metadata d)
       | None => None
       end;
     Project.authors :=
       distinct (filter truthy (map (fun d => Meta.author (metadata d)) projectDocs)) |}.

Definition getProjects : M State (list Project.t) :=
  docs <- allDocs ;;
  let projects := distinct (map (fun d => Meta.project_name (metadata d)) docs) in
  ret (map (projectSummary docs) projects).

(* ------------------------------------------------------------- *)
(** ** bulkIngestDemo *)

(** [s.split('T')[0]] *)
Fixpoint beforeT (s : string) : string :=
  match s with
  | EmptyString => EmptyString
  | String c s' => if Ascii.eqb c "T" then EmptyString else String c (beforeT s')
  end.

Definition demoText (i : nat) : string :=
  "// Demo function " ++ showNat i ++ newline
  ++ "function demoFunction" ++ showNat i ++ "(input) {" ++ newline
  ++ "  // This function multiplies input by " ++ showNat (i + 1) ++ newline
  ++ "  return input * " ++ showNat (i + 1) ++ ";" ++ newline
  ++ "}".

Definition demoMetadata (i : nat) (today : string) : Metadata :=
  {| Meta.project_name := Some "demo-project";
     Meta.file_path := Some ("src/demo/file" ++ showNat i ++ ".js");
     Meta.author := nth_error ["Alice"; "Bob"; "Charlie"] (i mod 3);
     Meta.commit_message := Some ("Add demo function " ++ showNat i);
     Meta.commit_date := Some today;
     Meta.ingested_at := None;
     Meta.file_type := Some "javascript";
     Meta.commit_hash := None |}.

(** The [for] loop from index [i] with [remaining] rounds to go. *)
Fixpoint demoLoop (remaining i : nat) (results : list (string * string))
  : M State (list (string * string)) :=
  match remaining with
  | O => ret results
  | S remaining' =>
      t <- nextTick ;;
      result <- ingestDocument (demoText i) (demoMetadata i (beforeT (now env t))) ;;
      demoLoop remaining' (S i) (results ++ [result])
  end.

Definition bulkIngestDemo (count : nat) : M State (nat * list (string * string)) :=
  results <- demoLoop count 0 [] ;;
  ret (List.length results, results).

(* ------------------------------------------------------------- *)
(** ** The operations of the service, as a caller may sequence them *)

Inductive Operation : Type :=
| IngestDocument (text : string) (metadata : Metadata)
| IngestCommit (commitData : Commit.Data)          (* a payload of the documented shape *)
| SearchAndGenerate (query : string) (k : option Z) (projectName : option string)
| GetProjects
| BulkIngestDemo (count : nat)
| IngestCommitPayload (commitData : Payload.Data). (* any payload the callers let through *)

(** The state an operation leaves, whether it returns or throws. *)
Definition perform (op : Operation) (st : State) : State :=
  match op with
  | IngestDocument text metadata => snd (ingestDocument text metadata st)
  | IngestCommit commitData => snd (ingestCommit commitData st)
  | SearchAndGenerate query k projectName => snd (searchAndGenerate query k projectName st)
  | GetProjects => snd (getProjects st)
  | BulkIngestDemo count => snd (bulkIngestDemo count st)
  | IngestCommitPayload commitData => snd (ingestCommitPayload commitData st)
  end.

Definition performAll (ops : list Operation) (st : State) : State :=
  fold_left (fun st op => perform op st) ops st.

End WithEnvironment.

Definition ids (rows : list Row) : list string := map id rows.

(** The table after holds the rows of the table before, by id and in
    order, followed by rows that were added. *)
Definition extends (st st' : State) : Prop :=
  exists added : list string, ids (db st') = (ids (db st) ++ added)%list.

(** A computation that only extends the table, however it completes. *)
Definition monotone {A : Type} (c : M State A) : Prop :=
  forall st : State, extends st (snd (c st)).

(** The table of [st'] starts with the rows [base], unchanged. *)
Definition extendsRows (base : list Row) (st' : State) : Prop :=
  exists added : list Row, db st' = (base ++ added)%list.

(** A computation that leaves the rows [base] at the head of the table
    untouched. *)
Definition keeps (base : list Row) {A : Type} (c : M State A) : Prop :=
  forall st : State, extendsRows base st -> extendsRows base (snd (c st)).


(** A computation under which a property of the table, once it holds,
    holds afterwards, however the computation completes. *)
Definition preserves (P : list Row -> Prop) {A : Type} (c : M State A) : Prop :=
  forall st : State, P (db st) -> P (db (snd (c st))).

(** The environment never generates the same identifier twice. *)
Definition distinctIds (env : Environment) : Prop :=
  forall t t' : nat, generateId env t = generateId env t' -> t = t'.

(** No identifier the environment generates is the id of one of [rows]. *)
Definition freshIds (env : Environment) (rows : list Row) : Prop :=
  forall t : nat, ~ In (generateId env t) (ids rows).

(** Every id of the table is an id of [base] or was generated at an
    earlier tick. *)
Definition knownIds (env : Environment) (base : list Row) (st : State) : Prop :=
  forall x, In x (ids (db st)) ->
            In x (ids base) \/ exists t, t < tick st /\ x = generateId env t.

(** The comparator of the search, [b.score - a.score], is positive exactly
    when [a.score < b.score], for every two of the given scores. *)
Definition comparatorAgrees (scores : list float) : bool :=
  forallb (fun a =>
    forallb (fun b => Bool.eqb (0 <? b - a)%float (a <? b)%float) scores) scores.

(** No score is NaN. *)
Definition noNaN (scores : list float) : bool :=
  forallb (fun a => (a =? a)%float) scores.

(** What the two checks on the scores give for two hits of a list. *)
Definition wellOrdered (l : list Scored.t) : Prop :=
  (forall a, In a l -> (Scored.score a =? Scored.score a)%float = true) /\
  (forall a b, In a l -> In b l ->
     (0 <? byScoreDescending a b)%float = (Scored.score a <? Scored.score b)%float).

(** Hits in descending order of score: no hit has a lower score than a
    hit that comes after it. *)
Definition descending (hits : list Scored.t) : Prop :=
  StronglySorted (fun a b => (Scored.score b <=? Scored.score a)%float = true) hits.

End RAGService.

(* ################################################################# *)
(** * services/modelManager.js *)

Module ModelManager.

Import JS Effect.
Local Open Scope string_scope.
Local Open Scope effect_scope.

(** The configuration object, [this.config]. *)
Record Config : Type := {
  llmProvider : string;
  embeddingProvider : string;
  ollamaModel : string;
  geminiApiKey : option string;
  huggingfaceApiKey : option string;
  openaiApiKey : option string;
  lastUpdated : string;
  version : string
}.

(** The generation adapter held in [this.llmService]. *)
Inductive LLMService : Type :=
| OllamaService
| GeminiService (apiKey : string).

Module EmbeddingService.
(** The embedding adapter: the provider it was built for and the
    configuration object it was given. *)
Record t : Type := {
  provider : string;
  huggingfaceApiKey : option string;
  openaiApiKey : option string
}.
End EmbeddingService.

(** The manager: its configuration, the contents of the configuration file
    ([None] while the file does not exist), its two adapters, and the
    count of calls made to the outside. *)
Record State : Type := {
  config : Config;
  file : option Config;
  llmService : option LLMService;
  embeddingService : option EmbeddingService.t;
  tick : nat
}.

Record Environment : Type := {
  (** [new Date().toISOString()] *)
  now : nat -> string;
  (** whether [fs.writeFileSync] succeeds *)
  writeFileSync : nat -> bool;
  (** [OllamaService.initialize()] *)
  ollamaInitialize : nat -> Result unit;
  (** [GeminiService.testConnection()] with the given key *)
  geminiTestConnection : nat -> string -> Result unit
}.

Module Options.
(** The [options] argument of [setLLMProvider]. *)
Record t : Type := { apiKey : option string; model : option string }.
End Options.

Definition nextTick : M State nat :=
  fun st =>
    (Ok (tick st),
     {| config := config st; file := file st; llmService := llmService st;
        embeddingService := embeddingService st; tick := S (tick st) |}).

Definition getConfigObject : M State Config :=
  fun st => (Ok (config st), st).

Definition setConfigObject (c : Config) : M State unit :=
  fun st =>
    (Ok tt,
     {| config := c; file := file st; llmService := llmService st;
        embeddingService := embeddingService st; tick := tick st |}).

Definition writeFile (c : Config) : M State unit :=
  fun st =>
    (Ok tt,
     {| config := config st; file := Some c; llmService := llmService st;
        embeddingService := embeddingService st; tick := tick st |}).

Definition setLLMService (svc : LLMService) : M State unit :=
  fun st =>
    (Ok tt,
     {| config := config st; file := file st; llmService := Some svc;
        embeddingService := embeddingService st; tick := tick st |}).

Definition setEmbeddingService (svc : EmbeddingService.t) : M State unit :=
  fun st =>
    (Ok tt,
     {| config := config st; file := file st; llmService := llmService st;
        embeddingService := Some svc; tick := tick st |}).

(** Field updates of the configuration object. *)
Definition withLLMProvider (p : string) (c : Config) : Config :=
  {| llmProvider := p; embeddingProvider := embeddingProvider c;
     ollamaModel := ollamaModel c; geminiApiKey := geminiApiKey c;
     huggingfaceApiKey := huggingfaceApiKey c; openaiApiKey := openaiApiKey c;
     lastUpdated := lastUpdated c; version := version c |}.

Definition withEmbeddingProvider (p : string) (c : Config) : Config :=
  {| llmProvider := llmProvider c; embeddingProvider := p;
     ollamaModel := ollamaModel c; geminiApiKey := geminiApiKey c;
     huggingfaceApiKey := huggingfaceApiKey c; openaiApiKey := openaiApiKey c;
     lastUpdated := lastUpdated c; version := version c |}.

Definition withOllamaModel (m : string) (c : Config) : Config :=
  {| llmProvider := llmProvider c; embeddingProvider := embeddingProvider c;
     ollamaModel := m; geminiApiKey := geminiApiKey c;
     huggingfaceApiKey := huggingfaceApiKey c; openaiApiKey := openaiApiKey c;
     lastUpdated := lastUpdated c; version := version c |}.

Definition withGeminiApiKey (k : option string) (c : Config) : Config :=
  {| llmProvider := llmProvider c; embeddingProvider := embeddingProvider c;
     ollamaModel := ollamaModel c; geminiApiKey := k;
     huggingfaceApiKey := huggingfaceApiKey c; openaiApiKey := openaiApiKey c;
     lastUpdated := lastUpdated c; version := version c |}.

Definition withHuggingfaceApiKey (k : option string) (c : Config) : Config :=
  {| llmProvider := llmProvider c; embeddingProvider := embeddingProvider c;
     ollamaModel := ollamaModel c; geminiApiKey := geminiApiKey c;
     huggingfaceApiKey := k; openaiApiKey := openaiApiKey c;
     lastUpdated := lastUpdated c; version := version c |}.

Definition withOpenaiApiKey (k : option string) (c : Config) : Config :=
  {| llmProvider := llmProvider c; embeddingProvider := embeddingProvider c;
     ollamaModel := ollamaModel c; geminiApiKey := geminiApiKey c;
     huggingfaceApiKey := huggingfaceApiKey c; openaiApiKey := k;
     lastUpdated := lastUpdated c; version := version c |}.

Definition withLastUpdated (t : string) (c : Config) : Config :=
  {| llmProvider := llmProvider c; embeddingProvider := embeddingProvider c;
     ollamaModel := ollamaModel c; geminiApiKey := geminiApiKey c;
     huggingfaceApiKey := huggingfaceApiKey c; openaiApiKey := openaiApiKey c;
     lastUpdated := t; version := version c |}.

Section WithEnvironment.

Variable env : Environment.

(** [saveConfig]: the time stamp is set in memory, then the file is
    written; a failing write is logged and nothing is thrown. *)
Definition saveConfig : M State unit :=
  t <- nextTick ;;
  c <- getConfigObject ;;
  setConfigObject (withLastUpdated (now env t) c) ;;;
  t' <- nextTick ;;
  c' <- getConfigObject ;;
  if writeFileSync env t' then writeFile c' else ret tt.

(** [GeminiService.initialize] *)
Definition geminiInitialize (apiKey : string) : M State unit :=
  if negb (truthy (Some apiKey)) then throw "Gemini API key is required"
  else
    t <- nextTick ;;
    match geminiTestConnection env t apiKey with
    | Ok _ => ret tt
    | Throw message => throw ("Gemini API key validation failed: " ++ message)
    end.

(** [initializeLLM].  The source calls itself once it has fallen back from
    a key-less [gemini] to [ollama]; [depth] bounds the nesting of these
    calls. *)
Fixpoint initializeLLMWithin (depth : nat) : M State unit :=
  match depth with
  | O => throw "Maximum call stack size exceeded"
  | S depth' =>
      c <- getConfigObject ;;
      if String.eqb (llmProvider c) "ollama" then
        setLLMService OllamaService ;;;
        t <- nextTick ;;
        lift (ollamaInitialize env t)
      else if String.eqb (llmProvider c) "gemini" then
        if negb (truthy (geminiApiKey c)) then
          setConfigObject (withLLMProvider "ollama" c) ;;;
          saveConfig ;;;
          initializeLLMWithin depth'
        else
          let key := match geminiApiKey c with Some k => k | None => "" end in
          setLLMService (GeminiService key) ;;;
          geminiInitialize key
      else throw ("Unsupported LLM provider: " ++ llmProvider c)
  end.

(** Two nested calls are all the source can make. *)
Definition initializeLLM : M State unit := initializeLLMWithin 2.

(** [EmbeddingService.initialize] for an adapter built for [provider]. *)
Definition embeddingInitialize (svc : EmbeddingService.t) : M State unit :=
  let provider := EmbeddingService.provider svc in
  if String.eqb provider "ollama" then ret tt
  else if String.eqb provider "huggingface" then ret tt
  else if String.eqb provider "openai" then ret tt
  else throw ("Unsupported embedding provider: " ++ provider).

Definition initializeEmbedding : M State unit :=
  c <- getConfigObject ;;
  let svc :=
    {| EmbeddingService.provider :=
         if String.eqb (embeddingProvider c) "" then "ollama" else embeddingProvider c;
       EmbeddingService.huggingfaceApiKey := huggingfaceApiKey c;
       EmbeddingService.openaiApiKey := openaiApiKey c |} in
  setEmbeddingService svc ;;;
  embeddingInitialize svc.

(** [setLLMProvider], up to the [try]: the provider and the option that
    goes with it are recorded and saved.  The previous provider is
    returned. *)
Definition beginSwitch (provider : string) (options : Options.t) : M State string :=
  c <- getConfigObject ;;
  let previousProvider := llmProvider c in
  let c := withLLMProvider provider c in
  let c :=
    if String.eqb provider "gemini" && truthy (Options.apiKey options)
    then withGeminiApiKey (Options.apiKey options) c else c in
  let c :=
    match Options.model options with
    | Some model =>
        if String.eqb provider "ollama" && truthy (Some model)
        then withOllamaModel model c else c
    | None => c
    end in
  setConfigObject c ;;;
  saveConfig ;;;
  ret previousProvider.

(** The first statements of the [catch] block. *)
Definition rollback (previousProvider : string) : M State unit :=
  c <- getConfigObject ;;
  setConfigObject (withLLMProvider previousProvider c) ;;;
  saveConfig.

Definition setLLMProvider (provider : string) (options : Options.t) : M State unit :=
  previousProvider <- beginSwitch provider options ;;
  tryCatch initializeLLM
    (fun error =>
       rollback previousProvider ;;;
       initializeLLM ;;;
       throw error).

Definition setEmbeddingProvider (provider : string) (apiKey : option string) : M State unit :=
  c <- getConfigObject ;;
  let c := withEmbeddingProvider provider c in
  let c :=
    if truthy apiKey then
      if String.eqb provider "huggingface" then withHuggingfaceApiKey apiKey c
      else if String.eqb provider "openai" then withOpenaiApiKey apiKey c
      else c
    else c in
  setConfigObject c ;;;
  saveConfig ;;;
  initializeEmbedding.

Definition clearApiKeys : M State unit :=
  c <- getConfigObject ;;
  setConfigObject (withOpenaiApiKey None (withHuggingfaceApiKey None (withGeminiApiKey None c))) ;;;
  saveConfig.

End WithEnvironment.

(** [isProviderConfigured] *)
Definition isProviderConfigured (c : Config) (provider : string) : bool :=
  if String.eqb provider "ollama" then true
  else if String.eqb provider "gemini" then truthy (geminiApiKey c)
  else false.

(** The masked form of a key that is present. *)
Definition mask (key : string) : string :=
  if (12 <? String.length key)%nat
  then substring 0 8 key ++ "..." ++ substring (String.length key - 4) 4 key
  else substring 0 4 key ++ "...".

(** [getMaskedApiKey] *)
Definition getMaskedApiKey (c : Config) (provider : string) : option string :=
  let key :=
    if String.eqb provider "gemini" then geminiApiKey c
    else if String.eqb provider "huggingface" then huggingfaceApiKey c
    else if String.eqb provider "openai" then openaiApiKey c
    else None in
  match key with
  | Some k => if truthy key then Some (mask k) else None
  | None => None
  end.

Module MaskedKeys.
Record t : Type := {
  gemini : option string;
  huggingface : option string;
  openai : option string
}.
End MaskedKeys.

Module Configured.
Record t : Type := { ollama : bool; gemini : bool }.
End Configured.

(** What [getConfig] returns: the own properties of [this.config], copied
    by the spread [...this.config], and the two added objects. *)
Record ConfigView : Type := {
  spread : Config;
  maskedKeys : MaskedKeys.t;
  configured : Configured.t
}.

Definition getConfig (st : State) : ConfigView :=
  {| spread := config st;
     maskedKeys :=
       {| MaskedKeys.gemini := getMaskedApiKey (config st) "gemini";
          MaskedKeys.huggingface := getMaskedApiKey (config st) "huggingface";
          MaskedKeys.openai := getMaskedApiKey (config st) "openai" |};
     configured :=
       {| Configured.ollama := isProviderConfigured (config st) "ollama";
          Configured.gemini := isProviderConfigured (config st) "gemini" |} |}.

(** The masked value of a key field: absent for an absent or empty key. *)
Definition maskedOf (key : option string) : option string :=
  match key with
  | Some k => if truthy key then Some (mask k) else None
  | None => None
  end.

(** The configuration file holds the configuration in memory. *)
Definition synced (st : State) : Prop := file st = Some (config st).

(** Two configurations that differ at most in the generation provider and
    the time stamp. *)
Definition sameSettings (c c' : Config) : Prop :=
  embeddingProvider c' = embeddingProvider c /\
  ollamaModel c' = ollamaModel c /\
  geminiApiKey c' = geminiApiKey c /\
  huggingfaceApiKey c' = huggingfaceApiKey c /\
  openaiApiKey c' = openaiApiKey c /\
  version c' = version c.

(** The key and the model a switch records before it initializes. *)
Definition keyAfterSwitch (provider : string) (options : Options.t) (c : Config) : option string :=
  if String.eqb provider "gemini" && truthy (Options.apiKey options)
  then Options.apiKey options else geminiApiKey c.

Definition modelAfterSwitch (provider : string) (options : Options.t) (c : Config) : string :=
  match Options.model options with
  | Some model =>
      if String.eqb provider "ollama" && truthy (Some model) then model else ollamaModel c
  | None => ollamaModel c
  end.

(** The key-valued properties of the returned object that carry the names
    of the stored keys. *)
Definition rawKeyFields (v : ConfigView) : list (option string) :=
  [ geminiApiKey (spread v); huggingfaceApiKey (spread v); openaiApiKey (spread v) ].

(** The returned object holds no stored key under those names. *)
Definition hidesRawKeys (v : ConfigView) : bool :=
  forallb (fun k => negb (truthy k)) (rawKeyFields v).

End ModelManager.

(* ################################################################# *)
(** * main.js: the routes of the loopback HTTP server *)

Module CLIServer.

Import JS Effect.
Local Open Scope string_scope.
Local Set Warnings "-register-all".

(** A parsed JSON value; a property that an object lacks reads as
    [undefined], here [None]. *)
Inductive Json : Type :=
| JNull
| JBool (b : bool)
| JNumber (n : Z)
| JString (s : string)
| JArray (items : list Json)
| JObject (properties : list (string * Json)).

Fixpoint lookup (key : string) (properties : list (string * Json)) : option Json :=
  match properties with
  | [] => None
  | (k, v) :: rest => if String.eqb k key then Some v else lookup key rest
  end.

(** [value.key] for a JSON value that is not [null]. *)
Definition property (value : Json) (key : string) : option Json :=
  match value with
  | JObject properties => lookup key properties
  | _ => None
  end.

(** JavaScript truthiness of a property read. *)
Definition truthyValue (v : option Json) : bool :=
  match v with
  | None | Some JNull => false
  | Some (JBool b) => b
  | Some (JNumber n) => negb (Z.eqb n 0)
  | Some (JString s) => negb (String.eqb s "")
  | Some (JArray _) | Some (JObject _) => true
  end.

Definition isArray (v : option Json) : bool :=
  match v with Some (JArray _) => true | _ => false end.

Inductive Route : Type :=
| PostIngestCommit
| GetProjects
| PostSearch
| PostIngest
| GetHealth
| PostQuery.

(** The JSON object a handler sends. *)
Inductive Body : Type :=
| Success (data : Json)                  (* {success: true, data} *)
| Failure (error : string)               (* {success: false, error} *)
| Healthy (timestamp : string).          (* {success: true, status: 'healthy', timestamp} *)

Record Response : Type := { statusCode : nat; body : Body }.

(** [res.json(body)] answers with the default status, 200. *)
Definition json (b : Body) : Response := {| statusCode := 200; body := b |}.

(** [res.status(code).json(body)] *)
Definition statusJson (code : nat) (b : Body) : Response :=
  {| statusCode := code; body := b |}.

(** The RAG service as the routes call it, each call completing as the
    service decides. *)
Record Service : Type := {
  ingestCommit : Json -> Result Json;
  getProjects : Result Json;
  searchAndGenerate : option Json -> option Json -> option Json -> Result Json;
  ingestDocument : option Json -> Json -> Result Json;
  timestamp : string
}.

Section Routes.

Variable ragService : Service.

Definition postIngestCommit (reqBody : Json) : Response :=
  let commitData := reqBody in
  if negb (truthyValue (Some commitData))
     || negb (truthyValue (property commitData "projectName"))
     || negb (truthyValue (property commitData "files"))
  then statusJson 400
         (Failure "Invalid commit data structure. Expected: {projectName, metadata, files}")
  else if negb (isArray (property commitData "files"))
  then statusJson 400 (Failure "Files must be an array")
  else
    match ingestCommit ragService commitData with
    | Ok result => json (Success result)
    | Throw message => statusJson 500 (Failure message)
    end.

Definition getProjectsRoute : Response :=
  match getProjects ragService with
  | Ok projects => json (Success projects)
  | Throw message => statusJson 500 (Failure message)
  end.

(** A destructuring default applies when the property is [undefined]. *)
Definition withDefault (v : option Json) (d : Json) : Json :=
  match v with Some x => x | None => d end.

Definition postSearch (reqBody : Json) : Response :=
  let query := property reqBody "query" in
  let k := withDefault (property reqBody "k") (JNumber 5) in
  let projectName := withDefault (property reqBody "projectName") JNull in
  if negb (truthyValue query)
  then statusJson 400 (Failure "Query is required")
  else
    match searchAndGenerate ragService query (Some k) (Some projectName) with
    | Ok result => json (Success result)
    | Throw message => statusJson 500 (Failure message)
    end.

Definition postIngest (reqBody : Json) : Response :=
  let text := property reqBody "text" in
  let metadata := property reqBody "metadata" in
  if negb (truthyValue text)
  then statusJson 400 (Failure "Text is required")
  else
    match ingestDocument ragService text
            (if truthyValue metadata then withDefault metadata (JObject []) else JObject []) with
    | Ok result => json (Success result)
    | Throw message => statusJson 500 (Failure message)
    end.

Definition getHealth : Response :=
  json (Healthy (timestamp ragService)).

Definition postQuery (reqBody : Json) : Response :=
  match searchAndGenerate ragService (property reqBody "query") (property reqBody "k") None with
  | Ok result => json (Success result)
  | Throw message => json (Failure message)
  end.

Definition handle (route : Route) (reqBody : Json) : Response :=
  match route with
  | PostIngestCommit => postIngestCommit reqBody
  | GetProjects => getProjectsRoute
  | PostSearch => postSearch reqBody
  | PostIngest => postIngest reqBody
  | GetHealth => getHealth
  | PostQuery => postQuery reqBody
  end.

End Routes.

(** ** The body parser in front of the routes *)

(** A request that announces a JSON body (the headers [Content-Type:
    application/json] and [Content-Length], as the generator sends them):
    the length of the body in bytes and what [JSON.parse] makes of it,
    [None] when it throws.  A request of another content type is left
    alone by the parser; what the routes then read is not modelled. *)
Record Request : Type := { bodyLength : N; parsed : option Json }.

(** What [express.json()] does with the body: it hands a value to the
    route, or fails with a status. *)
Inductive Parsed : Type :=
| Accepted (reqBody : Json)
| Refused (status : nat).

(** The limit of [express.json()] without options, [100kb]. *)
Definition DEFAULT_LIMIT : N := 100 * 1024.

(** [app.use(express.json())], the first middleware: a body above the
    limit is refused with 413; an empty body reads as [{}]; in strict
    mode, the default, a body that does not parse to an object or an array
    is refused with 400.  The parser with the limit of 200 MB that is
    installed after it finds the body parsed already, or is not reached. *)
Definition expressJson (request : Request) : Parsed :=
  if (DEFAULT_LIMIT <? bodyLength request)%N then Refused 413
  else if (bodyLength request =? 0)%N then Accepted (JObject [])
  else
    match parsed request with
    | Some (JObject properties) => Accepted (JObject properties)
    | Some (JArray items) => Accepted (JArray items)
    | _ => Refused 400
    end.

(** What the client receives: the JSON that a handler sends, or the page
    with which the error handler of Express answers a body that was
    refused. *)
Inductive Reply : Type :=
| Handled (response : Response)
| ErrorPage (status : nat).

Definition serve (ragService : Service) (route : Route) (request : Request) : Reply :=
  match expressJson request with
  | Accepted reqBody => Handled (handle ragService route reqBody)
  | Refused status => ErrorPage status
  end.

(** The handlers of the IPC channels answer with the body alone.  The
    argument of [rag:search] is destructured, so it is an object, given
    here by its properties. *)
Section Channels.

Variable ragService : Service.

Definition ragIngestCommit (commitData : Json) : Body :=
  if negb (truthyValue (Some commitData))
     || negb (truthyValue (property commitData "projectName"))
     || negb (truthyValue (property commitData "files"))
  then Failure "Invalid commit data structure. Expected: {projectName, metadata, files}"
  else if negb (isArray (property commitData "files"))
  then Failure "Files must be an array"
  else
    match ingestCommit ragService commitData with
    | Ok result => Success result
    | Throw message => Failure message
    end.

Definition ragSearch (args : list (string * Json)) : Body :=
  let query := lookup "query" args in
  let k := withDefault (lookup "k" args) (JNumber 5) in
  let projectName := withDefault (lookup "projectName" args) JNull in
  match searchAndGenerate ragService query (Some k) (Some projectName) with
  | Ok result => Success result
  | Throw message => Failure message
  end.

End Channels.

(** A response that reports a failure. *)
Definition isFailure (r : Response) : bool :=
  match body r with Failure _ => true | _ => false end.

Definition isErrorStatus (r : Response) : bool :=
  Nat.eqb (statusCode r) 400 || Nat.eqb (statusCode r) 500.

End CLIServer.

(* ################################################################# *)
(** * services/providers/geminiService.js *)

Module GeminiService.

Import JS Effect CLIServer.
Local Open Scope string_scope.

(** A whole number in decimal, as a template literal prints it. *)
Definition showNumber (n : Z) : string :=
  match n with
  | Z0 => "0"
  | Zpos p => NilEmpty.string_of_uint (Pos.to_uint p)
  | Zneg p => "-" ++ NilEmpty.string_of_uint (Pos.to_uint p)
  end.

Fixpoint joinWith (sep : string) (parts : list string) : string :=
  match parts with
  | [] => ""
  | [x] => x
  | x :: rest => x ++ sep ++ joinWith sep rest
  end.

(** [String(value)]: the text a template literal puts for a value. *)
Fixpoint toText (value : Json) : string :=
  match value with
  | JNull => "null"
  | JBool true => "true"
  | JBool false => "false"
  | JNumber n => showNumber n
  | JString s => s
  | JArray items =>
      joinWith "," (map (fun item => match item with JNull => "" | _ => toText item end) items)
  | JObject _ => "[object Object]"
  end.

(** [typeof v === 'string'] with the string. *)
Definition asString (v : option Json) : option string :=
  match v with Some (JString s) => Some s | _ => None end.

Definition isString (v : option Json) (s : string) : bool :=
  match v with Some (JString x) => String.eqb x s | _ => false end.

(** The message of the [TypeError] that reading a property of [null]
    raises. *)
Definition cannotRead (key : string) : string :=
  "Cannot read properties of null (reading '" ++ key ++ "')".

(** The [try] block of [safeParseResponse]. *)
Definition parseResponse (response : Json) : Result string :=
  if negb (truthyValue (Some response)) then Throw "No response received from API"
  else if truthyValue (property response "error") then
    let message :=
      match property response "error" with
      | Some error => property error "message"
      | None => None
      end in
    Throw ("API Error: "
           ++ match message with
              | Some m => if truthyValue message then toText m else "Unknown error"
              | None => "Unknown error"
              end)
  else
    match property response "candidates" with
    | Some (JArray (candidate :: _)) =>
        match candidate with
        | JNull => Throw (cannotRead "finishReason")
        | _ =>
            let finishReason := property candidate "finishReason" in
            if truthyValue finishReason && negb (isString finishReason "STOP") then
              if isString finishReason "SAFETY"
              then Throw "Response blocked due to safety filters"
              else if isString finishReason "OTHER"
              then Throw "Response generation stopped unexpectedly"
              else Throw ("Response stopped: "
                          ++ match finishReason with Some r => toText r | None => "" end)
            else
              match property candidate "content" with
              | Some content =>
                  if negb (truthyValue (Some content)) then Throw "No content in candidate"
                  else
                    match property content "parts" with
                    | Some (JArray (textPart :: _)) =>
                        if negb (truthyValue (Some textPart))
                        then Throw "No valid text content in response parts"
                        else
                          match asString (property textPart "text") with
                          | Some text => Ok text
                          | None => Throw "No valid text content in response parts"
                          end
                    | _ => Throw "Response content missing 'parts'"
                    end
              | None => Throw "No content in candidate"
              end
        end
    | _ => Throw "No candidates in response"
    end.

(** The messages that the [catch] block of [safeParseResponse] lets
    through as they are. *)
Definition passesThrough (message : string) : bool :=
  includesText message "API Error:" || includesText message "No candidates"
  || includesText message "Response blocked".

Definition safeParseResponse (response : Json) : Result string :=
  match parseResponse response with
  | Ok text => Ok text
  | Throw message =>
      if passesThrough message then Throw message
      else Throw ("Error parsing response: " ++ message)
  end.

(** [makeRequest] resolves with the parsed body or rejects with the
    message the server sent, [HTTP <status>], a network error or a
    timeout. *)
(** A request sent to the API: the key in its path and the prompt in its
    body. *)
Record Call : Type := { callKey : option string; callPrompt : string }.

(** The requests sent so far, in order. *)
Definition Sent : Type := list Call.

Section WithRequest.

(** How the API answers a request, which may depend on the number of
    requests sent before it: the parsed response, or the error with which
    [makeRequest] rejects (a status of 400 or more, a body that is not
    JSON, a network error, the timeout). *)
Variable answer : nat -> Call -> Result Json.

(** The key the service was built with; [None]: no key. *)
Variable apiKey : option string.

Definition makeRequest (prompt : string) : M Sent Json :=
  fun sent =>
    let call := {| callKey := apiKey; callPrompt := prompt |} in
    (answer (List.length sent) call, (sent ++ [call])%list).

Definition prompt (systemPrompt userPrompt : string) : string :=
  systemPrompt ++ String "010" (String "010" "User: ") ++ userPrompt
  ++ String "010" "Assistant:".

Definition generateWithContext (systemPrompt userPrompt : string) : M Sent string :=
  tryCatch
    (bind (makeRequest (prompt systemPrompt userPrompt))
          (fun response => lift (safeParseResponse response)))
    (fun message => throw ("Gemini API error: " ++ message)).

Definition testConnection : M Sent unit :=
  bind (generateWithContext "System" "Say 'Hello' to test the connection")
       (fun testResponse =>
          if String.eqb testResponse "" || (String.length testResponse <? 1)%nat
          then throw "Invalid API response during test"
          else ret tt).

Definition initialize : M Sent unit :=
  if negb (truthy apiKey) then throw "Gemini API key is required"
  else
    tryCatch testConnection
      (fun message => throw ("Gemini API key validation failed: " ++ message)).

End WithRequest.

(** The text of a response: the [text] of the first part of the content
    of the first candidate. *)
Definition firstText (response : Json) : option Json :=
  match property response "candidates" with
  | Some (JArray (candidate :: _)) =>
      match property candidate "content" with
      | Some content =>
          match property content "parts" with
          | Some (JArray (textPart :: _)) => property textPart "text"
          | _ => None
          end
      | None => None
      end
  | _ => None
  end.

(** The [finishReason] of the first candidate. *)
Definition firstFinishReason (response : Json) : option Json :=
  match property response "candidates" with
  | Some (JArray (candidate :: _)) => property candidate "finishReason"
  | _ => None
  end.

End GeminiService.

(* ################################################################# *)
(** * The snapshot generator of the command-line tool *)

Module SnapshotGenerator.

Import JS Effect.
Local Open Scope string_scope.
Local Set Warnings "-inexact-float".
Local Set Warnings "-register-all".

Definition IGNORE_DIRS : list string :=
  [ ".git"; ".gw"; "node_modules"; "dist"; "build"; "out"; ".next"; "coverage"; ".cache";
    "target"; "bin"; "obj"; ".venv"; "venv"; "__pycache__"; ".idea"; ".vscode" ].

Definition MAX_FILE_BYTES : Z := 2 * 1024 * 1024.

(* ----------------------------------------------------------------- *)
(** ** looksBinary *)

(** [buffer[i]], a number from 0 to 255. *)
Definition byteValue (b : Byte.byte) : Z := Z.of_N (Byte.to_N b).

(** The test of the second loop on a byte: not a tab, a line feed or a
    carriage return, and outside 32..126. *)
Definition isNonPrintable (c : Z) : bool :=
  if (c =? 9)%Z || (c =? 10)%Z || (c =? 13)%Z then false
  else (c <? 32)%Z || (126 <? c)%Z.

(** The counter [nonPrintable] after the second loop. *)
Definition countNonPrintable (bytes : list Byte.byte) : Z :=
  fold_left (fun n b => if isNonPrintable (byteValue b) then (n + 1)%Z else n) bytes 0%Z.

(** An integer counter as a JavaScript number. *)
Definition toNumber (z : Z) : float := PrimFloat.of_uint63 (Uint63Axioms.of_Z z).

Definition looksBinary (buffer : list Byte.byte) : bool :=
  let len := Z.min (Z.of_nat (List.length buffer)) 4096 in
  let scanned := firstn (Z.to_nat len) buffer in
  if existsb (fun b => (byteValue b =? 0)%Z) scanned then true
  else (0.3 <? toNumber (countNonPrintable scanned) / toNumber len)%float.

Section Exhaustive.

Import Uint63.

(** The comparison of the ratio with 0.3 on machine integers, for the
    exhaustive check of the 4097 x 4097 pairs of counters. *)
Definition ratioAgrees (n len : int) : bool :=
  Bool.eqb (0.3 <? PrimFloat.of_uint63 n / PrimFloat.of_uint63 len)%float
           (3 * len <? 10 * n)%uint63.

Fixpoint ratioAgreesFrom (rounds : nat) (n len : int) : bool :=
  match rounds with
  | O => true
  | S rounds' => ratioAgrees n len && ratioAgreesFrom rounds' (n + 1)%uint63 len
  end.

Fixpoint ratioAgreesUpTo (rounds : nat) (len : int) : bool :=
  match rounds with
  | O => true
  | S rounds' => ratioAgreesFrom 4097 0%uint63 len && ratioAgreesUpTo rounds' (len + 1)%uint63
  end.

End Exhaustive.

(* ----------------------------------------------------------------- *)
(** ** scanProject *)

(** What [readdirSync(dir, {withFileTypes: true})] finds below a
    directory.  A file that [statSync] or [readFileSync] fails on, and a
    directory that [readdirSync] fails on, are entries of their own; an
    entry that is neither a directory nor a regular file (a symbolic link,
    a socket) is [Other]. *)
Inductive Entry : Type :=
| Directory (name : string) (entries : list Entry)
| UnreadableDirectory (name : string) (error : string)
| File (name : string) (contents : list Byte.byte)
| UnreadableFile (name : string)
| Other (name : string).

(** An element of [files]: the path and the content, the string that
    [buf.toString("utf8")] makes of the bytes read. *)
Record SnapshotFile : Type := { path : string; content : string }.

Fixpoint join (sep : string) (parts : list string) : string :=
  match parts with
  | [] => ""
  | [x] => x
  | x :: rest => x ++ sep ++ join sep rest
  end.

(** [FileAt entries components contents]: the tree holds, at the path
    with these components, a regular file with these bytes. *)
Inductive FileAt : list Entry -> list string -> list Byte.byte -> Prop :=
| FileHere (entries : list Entry) (name : string) (contents : list Byte.byte) :
    In (File name contents) entries ->
    FileAt entries [name] contents
| FileBelow (entries below : list Entry) (name : string) (components : list string)
            (contents : list Byte.byte) :
    In (Directory name below) entries ->
    FileAt below components contents ->
    FileAt entries (name :: components) contents.

Section WithDecoder.

(** [Buffer.prototype.toString("utf8")] *)
Variable toStringUtf8 : list Byte.byte -> string.

(** The body of the [for] loop of [walk] for one entry found in the
    directory [dir], given by its components below the root.  The loop
    itself stands twice: inside [visit], where the recursion passes through
    the list of entries, and as [walk] below. *)
Fixpoint visit (dir : list string) (entry : Entry) : Result (list SnapshotFile) :=
  let walk :=
    fix walk (dir : list string) (entries : list Entry) : Result (list SnapshotFile) :=
      match entries with
      | [] => Ok []
      | entry :: rest =>
          match visit dir entry with
          | Throw error => Throw error
          | Ok found =>
              match walk dir rest with
              | Throw error => Throw error
              | Ok more => Ok (found ++ more)%list
              end
          end
      end in
  match entry with
  | Directory name entries =>
      let rel := join "/" (dir ++ [name]) in
      if String.eqb rel "" then Ok []
      else if includes IGNORE_DIRS name then Ok []
      else walk (dir ++ [name])%list entries
  | UnreadableDirectory name error =>
      let rel := join "/" (dir ++ [name]) in
      if String.eqb rel "" then Ok []
      else if includes IGNORE_DIRS name then Ok []
      else Throw error
  | File name contents =>
      let rel := join "/" (dir ++ [name]) in
      if String.eqb rel "" then Ok []
      else if (MAX_FILE_BYTES <? Z.of_nat (List.length contents))%Z then Ok []
      else if looksBinary contents then Ok []
      else Ok [ {| path := "/" ++ rel; content := toStringUtf8 contents |} ]
  | UnreadableFile name => Ok []
  | Other name => Ok []
  end.

Fixpoint walk (dir : list string) (entries : list Entry) : Result (list SnapshotFile) :=
  match entries with
  | [] => Ok []
  | entry :: rest =>
      match visit dir entry with
      | Throw error => Throw error
      | Ok found =>
          match walk dir rest with
          | Throw error => Throw error
          | Ok more => Ok (found ++ more)%list
          end
      end
  end.

(** [scanProject(rootDir)] on the entries of the root directory. *)
Definition scanProject (root : list Entry) : Result (list SnapshotFile) := walk [] root.

(** What a file of a snapshot is: a regular file of the tree, found
    below [dir] at some path, whose bytes are few and do not look binary,
    with its decoded bytes as content. *)
Definition scanned (entries : list Entry) (dir : list string) (file : SnapshotFile) : Prop :=
  exists (components : list string) (contents : list Byte.byte),
    FileAt entries components contents /\
    path file = "/" ++ join "/" (dir ++ components) /\
    content file = toStringUtf8 contents /\
    looksBinary contents = false /\
    (Z.of_nat (List.length contents) <= MAX_FILE_BYTES)%Z.

End WithDecoder.

(** The tree with what lies below every ignored directory removed. *)
Fixpoint prune (entry : Entry) : Entry :=
  match entry with
  | Directory name entries =>
      if includes IGNORE_DIRS name then Directory name []
      else Directory name (map prune entries)
  | UnreadableDirectory name error =>
      if includes IGNORE_DIRS name then Directory name []
      else UnreadableDirectory name error
  | other => other
  end.

(* ----------------------------------------------------------------- *)
(** ** writeFileSyncAtomic *)

(** The files of the disk by path. *)
Definition Disk : Type := string -> option string.

Definition store (filePath : string) (data : option string) (disk : Disk) : Disk :=
  fun p => if String.eqb p filePath then data else disk p.

(** How a write and a rename complete.  A write that fails leaves what it
    got to write, if it created the file at all. *)
Inductive WriteOutcome : Type :=
| Written
| WriteFailed (error : string) (leftover : option string).

Inductive RenameOutcome : Type :=
| Renamed
| RenameFailed (error : string).

Definition writeFileSync (outcome : WriteOutcome) (filePath data : string) : M Disk unit :=
  fun disk =>
    match outcome with
    | Written => (Ok tt, store filePath (Some data) disk)
    | WriteFailed error leftover => (Throw error, store filePath leftover disk)
    end.

Definition renameSync (outcome : RenameOutcome) (oldPath newPath : string) : M Disk unit :=
  fun disk =>
    match outcome with
    | Renamed => (Ok tt, store newPath (disk oldPath) (store oldPath None disk))
    | RenameFailed error => (Throw error, disk)
    end.

Definition writeFileSyncAtomic (write : WriteOutcome) (rename : RenameOutcome)
           (filePath data : string) : M Disk unit :=
  let tmp := filePath ++ ".tmp" in
  bind (writeFileSync write tmp data) (fun _ => renameSync rename tmp filePath).

(* ----------------------------------------------------------------- *)
(** ** main *)

(** What [getCommitMeta] returns when git answers. *)
Record CommitMeta : Type := {
  metaAuthor : string;
  metaMessage : string;
  metaDate : string;
  metaHash : string
}.

(** The [metadata] of a payload; the placeholders carry no [hash]. *)
Record Metadata : Type := {
  author : option string;
  commit_message : string;          (* the key 'commit-message' *)
  date : string;
  hash : option string
}.

Record Payload : Type := {
  projectName : string;
  metadata : Metadata;
  files : list SnapshotFile
}.

(** [.gw/config.json] as [main] reads it. *)
Record Config : Type := {
  electronUrl : option CLIServer.Json;
  autoIngest : option CLIServer.Json;
  lastIngestion : option string;
  lastCommitHash : option string
}.





(** What a run does to the outside, in order: the directories it
    makes, the files it writes and renames, the request it sends.  What
    it reads (the tree, the configuration, the answers of git) and what it
    prints are not part of the trace. *)
Inductive Data : Type :=
| PayloadText (payload : Payload)        (* [JSON.stringify(payload, null, 2)] *)
| ConfigText (config : Config)           (* [JSON.stringify(config, null, 2)] *)
| Fragment.                              (* what a failed write got to write *)

Inductive Event : Type :=
| MadeDirectory (dirPath : string)
| WroteFile (filePath : string) (data : Data)
| RenamedFile (oldPath newPath : string)
| AskedBackend (payload : Payload).

Definition Trace : Type := list Event.

Definition emit (events : list Event) : M Trace unit :=
  fun trace => (Ok tt, (trace ++ events)%list).

(** How [ensureDirSync] completes: the directory is there, or
    [mkdirSync(dir, {recursive: true})] makes it and the parents that
    lack, or it throws, after the parents it got to make. *)
Inductive DirectoryOutcome : Type :=
| DirectoryExists
| DirectoryMade (made : list string)
| DirectoryFailed (made : list string) (error : string).



(** The file operations of [writeFileSyncAtomic], in the trace. *)
Module Traced.

Definition writeFileSync (outcome : WriteOutcome) (filePath : string) (data : Data)
  : M Trace unit :=
  match outcome with
  | Written => emit [WroteFile filePath data]
  | WriteFailed error leftover =>
      bind (emit (match leftover with Some _ => [WroteFile filePath Fragment] | None => [] end))
           (fun _ => throw error)
  end.

Definition renameSync (outcome : RenameOutcome) (oldPath newPath : string) : M Trace unit :=
  match outcome with
  | Renamed => emit [RenamedFile oldPath newPath]
  | RenameFailed error => throw error
  end.

Definition writeFileSyncAtomic (write : WriteOutcome) (rename : RenameOutcome)
           (filePath : string) (data : Data) : M Trace unit :=
  let tmp := filePath ++ ".tmp" in
  bind (writeFileSync write tmp data) (fun _ => renameSync rename tmp filePath).

End Traced.

(** What a run meets outside the process. *)
Record World : Type := {
  repository : string;                     (* the base name of the repository root *)
  payloadDir : DirectoryOutcome;           (* [ensureDirSync(payloadDir)] *)
  tree : list Entry;                       (* the files below the root *)
  commitMeta : option CommitMeta;          (* [getCommitMeta()] *)
  today : string;                          (* [todayShort()] *)
  now : string;                            (* [new Date().toISOString()] *)
  config : Config;                         (* [loadConfig(repoRoot)] *)
  payloadWrite : WriteOutcome;             (* the write of the payload's [.tmp] file *)
  payloadRename : RenameOutcome;           (* its rename *)
  configWrite : WriteOutcome;              (* the same for [config.json] *)
  configRename : RenameOutcome;
  (** the POST to the backend once a URL is configured: [None] when the
      request cannot be built ([new URL] throws on the configured value)
      and nothing is sent, otherwise whether the backend has answered
      with a success (no answer, an error, a timeout: [false]) *)
  backend : Payload -> option bool
}.

Definition configPath : string := ".gw/config.json".


(** [saveConfig]: a write that throws is reported and nothing is
    thrown. *)
Definition saveConfig (world : World) (config : Config) : M Trace unit :=
  tryCatch
    (Traced.writeFileSyncAtomic (configWrite world) (configRename world)
       configPath (ConfigText config))
    (fun _ => ret tt).


Section WithDecoder.

Variable toStringUtf8 : list Byte.byte -> string.


End WithDecoder.

End SnapshotGenerator.

(* ################################################################# *)
(** * Sample worlds *)

Module Sample.

Import Effect RAGService.
Local Open Scope string_scope.
Local Set Warnings "-inexact-float".

Definition metadataOf (project path : string) : Metadata :=
  {| Meta.project_name := Some project; Meta.file_path := Some path;
     Meta.author := Some "Alice"; Meta.commit_message := Some "Initial commit";
     Meta.commit_date := Some "2024-05-01"; Meta.ingested_at := None;
     Meta.file_type := Some "javascript"; Meta.commit_hash := None |}.

(** An environment whose adapters answer; the embedding adapter fails on
    its call at tick 6 only. *)
Definition env : Environment :=
  {| now := fun _ => "2024-05-01T10:00:00.000Z";
     generateId := fun t => "doc-" ++ showNat t;
     embedText := fun t _ =>
       if Nat.eqb t 6 then Throw "Ollama embedding failed" else Ok (Some [1; 0]%float);
     generateWithContext := fun _ _ _ => Ok "The parser lives in src/high.js.";
     stringifyMetadata := fun _ => "{}";
     reformatJSON := fun _ => None;
     toFixed1 := fun _ => "0.0";
     dateValue := fun _ => 0%float;
     insertError := fun _ _ => None |}.

(** The same environment with an embedding adapter that never fails. *)
Definition steadyEnv : Environment :=
  {| now := now env;
     generateId := generateId env;
     embedText := fun _ _ => Ok (Some [1; 0]%float);
     generateWithContext := generateWithContext env;
     stringifyMetadata := stringifyMetadata env;
     reformatJSON := reformatJSON env;
     toFixed1 := toFixed1 env;
     dateValue := dateValue env;
     insertError := insertError env |}.

(** The same environment with a database that refuses every insert. *)
Definition fullDiskEnv : Environment :=
  {| now := now env;
     generateId := generateId env;
     embedText := embedText steadyEnv;
     generateWithContext := generateWithContext env;
     stringifyMetadata := stringifyMetadata env;
     reformatJSON := reformatJSON env;
     toFixed1 := toFixed1 env;
     dateValue := dateValue env;
     insertError := fun _ _ => Some "database or disk is full" |}.

(** Three stored documents whose similarities to the query embedding
    [1, 0] are about 0.5, 0.9 and 0.1. *)
Definition rows : list Row :=
  [ {| id := "seed-a"; text := "mid"; metadata := metadataOf "app" "src/mid.js";
       embedding := Some [0.5; 0.8660254037844386]%float |};
    {| id := "seed-b"; text := "high"; metadata := metadataOf "app" "src/high.js";
       embedding := Some [0.9; 0.4358898943540674]%float |};
    {| id := "seed-c"; text := "low"; metadata := metadataOf "app" "src/low.js";
       embedding := Some [0.1; 0.99498743710662]%float |} ].

Definition st : State := {| db := rows; tick := 0 |}.

(** Two stored documents with finite embeddings.  Against a query
    embedding [1e150, 0] the sums of the first overflow, so that its
    similarity is the quotient of two infinities; the similarity of the
    second is about 0.9. *)
Definition overflowRow : Row :=
  {| id := "seed-x"; text := "overflow"; metadata := metadataOf "app" "src/overflow.js";
     embedding := Some [1e160; 1e160]%float |}.

Definition highRow : Row :=
  {| id := "seed-b"; text := "high"; metadata := metadataOf "app" "src/high.js";
     embedding := Some [0.9; 0.4358898943540674]%float |}.

(** The environment [env] with an adapter that embeds every text as
    [1e150, 0]. *)
Definition overflowEnv : Environment :=
  {| now := now env;
     generateId := generateId env;
     embedText := fun _ _ => Ok (Some [1e150; 0]%float);
     generateWithContext := generateWithContext env;
     stringifyMetadata := stringifyMetadata env;
     reformatJSON := reformatJSON env;
     toFixed1 := toFixed1 env;
     dateValue := dateValue env;
     insertError := insertError env |}.

(** A commit of three files, the second of which is blank. *)
Definition commit : Commit.Data :=
  {| Commit.projectName := "app";
     Commit.metadata :=
       {| Commit.author := Some "Alice"; Commit.commit_message := Some "Add files";
          Commit.date := Some "2024-05-01"; Commit.hash := Some "abc123" |};
     Commit.files :=
       [ {| Commit.path := "/src/a.js"; Commit.content := Some "const a = 1;" |};
         {| Commit.path := "/src/blank.js"; Commit.content := Some "   " |};
         {| Commit.path := "/src/c.js"; Commit.content := Some "const c = 3;" |} ] |}.


(** The manager of a fresh installation: the built-in defaults, saved. *)
Definition defaults : ModelManager.Config :=
  {| ModelManager.llmProvider := "ollama";
     ModelManager.embeddingProvider := "ollama";
     ModelManager.ollamaModel := "phi3:mini";
     ModelManager.geminiApiKey := None;
     ModelManager.huggingfaceApiKey := None;
     ModelManager.openaiApiKey := None;
     ModelManager.lastUpdated := "2024-05-01T09:00:00.000Z";
     ModelManager.version := "1.0.0" |}.

Definition manager : ModelManager.State :=
  {| ModelManager.config := defaults;
     ModelManager.file := Some defaults;
     ModelManager.llmService := Some ModelManager.OllamaService;
     ModelManager.embeddingService := None;
     ModelManager.tick := 0 |}.

(** The local runtime starts, the hosted service rejects every key, and
    the disk accepts every write. *)
Definition managerEnv : ModelManager.Environment :=
  {| ModelManager.now := fun t => "2024-05-01T10:00:0" ++ showNat t ++ ".000Z";
     ModelManager.writeFileSync := fun _ => true;
     ModelManager.ollamaInitialize := fun _ => Ok tt;
     ModelManager.geminiTestConnection := fun _ _ => Throw "Gemini API error: HTTP 400" |}.

Definition rejectedKey : ModelManager.Options.t :=
  {| ModelManager.Options.apiKey := Some "AIzaSyA-rejected-key";
     ModelManager.Options.model := None |}.

(** A manager that holds a hosted-service key. *)
Definition managerWithKey : ModelManager.State :=
  {| ModelManager.config :=
       ModelManager.withGeminiApiKey (Some "AIzaSyA1234567890abcdef") defaults;
     ModelManager.file :=
       Some (ModelManager.withGeminiApiKey (Some "AIzaSyA1234567890abcdef") defaults);
     ModelManager.llmService := Some ModelManager.OllamaService;
     ModelManager.embeddingService := None;
     ModelManager.tick := 0 |}.


(** A repository with a source file, an image, a dependency directory
    and a file that cannot be read. *)
Definition sourceBytes : list Byte.byte :=
  [Byte.x63; Byte.x6f; Byte.x6e; Byte.x73; Byte.x74; Byte.x20; Byte.x61; Byte.x3b; Byte.x0a].

Definition tree : list SnapshotGenerator.Entry :=
  [ SnapshotGenerator.Directory "src"
      [ SnapshotGenerator.File "a.js" sourceBytes;
        SnapshotGenerator.File "logo.png" [Byte.x89; Byte.x50; Byte.x4e; Byte.x47; Byte.x00] ];
    SnapshotGenerator.Directory "node_modules"
      [ SnapshotGenerator.File "index.js" sourceBytes ];
    SnapshotGenerator.UnreadableFile "package-lock.json" ].

(** A service whose embedding adapter was never initialized. *)
Definition failingService : CLIServer.Service :=
  {| CLIServer.ingestCommit := fun _ => Throw "Embedding service not initialized";
     CLIServer.getProjects := Ok (CLIServer.JArray []);
     CLIServer.searchAndGenerate := fun _ _ _ => Throw "Embedding service not initialized";
     CLIServer.ingestDocument := fun _ _ => Throw "Embedding service not initialized";
     CLIServer.timestamp := "2024-05-01T10:00:00.000Z" |}.

Definition queryBody : CLIServer.Json :=
  CLIServer.JObject [("query", CLIServer.JString "where is the parser?");
                     ("k", CLIServer.JNumber 3)].

(** A service that ingests every commit. *)
Definition ingestingService : CLIServer.Service :=
  {| CLIServer.ingestCommit := fun _ => Ok (CLIServer.JObject [("total_files", CLIServer.JNumber 1)]);
     CLIServer.getProjects := Ok (CLIServer.JArray []);
     CLIServer.searchAndGenerate := fun _ _ _ => Ok (CLIServer.JObject []);
     CLIServer.ingestDocument := fun _ _ => Ok (CLIServer.JObject []);
     CLIServer.timestamp := "2024-05-01T10:00:00.000Z" |}.

Definition commitBody : CLIServer.Json :=
  CLIServer.JObject
    [("projectName", CLIServer.JString "app");
     ("files", CLIServer.JArray
                 [CLIServer.JObject [("path", CLIServer.JString "/src/a.js");
                                     ("content", CLIServer.JString "const a;")]])].

(** A first run in a repository without commits, with the backend up:
    the directories are made, the payload is written, the backend ingests
    it and the configuration is saved. *)
Definition world : SnapshotGenerator.World :=
  {| SnapshotGenerator.repository := "app";
     SnapshotGenerator.payloadDir := SnapshotGenerator.DirectoryMade [".gw"; ".gw/payloads"];
     SnapshotGenerator.tree := tree;
     SnapshotGenerator.commitMeta := None;
     SnapshotGenerator.today := "2024-05-01";
     SnapshotGenerator.now := "2024-05-01T10:00:00.000Z";
     SnapshotGenerator.config :=
       {| SnapshotGenerator.electronUrl := Some (CLIServer.JString "http://localhost:3001");
          SnapshotGenerator.autoIngest := Some (CLIServer.JBool true);
          SnapshotGenerator.lastIngestion := None;
          SnapshotGenerator.lastCommitHash := None |};
     SnapshotGenerator.payloadWrite := SnapshotGenerator.Written;
     SnapshotGenerator.payloadRename := SnapshotGenerator.Renamed;
     SnapshotGenerator.configWrite := SnapshotGenerator.Written;
     SnapshotGenerator.configRename := SnapshotGenerator.Renamed;
     SnapshotGenerator.backend := fun _ => Some true |}.


(** The API answers a request under the key [AIzaSyA-good-key] with the
    text [Hello], any other with an error. *)
Definition geminiAnswer (count : nat) (call : GeminiService.Call)
  : Result CLIServer.Json :=
  match GeminiService.callKey call with
  | Some "AIzaSyA-good-key" =>
      Ok (CLIServer.JObject
            [("candidates",
              CLIServer.JArray
                [CLIServer.JObject
                   [("content",
                     CLIServer.JObject
                       [("parts",
                         CLIServer.JArray
                           [CLIServer.JObject [("text", CLIServer.JString "Hello")]])]);
                    ("finishReason", CLIServer.JString "STOP")]])])
  | _ => Throw "API key not valid. Please pass a valid API key."
  end.

End Sample.

(* ################################################################# *)
(** * Part II: properties of the model *)

(* ================================================================= *)
(** ** Path primitives and file classification *)

Section PathFacts.

Import JS NodePath FileType.
Local Open Scope string_scope.

(** The documented examples of [path.extname] and [path.basename]. *)
Example extname_examples :
  extname "index.html" = ".html" /\ extname "index.coffee.md" = ".md" /\
  extname "index." = "." /\ extname "index" = "" /\
  extname ".index" = "" /\ extname ".index.md" = ".md" /\
  extname ".." = "" /\ extname "/a.b/c" = "" /\ extname "/a/c.d//" = ".d".
Proof. repeat split; reflexivity. Qed.

Example basename_examples :
  basename "/foo/bar/baz/asdf/quux.html" = "quux.html" /\
  basename "/" = "" /\ basename "a/b/" = "b".
Proof. repeat split; reflexivity. Qed.

Lemma toLowerCase_of_list (l : list ascii) :
  toLowerCase (string_of_list_ascii l) = string_of_list_ascii (map lowerChar l).
Proof. induction l as [|c l IH]; simpl; [reflexivity | now rewrite IH]. Qed.

Lemma isDot_lowerChar (c : ascii) : isDot (lowerChar c) = isDot c.
Proof. destruct c as [[] [] [] [] [] [] [] []]; reflexivity. Qed.

Lemma takeWhile_notDot_lower (r : list ascii) :
  takeWhile (fun c => negb (isDot c)) (map lowerChar r)
  = map lowerChar (takeWhile (fun c => negb (isDot c)) r).
Proof.
  induction r as [|c r IH]; simpl; [reflexivity|].
  rewrite isDot_lowerChar. destruct (isDot c); simpl; [reflexivity | now rewrite IH].
Qed.

Lemma dropWhile_notDot_lower (r : list ascii) :
  dropWhile (fun c => negb (isDot c)) (map lowerChar r)
  = map lowerChar (dropWhile (fun c => negb (isDot c)) r).
Proof.
  induction r as [|c r IH]; simpl; [reflexivity|].
  rewrite isDot_lowerChar. destruct (isDot c); simpl; [reflexivity | exact IH].
Qed.

(** Lower-casing commutes with taking the extension: a dot stays a dot
    and no other character becomes one. *)
Lemma extOfRev_lower (r : list ascii) :
  extOfRev (map lowerChar r) = map lowerChar (extOfRev r).
Proof.
  unfold extOfRev.
  rewrite takeWhile_notDot_lower, dropWhile_notDot_lower.
  destruct (dropWhile (fun c => negb (isDot c)) r) as [|d [|b before]]; simpl;
    try reflexivity.
  destruct (takeWhile (fun c => negb (isDot c)) r) as [|e es]; simpl.
  - destruct before as [|b' before']; simpl.
    + rewrite isDot_lowerChar. destruct (isDot b); reflexivity.
    + reflexivity.
  - rewrite map_app, map_rev. simpl. reflexivity.
Qed.

(** The extension [getFileType] tests is determined by the base name it
    tests. *)
Lemma lower_extname_of_basename (p : string) :
  toLowerCase (extname p)
  = string_of_list_ascii
      (extOfRev (rev (list_ascii_of_string (toLowerCase (basename p))))).
Proof.
  unfold extname, basename.
  rewrite !toLowerCase_of_list, list_ascii_of_string_of_list_ascii.
  rewrite <- map_rev, rev_involutive, extOfRev_lower. reflexivity.
Qed.

(** Two paths with the same lower-cased base name are classified alike. *)
Lemma getFileType_by_basename (p q : string) :
  toLowerCase (basename p) = toLowerCase (basename q) ->
  getFileType p = getFileType q.
Proof.
  intros H. unfold getFileType.
  rewrite !lower_extname_of_basename, H. reflexivity.
Qed.

Lemma includes_singleton (x y : string) :
  includes [x] y = true -> y = x.
Proof.
  unfold includes. simpl. rewrite orb_false_r. apply String.eqb_eq.
Qed.

(** The rows of the base-name table that the code does reach. *)
Lemma getFileType_dockerfile (p : string) :
  toLowerCase (basename p) = "dockerfile" -> getFileType p = "docker".
Proof. intros H. now rewrite (getFileType_by_basename p "dockerfile"). Qed.

Lemma getFileType_env (p : string) :
  toLowerCase (basename p) = ".env" -> getFileType p = "environment".
Proof. intros H. now rewrite (getFileType_by_basename p ".env"). Qed.

Lemma getFileType_env_example (p : string) :
  toLowerCase (basename p) = ".env.example" -> getFileType p = "environment".
Proof. intros H. now rewrite (getFileType_by_basename p ".env.example"). Qed.

Lemma getFileType_makefile (p : string) :
  toLowerCase (basename p) = "makefile" -> getFileType p = "makefile".
Proof. intros H. now rewrite (getFileType_by_basename p "makefile"). Qed.

(** A base name of [package.json] has the extension [.json], which the
    table of extensions answers first. *)
Lemma getFileType_basename_package_json (p : string) :
  toLowerCase (basename p) = "package.json" -> getFileType p = "json".
Proof. intros H. now rewrite (getFileType_by_basename p "package.json"). Qed.

Example getFileType_table_samples :
  getFileType "src/app.py" = "python" /\ getFileType "Dockerfile" = "docker" /\
  getFileType ".env" = "environment" /\ getFileType "README.md" = "markdown" /\
  getFileType "unknown.xyz" = "unknown" /\ getFileType "deploy/.env.example" = "environment" /\
  getFileType "Makefile" = "makefile" /\ getFileType "run.sh" = "bash".
Proof. repeat split; reflexivity. Qed.

(** C6 (the code departs from the claim).  The claim has a file whose
    base name is [package.json] classified [package-config].  In the code
    the test on the extension [.json] comes before the test on the base
    name, so [package.json] is classified [json], at the root of a
    repository as in a sub-directory, and no path at all is classified
    [package-config]. *)
Theorem getFileType_package_json_is_json :
  getFileType "package.json" = "json" /\
  getFileType "/frontend/package.json" = "json" /\
  forall p : string, String.eqb (getFileType p) "package-config" = false.
Proof.
  split; [reflexivity | split; [reflexivity |]].
  intros p.
  destruct (includes ["package.json"] (toLowerCase (basename p))) eqn:Hb.
  - apply includes_singleton in Hb.
    now rewrite (getFileType_basename_package_json p Hb).
  - unfold getFileType. rewrite Hb.
    repeat match goal with
           | |- context [if ?c then _ else _] => destruct c
           end; reflexivity.
Qed.

End PathFacts.

(* ================================================================= *)
(** ** The security score *)

Section SecurityScore.

Import JS AnalyticsService.
Local Open Scope string_scope.
Local Open Scope Z_scope.

Lemma calculateSecurityScore_spec (content : string) :
  calculateSecurityScore content = securityScoreSpec content.
Proof.
  unfold calculateSecurityScore, securityScoreSpec, deduction, vulnerabilities.
  cbn [fold_left pattern penalty].
  fold evalCall innerHTMLAssignment documentWrite sqlConcatenation passwordAssignment.
  destruct (matches evalCall content), (matches innerHTMLAssignment content),
    (matches documentWrite content), (matches sqlConcatenation content),
    (matches passwordAssignment content); reflexivity.
Qed.

(** In a run of [eval(x);] statements only the first pattern matches. *)
Lemma matches_eval_run (n : nat) :
  matches evalCall (repeatString "eval(x);" (S n)) = true.
Proof. reflexivity. Qed.

Lemma matches_other_eval_run (p : Pattern) (n : nat) :
  In p [innerHTMLAssignment; documentWrite; sqlConcatenation; passwordAssignment] ->
  matches p (repeatString "eval(x);" n) = false.
Proof.
  intros Hp. induction n as [|n IH]; simpl in Hp.
  - destruct Hp as [<-|[<-|[<-|[<-|[]]]]]; reflexivity.
  - destruct Hp as [<-|[<-|[<-|[<-|[]]]]]; simpl in *; exact IH.
Qed.

(** C7.  The security score is 100 less the penalty of every pattern that
    matches at least once (20, 15, 15, 10 and 5), floored at 0; it lies
    between 35 and 100; and any positive number of [eval(] calls costs the
    same 20: one call and five calls both score 80. *)
Theorem calculateSecurityScore_per_pattern :
  (forall content : string,
      calculateSecurityScore content
      = Z.max 0 (100 - (if matches evalCall content then 20 else 0)
                     - (if matches innerHTMLAssignment content then 15 else 0)
                     - (if matches documentWrite content then 15 else 0)
                     - (if matches sqlConcatenation content then 10 else 0)
                     - (if matches passwordAssignment content then 5 else 0))
      /\ 35 <= calculateSecurityScore content <= 100) /\
  (forall n : nat,
      calculateSecurityScore (repeatString "eval(x);" (S n)) = 80) /\
  calculateSecurityScore "const r = eval(input);" = 80 /\
  calculateSecurityScore "eval(a); eval (b); eval(c); eval(d); eval(e);" = 80 /\
  calculateSecurityScore "const total = a + b;" = 100.
Proof.
  split; [| split; [| repeat split; reflexivity]].
  - intros content. rewrite calculateSecurityScore_spec.
    unfold securityScoreSpec, deduction.
    split; [reflexivity|].
    destruct (matches evalCall content), (matches innerHTMLAssignment content),
      (matches documentWrite content), (matches sqlConcatenation content),
      (matches passwordAssignment content); simpl; lia.
  - intros n. rewrite calculateSecurityScore_spec.
    unfold securityScoreSpec, deduction.
    rewrite matches_eval_run.
    rewrite !matches_other_eval_run by (simpl; tauto).
    reflexivity.
Qed.

End SecurityScore.

(* ================================================================= *)
(** ** Cosine similarity *)

Section Cosine.

Import JS RAGService.
Local Open Scope float_scope.
Local Set Warnings "-inexact-float".

(** The loop keeps the three sums the specification names. *)
Lemma cosineLoop_sums (a : list float) :
  forall (b : list float) (dot na nb : float),
    List.length a = List.length b ->
    cosineLoop a b dot na nb
    = (fold_left (fun acc xy => acc + fst xy * snd xy) (combine a b) dot,
       fold_left (fun acc x => acc + x * x) a na,
       fold_left (fun acc x => acc + x * x) b nb).
Proof.
  induction a as [|x a IH]; intros [|y b] dot na nb Hlen; simpl in *;
    try discriminate; [reflexivity|].
  apply IH. now injection Hlen.
Qed.

(** C4.  [cosine] answers exactly -1 when a vector is absent or the
    lengths differ, and otherwise the dot product divided by the product
    of the norms plus 1e-8; on [1,0] against [1,0] that is 1 up to 1e-6,
    on [1,0] against [0,1] it is 0, and on vectors of unequal length it
    is -1. *)
Theorem cosine_formula :
  (forall b : Vector, cosine None b = -1) /\
  (forall a : Vector, cosine a None = -1) /\
  (forall a b : list float,
      cosine (Some a) (Some b)
      = if Nat.eqb (List.length a) (List.length b)
        then dotProduct a b / (norm a * norm b + 1e-8)
        else -1) /\
  approx (cosine (Some [1; 0]) (Some [1; 0])) 1 1e-6 = true /\
  approx (cosine (Some [1; 0]) (Some [0; 1])) 0 1e-6 = true /\
  cosine (Some [1; 0]) (Some [1; 0; 0]) = -1.
Proof.
  split; [reflexivity|].
  split; [intros [a|]; reflexivity|].
  split; [| repeat split; vm_compute; reflexivity].
  intros a b. unfold cosine, dotProduct, norm.
  destruct (Nat.eqb (List.length a) (List.length b)) eqn:Hlen; simpl; [|reflexivity].
  apply Nat.eqb_eq in Hlen.
  now rewrite (cosineLoop_sums a b _ _ _ Hlen).
Qed.

End Cosine.

(* ================================================================= *)
(** ** Commit ingestion *)

Section IngestCommit.

Import JS Effect RAGService.
Local Open Scope string_scope.

Variable env : Environment.

(** The body of the loop never throws: it leaves no entry for a skipped
    file and one entry, carrying the file's path, for any other. *)
Lemma ingestFile_entry (projectName : string) (metadata : Commit.Metadata)
      (file : Commit.File) (st : State) :
  exists (r : option FileResult) (st' : State),
    ingestFile env projectName metadata file st = (Ok r, st') /\
    if isSkipped env file then r = None
    else exists entry, r = Some entry /\ resultPath entry = Commit.path file.
Proof.
  unfold ingestFile, isSkipped, tryCatch, bind, nextTick, ret.
  destruct (isEmptyContent _) eqn:Hskip.
  - eexists _, _. split; reflexivity.
  - unfold ingestDocument, bind, nextTick, lift, run_insert, ret. simpl.
    destruct (embedText env _ _) as [v|e]; simpl;
      [destruct (insertError env _ _); simpl|];
      eexists _, _; (split; [reflexivity|]); eexists; split; reflexivity.
Qed.

(** A throw of the embedding adapter while a file is ingested becomes the
    error entry of that file; the loop body itself returns. *)
Lemma ingestFile_records_throw (projectName : string) (metadata : Commit.Metadata)
      (file : Commit.File) (st : State) (error : string) :
  isSkipped env file = false ->
  embedText env (S (S (tick st)))
    (cleanFileContent env (Commit.content file) (Commit.path file)
     ++ newline
     ++ stringifyMetadata env
          (buildFileMetadata projectName metadata file (now env (tick st))))
  = Throw error ->
  fst (ingestFile env projectName metadata file st)
  = Ok (Some (Failure (Commit.path file) error)).
Proof.
  unfold isSkipped. intros Hskip Hthrow.
  unfold ingestFile, tryCatch, bind, nextTick, ret. cbn [tick db].
  rewrite Hskip.
  unfold ingestDocument, bind, nextTick, lift, run_insert, ret. cbn [tick db].
  rewrite Hthrow. reflexivity.
Qed.

Lemma ingestFiles_entries (projectName : string) (metadata : Commit.Metadata)
      (files : list Commit.File) :
  forall (results : list FileResult) (st : State),
  exists (entries : list FileResult) (st' : State),
    ingestFiles env projectName metadata files results st
    = (Ok (results ++ entries)%list, st') /\
    map resultPath entries
    = map Commit.path (filter (fun f => negb (isSkipped env f)) files).
Proof.
  induction files as [|file rest IH]; intros results st; simpl.
  - exists [], st. rewrite app_nil_r. split; reflexivity.
  - unfold bind.
    destruct (ingestFile_entry projectName metadata file st) as (r & st1 & Hrun & Hr).
    rewrite Hrun.
    destruct (isSkipped env file); simpl.
    + subst r.
      destruct (IH results st1) as (entries & st' & Hrest & Hpaths).
      exists entries, st'. split; assumption.
    + destruct Hr as (entry & -> & Hpath).
      destruct (IH (results ++ [entry])%list st1) as (entries & st' & Hrest & Hpaths).
      exists (entry :: entries), st'. split.
      * rewrite Hrest, <- app_assoc. reflexivity.
      * simpl. now rewrite Hpath, Hpaths.
Qed.

Lemma success_or_error (results : list FileResult) :
  List.length (filter isSuccess results) + List.length (filter isError results)
  = List.length results.
Proof.
  induction results as [|[p d n|p e] results IH]; simpl; lia.
Qed.

Lemma filter_partition_length {A : Type} (f : A -> bool) (l : list A) :
  List.length (filter f l) + List.length (filter (fun x => negb (f x)) l) = List.length l.
Proof.
  induction l as [|x l IH]; simpl; [reflexivity|].
  destruct (f x); simpl; lia.
Qed.

(** A file whose cleaned content is the empty string is skipped. *)
Lemma empty_content_is_skipped (file : Commit.File) :
  cleanFileContent env (Commit.content file) (Commit.path file) = "" ->
  isSkipped env file = true.
Proof. unfold isSkipped. intros ->. reflexivity. Qed.

(* ----------------------------------------------------------------- *)
(** *** Payloads as the callers let them through *)











End IngestCommit.

Section IngestCommitSample.

Import Effect RAGService.
Local Open Scope string_scope.

(** A commit of three files: the first is stored, the second is blank and
    skipped, the embedding of the third fails.  The summary counts three
    files, one success and one failure. *)
Example ingestCommit_sample :
  fst (ingestCommit Sample.env Sample.commit {| db := []; tick := 0 |})
  = Ok {| Summary.project_name := "app";
          Summary.commit_metadata := Commit.metadata Sample.commit;
          Summary.total_files := 3;
          Summary.successful := 1;
          Summary.failed := 1;
          Summary.results :=
            [ Success "/src/a.js" "doc-1" 12;
              Failure "/src/c.js" "Ollama embedding failed" ] |}.
Proof. vm_compute. reflexivity. Qed.


End IngestCommitSample.

(* ================================================================= *)
(** ** No operation deletes a document row *)

Section NoDeletion.

Import JS Effect RAGService.

Variable env : Environment.

Lemma extends_refl (st : State) : extends st st.
Proof. exists []. now rewrite app_nil_r. Qed.

Lemma extends_trans (st1 st2 st3 : State) :
  extends st1 st2 -> extends st2 st3 -> extends st1 st3.
Proof.
  intros [a Ha] [b Hb]. exists (a ++ b)%list.
  now rewrite Hb, Ha, app_assoc.
Qed.

Lemma monotone_ret {A : Type} (a : A) : monotone (ret a).
Proof. intros st. apply extends_refl. Qed.

Lemma monotone_lift {A : Type} (r : Result A) : monotone (lift r).
Proof. intros st. apply extends_refl. Qed.

Lemma monotone_nextTick : monotone nextTick.
Proof. intros st. exists []. simpl. now rewrite app_nil_r. Qed.

Lemma monotone_allDocs : monotone allDocs.
Proof. intros st. apply extends_refl. Qed.

Lemma monotone_bind {A B : Type} (c : M State A) (k : A -> M State B) :
  monotone c -> (forall a, monotone (k a)) -> monotone (bind c k).
Proof.
  intros Hc Hk st. unfold bind.
  specialize (Hc st). destruct (c st) as [[a|e] st1]; simpl in *.
  - eapply extends_trans; [exact Hc | apply Hk].
  - exact Hc.
Qed.

Lemma monotone_tryCatch {A : Type} (body : M State A) (handler : string -> M State A) :
  monotone body -> (forall e, monotone (handler e)) -> monotone (tryCatch body handler).
Proof.
  intros Hb Hh st. unfold tryCatch.
  specialize (Hb st). destruct (body st) as [[a|e] st1]; simpl in *.
  - exact Hb.
  - eapply extends_trans; [exact Hb | apply Hh].
Qed.

(** The upsert keeps every id in place: it overwrites the row that has
    the id, or appends a row. *)
Lemma ids_upsert (r : Row) (rows : list Row) :
  ids (upsert r rows)
  = (ids rows ++ (if existsb (fun x => String.eqb (id x) (id r)) rows then [] else [id r]))%list.
Proof.
  unfold ids. induction rows as [|x rows IH]; simpl; [reflexivity|].
  destruct (String.eqb (id x) (id r)) eqn:Hx; simpl.
  - apply String.eqb_eq in Hx. now rewrite app_nil_r, Hx.
  - now rewrite IH.
Qed.

Lemma monotone_run_insert (r : Row) : monotone (run_insert env r).
Proof.
  intros st. unfold run_insert.
  destruct (insertError env (tick st) r); simpl.
  - exists []. now rewrite app_nil_r.
  - eexists. apply ids_upsert.
Qed.

Create HintDb monotone.
Local Hint Resolve monotone_ret monotone_lift monotone_nextTick monotone_allDocs
  monotone_run_insert : monotone.

Ltac monotone_step :=
  first [ apply monotone_bind; [| intros ? ]
        | apply monotone_tryCatch; [| intros ? ]
        | solve [ auto with monotone ] ].

Lemma monotone_ingestDocument (text : string) (metadata : Metadata) :
  monotone (ingestDocument env text metadata).
Proof. unfold ingestDocument. repeat monotone_step. Qed.

Lemma monotone_ingestFile (projectName : string) (metadata : Commit.Metadata)
      (file : Commit.File) :
  monotone (ingestFile env projectName metadata file).
Proof.
  unfold ingestFile.
  apply monotone_tryCatch; [| intros e; apply monotone_ret].
  apply monotone_bind; [apply monotone_nextTick | intros t].
  destruct (isEmptyContent _); [apply monotone_ret |].
  apply monotone_bind; [apply monotone_ingestDocument | intros r; apply monotone_ret].
Qed.

Lemma monotone_ingestFiles (projectName : string) (metadata : Commit.Metadata)
      (files : list Commit.File) :
  forall results, monotone (ingestFiles env projectName metadata files results).
Proof.
  induction files as [|file rest IH]; intros results; simpl.
  - apply monotone_ret.
  - apply monotone_bind; [apply monotone_ingestFile | intros r; apply IH].
Qed.

Lemma monotone_ingestCommit (commitData : Commit.Data) :
  monotone (ingestCommit env commitData).
Proof.
  unfold ingestCommit.
  apply monotone_bind; [apply monotone_ingestFiles | intros r; apply monotone_ret].
Qed.

Lemma monotone_throw {A : Type} (error : string) : monotone (@throw State A error).
Proof. intros st. apply extends_refl. Qed.

Lemma monotone_ingestPayloadFiles (projectName : string) (metadata : Payload.MetadataValue)
      (files : list (option Payload.File)) :
  forall results, monotone (ingestPayloadFiles env projectName metadata files results).
Proof.
  induction files as [|[file|] rest IH]; intros results; simpl.
  - apply monotone_ret.
  - apply monotone_bind; [| intros r; apply IH].
    unfold ingestPayloadFile.
    apply monotone_tryCatch; [| intros e; apply monotone_ret].
    destruct metadata as [absent|m]; [apply monotone_throw|].
    apply monotone_bind; [apply monotone_nextTick | intros t].
    destruct (Payload.path file); [|apply monotone_throw].
    cbn zeta. destruct (isEmptyContent _); [apply monotone_ret |].
    apply monotone_bind; [apply monotone_ingestDocument | intros r; apply monotone_ret].
  - apply monotone_throw.
Qed.

Lemma monotone_ingestCommitPayload (commitData : Payload.Data) :
  monotone (ingestCommitPayload env commitData).
Proof.
  unfold ingestCommitPayload.
  apply monotone_bind; [apply monotone_ingestPayloadFiles | intros r; apply monotone_ret].
Qed.

Lemma monotone_searchAndGenerate (query : string) (k : option Z) (projectName : option string) :
  monotone (searchAndGenerate env query k projectName).
Proof. unfold searchAndGenerate. repeat monotone_step. Qed.

Lemma monotone_getProjects : monotone (getProjects env).
Proof. unfold getProjects. repeat monotone_step. Qed.

Lemma monotone_demoLoop (remaining : nat) :
  forall i results, monotone (demoLoop env remaining i results).
Proof.
  induction remaining as [|n IH]; intros i results; simpl.
  - apply monotone_ret.
  - apply monotone_bind; [apply monotone_nextTick | intros t].
    apply monotone_bind; [apply monotone_ingestDocument | intros r; apply IH].
Qed.

Lemma monotone_bulkIngestDemo (count : nat) : monotone (bulkIngestDemo env count).
Proof.
  unfold bulkIngestDemo.
  apply monotone_bind; [apply monotone_demoLoop | intros r; apply monotone_ret].
Qed.

Lemma perform_extends (op : Operation) (st : State) :
  extends st (perform env op st).
Proof.
  destruct op; simpl.
  - apply monotone_ingestDocument.
  - apply monotone_ingestCommit.
  - apply monotone_searchAndGenerate.
  - apply monotone_getProjects.
  - apply monotone_bulkIngestDemo.
  - apply monotone_ingestCommitPayload.
Qed.

(** The two read operations leave the table as it is. *)
Lemma reads_keep_db (st : State) :
  (forall query k projectName,
      db (perform env (SearchAndGenerate query k projectName) st) = db st) /\
  db (perform env GetProjects st) = db st.
Proof.
  split; [intros query k projectName|]; simpl.
  - unfold searchAndGenerate, bind, nextTick, lift, allDocs, ret. simpl.
    destruct (embedText env _ _); simpl; [|reflexivity].
    destruct (generateWithContext env _ _ _); reflexivity.
  - reflexivity.
Qed.

(** With identifiers that are new to the table, the rows themselves stay
    as they are. *)
Lemma upsert_keeps (base added : list Row) (r : Row) :
  ~ In (id r) (ids base) ->
  upsert r (base ++ added) = (base ++ upsert r added)%list.
Proof.
  induction base as [|x base IH]; simpl; intros Hfresh; [reflexivity|].
  destruct (String.eqb (id x) (id r)) eqn:Hx.
  - apply String.eqb_eq in Hx. exfalso. apply Hfresh. now left.
  - rewrite IH; [reflexivity|]. intros Hin. apply Hfresh. now right.
Qed.

Section Keeps.

Variable base : list Row.
Hypothesis Hfresh : freshIds env base.

Lemma keeps_ret {A : Type} (a : A) : keeps base (ret a).
Proof. intros st H. exact H. Qed.

Lemma keeps_lift {A : Type} (r : Result A) : keeps base (lift r).
Proof. intros st H. exact H. Qed.

Lemma keeps_nextTick : keeps base nextTick.
Proof. intros st H. exact H. Qed.

Lemma keeps_allDocs : keeps base allDocs.
Proof. intros st H. exact H. Qed.

Lemma keeps_bind {A B : Type} (c : M State A) (k : A -> M State B) :
  keeps base c -> (forall a, keeps base (k a)) -> keeps base (bind c k).
Proof.
  intros Hc Hk st H. unfold bind.
  specialize (Hc st H). destruct (c st) as [[a|e] st1]; simpl in *.
  - now apply Hk.
  - exact Hc.
Qed.

Lemma keeps_tryCatch {A : Type} (body : M State A) (handler : string -> M State A) :
  keeps base body -> (forall e, keeps base (handler e)) -> keeps base (tryCatch body handler).
Proof.
  intros Hb Hh st H. unfold tryCatch.
  specialize (Hb st H). destruct (body st) as [[a|e] st1]; simpl in *.
  - exact Hb.
  - now apply Hh.
Qed.

Lemma keeps_run_insert (r : Row) :
  ~ In (id r) (ids base) -> keeps base (run_insert env r).
Proof.
  intros Hr st [added H]. unfold run_insert.
  destruct (insertError env (tick st) r); simpl.
  - now exists added.
  - rewrite H. exists (upsert r added). now apply upsert_keeps.
Qed.

Lemma keeps_ingestDocument (text : string) (metadata : Metadata) :
  keeps base (ingestDocument env text metadata).
Proof.
  unfold ingestDocument.
  apply keeps_bind; [apply keeps_nextTick | intros t].
  apply keeps_bind; [apply keeps_nextTick | intros t'].
  apply keeps_bind; [apply keeps_lift | intros embedding].
  apply keeps_bind; [| intros _; apply keeps_ret].
  apply keeps_run_insert. simpl. apply Hfresh.
Qed.

Lemma keeps_ingestFiles (projectName : string) (metadata : Commit.Metadata)
      (files : list Commit.File) :
  forall results, keeps base (ingestFiles env projectName metadata files results).
Proof.
  induction files as [|file rest IH]; intros results; simpl.
  - apply keeps_ret.
  - apply keeps_bind; [| intros r; apply IH].
    unfold ingestFile.
    apply keeps_tryCatch; [| intros e; apply keeps_ret].
    apply keeps_bind; [apply keeps_nextTick | intros t].
    destruct (isEmptyContent _); [apply keeps_ret |].
    apply keeps_bind; [apply keeps_ingestDocument | intros r; apply keeps_ret].
Qed.

Lemma keeps_throw {A : Type} (error : string) : keeps base (@throw State A error).
Proof. intros st H. exact H. Qed.

Lemma keeps_ingestPayloadFiles (projectName : string) (metadata : Payload.MetadataValue)
      (files : list (option Payload.File)) :
  forall results, keeps base (ingestPayloadFiles env projectName metadata files results).
Proof.
  induction files as [|[file|] rest IH]; intros results; simpl.
  - apply keeps_ret.
  - apply keeps_bind; [| intros r; apply IH].
    unfold ingestPayloadFile.
    apply keeps_tryCatch; [| intros e; apply keeps_ret].
    destruct metadata as [absent|m]; [apply keeps_throw|].
    apply keeps_bind; [apply keeps_nextTick | intros t].
    destruct (Payload.path file); [|apply keeps_throw].
    cbn zeta. destruct (isEmptyContent _); [apply keeps_ret |].
    apply keeps_bind; [apply keeps_ingestDocument | intros r; apply keeps_ret].
  - apply keeps_throw.
Qed.

Lemma keeps_demoLoop (remaining : nat) :
  forall i results, keeps base (demoLoop env remaining i results).
Proof.
  induction remaining as [|n IH]; intros i results; simpl.
  - apply keeps_ret.
  - apply keeps_bind; [apply keeps_nextTick | intros t].
    apply keeps_bind; [apply keeps_ingestDocument | intros r; apply IH].
Qed.

Lemma perform_keeps (op : Operation) (st : State) :
  extendsRows base st -> extendsRows base (perform env op st).
Proof.
  intros H. destruct op; simpl.
  - now apply keeps_ingestDocument.
  - unfold ingestCommit.
    apply keeps_bind; [apply keeps_ingestFiles | intros r; apply keeps_ret | exact H].
  - destruct (reads_keep_db st) as [Hsearch _].
    specialize (Hsearch query k projectName). simpl in Hsearch.
    destruct H as [added H]. exists added. now rewrite Hsearch.
  - exact H.
  - unfold bulkIngestDemo.
    apply keeps_bind; [apply keeps_demoLoop | intros r; apply keeps_ret | exact H].
  - unfold ingestCommitPayload.
    apply keeps_bind; [apply keeps_ingestPayloadFiles | intros r; apply keeps_ret | exact H].
Qed.

Lemma performAll_keeps (ops : list Operation) :
  forall st, extendsRows base st -> extendsRows base (performAll env ops st).
Proof.
  unfold performAll. induction ops as [|op ops IH]; intros st H; simpl.
  - exact H.
  - apply IH, perform_keeps, H.
Qed.

End Keeps.

(** C10.  Whatever sequence of [ingestDocument], [ingestCommit],
    [searchAndGenerate], [getProjects] and [bulkIngestDemo] calls runs,
    and however each call completes, the ids of the rows of the table
    before are the ids of the first rows of the table after, in the same
    order: every row that exists before still exists after, and the
    number of rows never decreases.  When no identifier generated for a new
    document is the id of a row of the table before, these rows are
    moreover unchanged: the table after is the table before followed by
    new rows. *)
Theorem no_operation_deletes_a_row (ops : list Operation) (st : State) :
  (exists added : list string,
      ids (db (performAll env ops st)) = (ids (db st) ++ added)%list) /\
  List.length (db st) <= List.length (db (performAll env ops st)) /\
  (freshIds env (db st) ->
   exists added : list Row, db (performAll env ops st) = (db st ++ added)%list).
Proof.
  assert (H : extends st (performAll env ops st)).
  { unfold performAll. revert st.
    induction ops as [|op ops IH]; intros st; simpl.
    - apply extends_refl.
    - eapply extends_trans; [apply perform_extends | apply IH]. }
  split; [exact H|]. split.
  - destruct H as [added H].
    apply (f_equal (@List.length string)) in H.
    unfold ids in H. rewrite length_app, !length_map in H. lia.
  - intros Hfresh. apply (performAll_keeps Hfresh).
    exists []. now rewrite app_nil_r.
Qed.

End NoDeletion.

Section NoDeletionSample.

Import Effect RAGService.
Local Open Scope string_scope.

(** In the sample world the generated identifiers start with [doc-] and
    the stored ids with [seed-]: a commit, a search and a demo ingestion
    leave the three stored rows in place, unchanged. *)
Lemma no_operation_deletes_a_row_witness :
  exists added : list Row,
    db (performAll Sample.env
          [IngestCommit Sample.commit;
           SearchAndGenerate "where is the parser?" (Some 2%Z) None;
           BulkIngestDemo 2] Sample.st)
    = (db Sample.st ++ added)%list.
Proof.
  apply (no_operation_deletes_a_row Sample.env
           [IngestCommit Sample.commit;
            SearchAndGenerate "where is the parser?" (Some 2%Z) None;
            BulkIngestDemo 2] Sample.st).
  intros t. simpl. intros [H|[H|[H|[]]]]; discriminate H.
Defined.

End NoDeletionSample.

(* ================================================================= *)
(** ** The order of binary64 numbers *)

Section FloatOrder.

Lemma SFcompare_antisym (x y : spec_float) (c : comparison) :
  SFcompare x y = Some c -> SFcompare y x = Some (CompOpp c).
Proof.
  destruct x as [sx|sx| |sx mx ex], y as [sy|sy| |sy my ey]; simpl;
    try discriminate;
    try (destruct sx); try (destruct sy); simpl;
    intros H; injection H as <-; try reflexivity.
  all: change (Pos.compare_cont Eq) with Pos.compare;
    rewrite (Z.compare_antisym ex ey), (Pos.compare_antisym mx my);
    destruct (ex ?= ey)%Z; simpl; try reflexivity;
    destruct (mx ?= my)%positive; reflexivity.
Qed.

Lemma SFcompare_none (x y : spec_float) :
  SFcompare x y = None -> SFeqb x x = false \/ SFeqb y y = false.
Proof.
  destruct x as [sx|sx| |sx mx ex], y as [sy|sy| |sy my ey]; simpl;
    try discriminate; try (destruct sx); try (destruct sy); try discriminate; auto.
Qed.

Lemma SFleb_trans (x y z : spec_float) :
  SFleb x y = true -> SFleb y z = true -> SFleb x z = true.
Proof.
  unfold SFleb.
  destruct x as [sx|sx| |sx mx ex], y as [sy|sy| |sy my ey], z as [sz|sz| |sz mz ez];
    simpl; try discriminate; try reflexivity;
    try (destruct sx); try (destruct sy); try (destruct sz);
    simpl; try discriminate; try reflexivity;
    change (Pos.compare_cont Eq) with Pos.compare;
    destruct (Z.compare_spec ex ey); simpl; try discriminate;
    destruct (Z.compare_spec ey ez); simpl; try discriminate;
    destruct (Z.compare_spec ex ez); simpl; try reflexivity; try lia;
    destruct (Pos.compare_spec mx my); simpl; try discriminate;
    destruct (Pos.compare_spec my mz); simpl; try discriminate;
    destruct (Pos.compare_spec mx mz); simpl; try reflexivity; try lia.
Qed.

Local Open Scope float_scope.

Lemma ltb_leb (x y : float) : (x <? y) = true -> (x <=? y) = true.
Proof.
  rewrite ltb_spec, leb_spec. unfold SFltb, SFleb.
  destruct (SFcompare _ _) as [[]|]; congruence.
Qed.

Lemma leb_total (x y : float) :
  (x =? x) = true -> (y =? y) = true -> (x <? y) = false -> (y <=? x) = true.
Proof.
  rewrite !eqb_spec, ltb_spec, leb_spec. unfold SFltb, SFleb.
  intros Hx Hy.
  destruct (SFcompare (Prim2SF x) (Prim2SF y)) as [c|] eqn:Hc.
  - rewrite (@SFcompare_antisym _ _ _ Hc). destruct c; simpl; congruence.
  - destruct (@SFcompare_none _ _ Hc); congruence.
Qed.





Lemma leb_trans (x y z : float) :
  (x <=? y) = true -> (y <=? z) = true -> (x <=? z) = true.
Proof. rewrite !leb_spec. apply SFleb_trans. Qed.

End FloatOrder.

(* ================================================================= *)
(** ** Search: ranking and the top [k] *)

Section Search.

Import JS Effect RAGService.
Local Open Scope float_scope.
Local Set Warnings "-inexact-float".

Local Abbreviation score := Scored.score.

Lemma insertBy_perm {A : Type} (cmp : A -> A -> float) (x : A) (l : list A) :
  Permutation (insertBy cmp x l) (x :: l).
Proof.
  induction l as [|y l IH]; simpl; [reflexivity|].
  destruct (0 <? cmp x y); [|reflexivity].
  rewrite IH. apply perm_swap.
Qed.

Lemma sortBy_perm {A : Type} (cmp : A -> A -> float) (l : list A) :
  Permutation (sortBy cmp l) l.
Proof.
  induction l as [|x l IH]; simpl; [reflexivity|].
  rewrite insertBy_perm. now constructor.
Qed.

Lemma wellOrdered_of_checks (l : list Scored.t) :
  comparatorAgrees (map score l) = true ->
  noNaN (map score l) = true ->
  wellOrdered l.
Proof.
  unfold comparatorAgrees, noNaN. rewrite !forallb_forall.
  intros Hagree Hnan. split.
  - intros a Ha. apply Hnan. now apply in_map.
  - intros a b Ha Hb. unfold byScoreDescending.
    specialize (Hagree (score a) (in_map score _ _ Ha)).
    rewrite forallb_forall in Hagree.
    specialize (Hagree (score b) (in_map score _ _ Hb)).
    now apply Bool.eqb_prop in Hagree.
Qed.

Lemma wellOrdered_incl (l l' : list Scored.t) :
  incl l' l -> wellOrdered l -> wellOrdered l'.
Proof.
  intros Hi [Hn Ha]. split.
  - intros a Hin. apply Hn, Hi, Hin.
  - intros a b Hina Hinb. apply Ha; apply Hi; assumption.
Qed.

Lemma insertBy_descending (x : Scored.t) (l : list Scored.t) :
  wellOrdered (x :: l) -> descending l ->
  descending (insertBy byScoreDescending x l).
Proof.
  unfold descending.
  induction l as [|y l IH]; intros Hwo Hsorted; simpl.
  - constructor; constructor.
  - destruct Hwo as [Hnan Hagree].
    inversion Hsorted as [|? ? Hl Hy]; subst.
    rewrite (Hagree x y) by (simpl; auto).
    destruct (score x <? score y) eqn:Hxy.
    + constructor.
      * apply IH; [|exact Hl].
        apply wellOrdered_incl with (l := x :: y :: l); [|split; assumption].
        intros a [<-|Ha]; simpl; auto.
      * eapply Permutation_Forall; [symmetry; apply insertBy_perm|].
        constructor; [now apply ltb_leb | exact Hy].
    + assert (Hyx : (score y <=? score x) = true).
      { apply leb_total; [apply Hnan | apply Hnan | exact Hxy]; simpl; auto. }
      constructor; [exact Hsorted|].
      constructor; [exact Hyx|].
      eapply Forall_impl; [|exact Hy].
      intros z Hz. simpl in Hz. exact (leb_trans Hz Hyx).
Qed.

Lemma sortBy_descending (l : list Scored.t) :
  wellOrdered l -> descending (sortBy byScoreDescending l).
Proof.
  induction l as [|x l IH]; intros Hwo; simpl.
  - constructor.
  - apply insertBy_descending.
    + apply wellOrdered_incl with (l := x :: l); [|exact Hwo].
      intros a [<-|Ha]; [now left | right].
      eapply Permutation_in; [apply sortBy_perm | exact Ha].
    + apply IH. apply wellOrdered_incl with (l := x :: l); [|exact Hwo].
      intros a Ha. now right.
Qed.

Lemma descending_app (l1 l2 : list Scored.t) :
  descending (l1 ++ l2) ->
  forall a b, In a l1 -> In b l2 -> (score b <=? score a) = true.
Proof.
  unfold descending. induction l1 as [|x l1 IH]; simpl; intros Hs a b Ha Hb; [contradiction|].
  inversion Hs as [|? ? Hrest Hx]; subst.
  destruct Ha as [<-|Ha].
  - rewrite Forall_forall in Hx. apply Hx. apply in_or_app. now right.
  - now apply (IH Hrest).
Qed.

(** C5.  When the query embeds and the generation adapter answers, a
    search with a count [k >= 0] scores every stored document of the
    searched project (every stored document without a project) by the
    cosine of the query embedding and its own, and returns, as [sources],
    the first [k] hits of the ranked list, one source per hit and in that
    order, with the stored text as preview.  The ranked list is a
    rearrangement of all the scored documents in descending order of
    score, so the hits returned score at least as high as every hit left
    out, and their number is [k], or the number of documents when there
    are fewer: no score is too low to be returned.  The scores are taken
    to be numbers (no NaN) that the comparator [b.score - a.score] orders
    as [<] does. *)
Theorem searchAndGenerate_top_k
        (env : Environment) (st : State) (query : string) (k : Z)
        (projectName : option string) (queryEmbedding : Vector) (answer : string) :
  let docs :=
    if truthy projectName
    then filter (fun d => optionEqb (Meta.project_name (metadata d)) projectName) (db st)
    else db st in
  let scored :=
    map (fun d => {| Scored.doc := d;
                     Scored.score := cosine queryEmbedding (embedding d) |}) docs in
  let ranked := sortBy byScoreDescending scored in
  let top := firstn (Z.to_nat k) ranked in
  (0 <= k)%Z ->
  comparatorAgrees (map score scored) = true ->
  noNaN (map score scored) = true ->
  embedText env (tick st) query = Ok queryEmbedding ->
  generateWithContext env (S (tick st)) (systemPrompt)
    (userPrompt query (buildContext env top)) = Ok answer ->
  exists st' : State,
    searchAndGenerate env query (Some k) projectName st
    = (Ok {| SearchResult.query := query;
             SearchResult.answer := answer;
             SearchResult.project := projectName;
             SearchResult.sources :=
               map (fun hit =>
                      {| Source.file_path := Meta.file_path (metadata (Scored.doc hit));
                         Source.author := Meta.author (metadata (Scored.doc hit));
                         Source.commit_message :=
                           Meta.commit_message (metadata (Scored.doc hit));
                         Source.commit_date := Meta.commit_date (metadata (Scored.doc hit));
                         Source.relevance_score :=
                           (toFixed1 env (score hit * 100) ++ "%")%string;
                         Source.preview := text (Scored.doc hit) |}) top |}, st') /\
    db st' = db st /\
    Permutation ranked scored /\
    descending ranked /\
    List.length top = Nat.min (Z.to_nat k) (List.length docs) /\
    (forall a b, In a top -> In b (skipn (Z.to_nat k) ranked) ->
                 (score b <=? score a) = true).
Proof.
  intros docs scored ranked top Hk Hagree Hnan Hembed Hgen.
  assert (Hslice : slice0 k ranked = top).
  { unfold slice0. destruct (k <? 0)%Z eqn:Hneg; [|reflexivity].
    apply Z.ltb_lt in Hneg. lia. }
  assert (Hperm : Permutation ranked scored) by apply sortBy_perm.
  assert (Hdesc : descending ranked).
  { apply sortBy_descending, wellOrdered_of_checks; assumption. }
  exists {| db := db st; tick := S (S (tick st)) |}.
  split; [| split; [reflexivity | split; [exact Hperm | split; [exact Hdesc | split]]]].
  - unfold searchAndGenerate, bind, nextTick, lift, allDocs, ret. simpl.
    rewrite Hembed. simpl.
    change (scoreDocs queryEmbedding (searchedDocs projectName (db st))) with scored.
    fold ranked. rewrite Hslice, Hgen. reflexivity.
  - unfold top. rewrite length_firstn.
    rewrite (Permutation_length Hperm). unfold scored. now rewrite length_map.
  - apply descending_app. unfold top. now rewrite firstn_skipn.
Qed.

(** The three documents of [Sample.st] score about 0.5, 0.9 and 0.1
    against the query; a search with [k = 2] returns the second and the
    first, in that order. *)
Lemma searchAndGenerate_top_k_witness :
  let scored :=
    map (fun d => {| Scored.doc := d;
                     Scored.score := cosine (Some [1; 0]) (embedding d) |}) (db Sample.st) in
  let ranked := sortBy byScoreDescending scored in
  map (fun hit => id (Scored.doc hit)) ranked = ["seed-b"; "seed-a"; "seed-c"]%string /\
  exists st' : State,
    option_map (fun result => map Source.preview (SearchResult.sources result))
      (match fst (searchAndGenerate Sample.env "where is the parser?" (Some 2%Z) None
                    Sample.st) with
       | Ok result => Some result
       | Throw _ => None
       end)
    = Some ["high"; "mid"]%string /\
    db st' = db Sample.st /\
    Permutation ranked scored /\
    descending ranked /\
    List.length (firstn 2 ranked) = 2%nat /\
    (forall a b, In a (firstn 2 ranked) -> In b (skipn 2 ranked) ->
                 (score b <=? score a) = true).
Proof.
  intros scored ranked. split; [vm_compute; reflexivity|].
  destruct (@searchAndGenerate_top_k Sample.env Sample.st "where is the parser?" 2%Z
              None (Some [1; 0]) "The parser lives in src/high.js.")
    as (st' & Hrun & Hdb & Hperm & Hdesc & Hlen & Htop).
  - lia.
  - vm_compute. reflexivity.
  - vm_compute. reflexivity.
  - reflexivity.
  - reflexivity.
  - exists st'. split; [rewrite Hrun; vm_compute; reflexivity|].
    split; [exact Hdb|]. split; [exact Hperm|]. split; [exact Hdesc|].
    split; [exact Hlen | exact Htop].
Defined.

(** Two stored documents with finite embeddings, one query.  The score
    of the first document is NaN, the score of the second about 0.9.
    The comparator answers NaN for the pair, which the sort takes for
    "equal": the two documents stay in the order of their insertion.  A
    search with [k = 1] returns the document whose score is NaN and
    leaves the one with score 0.9 out; on the same two documents stored
    in the other order it returns the other document.  With [k = 2] the
    scores of the sources are NaN and 0.9, which is no descending
    order. *)
Lemma searchAndGenerate_keeps_nan_in_place :
  let queryEmbedding := Some [1e150; 0] in
  let previews (k : Z) (rows : list Row) :=
    match fst (searchAndGenerate Sample.overflowEnv "where is the parser?" (Some k) None
                 {| db := rows; tick := 0 |}) with
    | Ok result => Some (map Source.preview (SearchResult.sources result))
    | Throw _ => None
    end in
  is_nan (cosine queryEmbedding (embedding Sample.overflowRow)) = true /\
  (0.89 <? cosine queryEmbedding (embedding Sample.highRow)) = true /\
  previews 1%Z [Sample.overflowRow; Sample.highRow] = Some ["overflow"]%string /\
  previews 1%Z [Sample.highRow; Sample.overflowRow] = Some ["high"]%string /\
  previews 2%Z [Sample.overflowRow; Sample.highRow] = Some ["overflow"; "high"]%string /\
  (cosine queryEmbedding (embedding Sample.highRow)
   <=? cosine queryEmbedding (embedding Sample.overflowRow)) = false.
Proof. vm_compute. repeat split. Qed.

(** The ranking of the sample store, by document id. *)
Example sample_ranking :
  map (fun hit => id (Scored.doc hit))
      (sortBy byScoreDescending (scoreDocs (Some [1; 0]) (db Sample.st)))
  = ["seed-b"; "seed-a"; "seed-c"]%string.
Proof. vm_compute. reflexivity. Qed.

End Search.

(* ================================================================= *)
(** ** The model manager: the configuration view *)

Section ConfigView.

Import JS ModelManager.
Local Open Scope string_scope.

Lemma length_substring_le (n m : nat) (s : string) :
  String.length (substring n m s) <= m.
Proof.
  revert n m. induction s as [|c s IH]; intros [|n] [|m]; simpl; try lia.
  - specialize (IH 0 m). lia.
  - apply (IH n 0).
  - apply (IH n (S m)).
Qed.

Lemma length_append (s t : string) :
  String.length (s ++ t) = String.length s + String.length t.
Proof. induction s as [|c s IH]; simpl; [reflexivity | now rewrite IH]. Qed.

Lemma length_mask_le (key : string) : String.length (mask key) <= 15.
Proof.
  unfold mask. destruct (12 <? String.length key)%nat.
  - rewrite !length_append. simpl.
    pose proof (length_substring_le 0 8 key).
    pose proof (length_substring_le (String.length key - 4) 4 key). lia.
  - rewrite length_append. simpl.
    pose proof (length_substring_le 0 4 key). lia.
Qed.

Lemma getMaskedApiKey_maskedOf (c : Config) :
  getMaskedApiKey c "gemini" = maskedOf (geminiApiKey c) /\
  getMaskedApiKey c "huggingface" = maskedOf (huggingfaceApiKey c) /\
  getMaskedApiKey c "openai" = maskedOf (openaiApiKey c).
Proof. repeat split; reflexivity. Qed.

(** C1, as the code has it.  [getConfig] returns the stored configuration
    as it is, the three key fields with the stored keys included, together
    with [maskedKeys], which holds for each of the three key fields its
    masked value (absent for an absent or empty key, otherwise at most 15
    characters: the first 8, an ellipsis and the last 4 of a key longer
    than 12, the first 4 and an ellipsis of a shorter one), and
    [configured], which holds [true] for [ollama] and for [gemini] whether
    a key is stored. *)
Theorem getConfig_returns_config_and_masks (st : State) :
  spread (getConfig st) = config st /\
  rawKeyFields (getConfig st)
  = [geminiApiKey (config st); huggingfaceApiKey (config st); openaiApiKey (config st)] /\
  MaskedKeys.gemini (maskedKeys (getConfig st)) = maskedOf (geminiApiKey (config st)) /\
  MaskedKeys.huggingface (maskedKeys (getConfig st)) = maskedOf (huggingfaceApiKey (config st)) /\
  MaskedKeys.openai (maskedKeys (getConfig st)) = maskedOf (openaiApiKey (config st)) /\
  Configured.ollama (configured (getConfig st)) = true /\
  Configured.gemini (configured (getConfig st)) = truthy (geminiApiKey (config st)) /\
  (forall key : string,
      String.length (mask key) <= 15 /\
      mask key
      = if (12 <? String.length key)%nat
        then substring 0 8 key ++ "..." ++ substring (String.length key - 4) 4 key
        else substring 0 4 key ++ "...") /\
  mask "AIzaSyA1234567890abc" = "AIzaSyA1...0abc" /\
  mask "12345678" = "1234...".
Proof.
  repeat split; try reflexivity. apply length_mask_le.
Qed.

(** C1 as claimed does not hold: with a key stored, the object that
    [getConfig] returns carries the key itself in [geminiApiKey], next to
    its masked form. *)
Lemma getConfig_exposes_raw_key :
  hidesRawKeys (getConfig Sample.managerWithKey) = false /\
  geminiApiKey (spread (getConfig Sample.managerWithKey)) = Some "AIzaSyA1234567890abcdef" /\
  MaskedKeys.gemini (maskedKeys (getConfig Sample.managerWithKey)) = Some "AIzaSyA1...cdef".
Proof. repeat split; reflexivity. Qed.

End ConfigView.

(* ================================================================= *)
(** ** The model manager: switching providers *)

Section ProviderSwitch.

Import JS Effect ModelManager.
Local Open Scope string_scope.

Variable env : Environment.

Ltac run :=
  unfold saveConfig, geminiInitialize, embeddingInitialize, initializeEmbedding,
    bind, ret, throw, lift, tryCatch, nextTick, getConfigObject, setConfigObject,
    writeFile, setLLMService, setEmbeddingService; simpl.

(** More nesting than two calls changes nothing. *)
Lemma initializeLLM_depth_enough (depth : nat) (st : State) :
  initializeLLMWithin env (S (S depth)) st = initializeLLM env st.
Proof.
  unfold initializeLLM. simpl. run.
  destruct (String.eqb (llmProvider (config st)) "ollama"); [reflexivity|].
  destruct (String.eqb (llmProvider (config st)) "gemini"); [|reflexivity].
  destruct (truthy (geminiApiKey (config st))); simpl; [reflexivity|].
  destruct (writeFileSync env _); simpl; destruct depth; reflexivity.
Qed.

(** What [initializeLLM] does to the configuration: it keeps every setting
    but the provider and the time stamp, keeps the file in step with the
    memory when every write succeeds, and touches neither unless the
    provider is a [gemini] without a key. *)
Lemma initializeLLM_effect (st : State) :
  (forall t, writeFileSync env t = true) ->
  sameSettings (config st) (config (snd (initializeLLM env st))) /\
  (synced st -> synced (snd (initializeLLM env st))) /\
  ((llmProvider (config st) = "gemini" -> truthy (geminiApiKey (config st)) = true) ->
   config (snd (initializeLLM env st)) = config st /\
   file (snd (initializeLLM env st)) = file st).
Proof.
  intros Hwrite. unfold initializeLLM, synced, sameSettings. simpl. run.
  destruct (String.eqb (llmProvider (config st)) "ollama") eqn:Ho; simpl.
  { repeat split; auto. }
  destruct (String.eqb (llmProvider (config st)) "gemini") eqn:Hg; simpl.
  2: { repeat split; auto. }
  apply String.eqb_eq in Hg.
  destruct (truthy (geminiApiKey (config st))) eqn:Hk; simpl.
  - destruct (geminiApiKey (config st)) as [key|] eqn:Hkey; [|discriminate].
    simpl in Hk. rewrite Hk. simpl.
    destruct (geminiTestConnection env _ _); simpl; repeat split; auto.
  - rewrite Hwrite. simpl.
    split; [repeat split; auto|].
    split; [intros _; reflexivity|].
    intros Hx. specialize (Hx Hg). discriminate.
Qed.

Lemma saveConfig_run (st : State) :
  (forall t, writeFileSync env t = true) ->
  saveConfig env st
  = (Ok tt,
     {| config := withLastUpdated (now env (tick st)) (config st);
        file := Some (withLastUpdated (now env (tick st)) (config st));
        llmService := llmService st;
        embeddingService := embeddingService st;
        tick := S (S (tick st)) |}).
Proof. intros Hwrite. run. now rewrite Hwrite. Qed.

Lemma beginSwitch_run (provider : string) (options : Options.t) (st : State) :
  (forall t, writeFileSync env t = true) ->
  exists st1 : State,
    beginSwitch env provider options st = (Ok (llmProvider (config st)), st1) /\
    synced st1 /\
    llmProvider (config st1) = provider /\
    geminiApiKey (config st1) = keyAfterSwitch provider options (config st) /\
    ollamaModel (config st1) = modelAfterSwitch provider options (config st) /\
    embeddingProvider (config st1) = embeddingProvider (config st) /\
    huggingfaceApiKey (config st1) = huggingfaceApiKey (config st) /\
    openaiApiKey (config st1) = openaiApiKey (config st) /\
    version (config st1) = version (config st).
Proof.
  intros Hwrite. unfold beginSwitch, keyAfterSwitch, modelAfterSwitch.
  unfold bind at 1. unfold getConfigObject at 1.
  unfold bind at 1. unfold setConfigObject at 1.
  unfold bind at 1. rewrite saveConfig_run by exact Hwrite.
  unfold ret. eexists. split; [reflexivity|]. unfold synced. simpl.
  destruct (Options.model options) as [model|]; simpl;
    repeat match goal with
           | |- context [if ?c then _ else _] => destruct c; simpl
           end;
    repeat split; reflexivity.
Qed.

Lemma rollback_run (previousProvider : string) (st : State) :
  (forall t, writeFileSync env t = true) ->
  exists st3 : State,
    rollback env previousProvider st = (Ok tt, st3) /\
    synced st3 /\
    llmProvider (config st3) = previousProvider /\
    sameSettings (config st) (config st3).
Proof.
  intros Hwrite. unfold rollback.
  unfold bind at 1. unfold getConfigObject at 1.
  unfold bind at 1. unfold setConfigObject at 1.
  rewrite saveConfig_run by exact Hwrite.
  eexists. split; [reflexivity|]. unfold synced, sameSettings. simpl.
  repeat split; reflexivity.
Qed.

Lemma keyAfterSwitch_truthy (provider : string) (options : Options.t) (c : Config) :
  truthy (geminiApiKey c) = true -> truthy (keyAfterSwitch provider options c) = true.
Proof.
  unfold keyAfterSwitch. intros Hk.
  destruct (String.eqb provider "gemini"); simpl; [|exact Hk].
  destruct (truthy (Options.apiKey options)) eqn:Ho; [exact Ho | exact Hk].
Qed.

(** C2, as the code has it.  Let the current provider be one that
    initializes (ollama, or gemini with a stored key) and let every write of
    the configuration file succeed.  When [setLLMProvider] fails in the
    initialization of the new provider and the previous provider then
    initializes again, the call throws the error of the failed
    initialization, the provider in memory is the previous one again, and
    the file holds the configuration in memory.  Every other setting is as
    before the call, except the time stamp and the option the call was
    given: a key passed for gemini, or a model passed for ollama, stays
    recorded.  [setEmbeddingProvider] does not roll back: whenever it
    fails, in whatever state and environment, the new embedding provider
    is the one in memory, and the one in the file when the write of the
    file succeeds. *)
Theorem setLLMProvider_rolls_back_provider (st : State) :
  (forall (provider : string) (options : Options.t) (error : string) (st2 st4 : State),
     (forall t, writeFileSync env t = true) ->
     (llmProvider (config st) = "gemini" -> truthy (geminiApiKey (config st)) = true) ->
     initializeLLM env (snd (beginSwitch env provider options st)) = (Throw error, st2) ->
     initializeLLM env (snd (rollback env (llmProvider (config st)) st2)) = (Ok tt, st4) ->
     setLLMProvider env provider options st = (Throw error, st4) /\
     llmProvider (config st4) = llmProvider (config st) /\
     file st4 = Some (config st4) /\
     embeddingProvider (config st4) = embeddingProvider (config st) /\
     huggingfaceApiKey (config st4) = huggingfaceApiKey (config st) /\
     openaiApiKey (config st4) = openaiApiKey (config st) /\
     version (config st4) = version (config st) /\
     geminiApiKey (config st4) = keyAfterSwitch provider options (config st) /\
     ollamaModel (config st4) = modelAfterSwitch provider options (config st)) /\
  (forall (provider' : string) (apiKey : option string) (error' : string) (st5 : State),
     setEmbeddingProvider env provider' apiKey st = (Throw error', st5) ->
     embeddingProvider (config st5) = provider' /\
     (writeFileSync env (S (tick st)) = true -> file st5 = Some (config st5))).
Proof.
  split.
  - intros provider options error st2 st4 Hwrite Husable Hfail Hagain.
    destruct (beginSwitch_run provider options st Hwrite)
      as (st1 & Hbegin & Hs1 & Hp1 & Hk1 & Hm1 & He1 & Hh1 & Ho1 & Hv1).
    rewrite Hbegin in Hfail. simpl in Hfail.
    destruct (initializeLLM_effect st1 Hwrite) as (Hsame2 & _ & _).
    rewrite Hfail in Hsame2. simpl in Hsame2.
    destruct Hsame2 as (He2 & Hm2 & Hk2 & Hh2 & Ho2 & Hv2).
    destruct (rollback_run (llmProvider (config st)) st2 Hwrite)
      as (st3 & Hroll & Hs3 & Hp3 & (He3 & Hm3 & Hk3 & Hh3 & Ho3 & Hv3)).
    rewrite Hroll in Hagain. simpl in Hagain.
    destruct (initializeLLM_effect st3 Hwrite) as (_ & _ & Hkeep).
    rewrite Hagain in Hkeep. simpl in Hkeep.
    destruct Hkeep as [Hc4 Hf4].
    { rewrite Hp3, Hk3, Hk2, Hk1. intros HA.
      apply keyAfterSwitch_truthy, Husable, HA. }
    split.
    + unfold setLLMProvider, bind. rewrite Hbegin.
      unfold tryCatch. rewrite Hfail. rewrite Hroll, Hagain. reflexivity.
    + rewrite Hc4, Hf4. unfold synced in Hs3.
      repeat split; congruence.
  - intros provider' apiKey error' st5.
    unfold setEmbeddingProvider, initializeEmbedding, embeddingInitialize. run.
    destruct (writeFileSync env (S (tick st))); simpl;
      repeat match goal with
             | |- context [if ?c then _ else _] => destruct c; simpl
             end;
      intros Hembed; inversion Hembed; subst; simpl; split;
      first [reflexivity | intros _; reflexivity | discriminate].
Qed.

End ProviderSwitch.

Section ProviderSwitchSamples.

Import JS Effect ModelManager.
Local Open Scope string_scope.

(** A fresh installation on ollama is switched to gemini with a key the
    service rejects, and to an embedding provider that does not exist. *)
Lemma setLLMProvider_rolls_back_provider_witness :
  let env := Sample.managerEnv in
  let st := Sample.manager in
  let error := "Gemini API key validation failed: Gemini API error: HTTP 400" in
  let st2 := snd (initializeLLM env (snd (beginSwitch env "gemini" Sample.rejectedKey st))) in
  let st4 := snd (initializeLLM env (snd (rollback env (llmProvider (config st)) st2))) in
  let st5 := snd (setEmbeddingProvider env "cohere" None st) in
  (setLLMProvider env "gemini" Sample.rejectedKey st = (Throw error, st4) /\
   llmProvider (config st4) = llmProvider (config st) /\
   file st4 = Some (config st4) /\
   embeddingProvider (config st4) = embeddingProvider (config st) /\
   huggingfaceApiKey (config st4) = huggingfaceApiKey (config st) /\
   openaiApiKey (config st4) = openaiApiKey (config st) /\
   version (config st4) = version (config st) /\
   geminiApiKey (config st4) = keyAfterSwitch "gemini" Sample.rejectedKey (config st) /\
   ollamaModel (config st4) = modelAfterSwitch "gemini" Sample.rejectedKey (config st)) /\
  (setEmbeddingProvider env "cohere" None st
   = (Throw "Unsupported embedding provider: cohere", st5) /\
   embeddingProvider (config st) = "ollama" /\
   embeddingProvider (config st5) = "cohere" /\
   file st5 = Some (config st5)).
Proof.
  intros env st error st2 st4 st5.
  destruct (@setLLMProvider_rolls_back_provider env st) as [Hllm Hembedding].
  split.
  - apply (Hllm "gemini" Sample.rejectedKey error st2 st4).
    + intros t. reflexivity.
    + simpl. discriminate.
    + reflexivity.
    + reflexivity.
  - assert (Hrun : setEmbeddingProvider env "cohere" None st
                   = (Throw "Unsupported embedding provider: cohere", st5)) by reflexivity.
    split; [exact Hrun|]. split; [reflexivity|].
    destruct (Hembedding "cohere" None "Unsupported embedding provider: cohere" st5 Hrun)
      as [Hmemory Hfile].
    split; [exact Hmemory | apply Hfile; reflexivity].
Defined.

(** C2 as claimed does not hold: after the failed switch the provider is
    ollama again, but the rejected key, absent before the call, is in the
    configuration in memory and in the file, and the time stamp has moved. *)
Lemma setLLMProvider_keeps_rejected_key :
  exists st' : State,
    setLLMProvider Sample.managerEnv "gemini" Sample.rejectedKey Sample.manager
    = (Throw "Gemini API key validation failed: Gemini API error: HTTP 400", st') /\
    llmProvider (config st') = "ollama" /\
    geminiApiKey (config Sample.manager) = None /\
    geminiApiKey (config st') = Some "AIzaSyA-rejected-key" /\
    file st' = Some (config st') /\
    lastUpdated (config st') <> lastUpdated (config Sample.manager) /\
    config st' <> config Sample.manager /\
    file st' <> file Sample.manager.
Proof.
  eexists. split; [vm_compute; reflexivity|].
  repeat split; try reflexivity; simpl; discriminate.
Qed.

End ProviderSwitchSamples.

(* ================================================================= *)
(** ** The status codes of the loopback routes *)

Section StatusCodes.

Import Effect CLIServer.
Local Open Scope string_scope.

(** Every failure that the routes other than [/query] report carries the
    status 400 or 500. *)
Lemma sibling_failures_are_400_or_500
      (ragService : Service) (route : Route) (reqBody : Json) :
  route <> PostQuery ->
  isFailure (handle ragService route reqBody) = true ->
  isErrorStatus (handle ragService route reqBody) = true.
Proof.
  destruct route; simpl; try congruence; intros _;
    unfold postIngestCommit, getProjectsRoute, postSearch, postIngest, getHealth;
    repeat match goal with
           | |- context [if ?c then _ else _] => destruct c; simpl
           | |- context [match ?r with Ok _ => _ | Throw _ => _ end] => destruct r; simpl
           end;
    intros H; try reflexivity; discriminate H.
Qed.

(** C9 (the code departs from the claim).  The claim has every failing
    route answer with status 400 or 500.  The [/query] route answers every
    request with status 200: when the search throws, the [catch] block
    calls [res.json] without [res.status], so the body
    [{success: false, error}] goes out under 200. *)
Theorem query_failure_is_status_200 :
  (forall (ragService : Service) (reqBody : Json),
      statusCode (handle ragService PostQuery reqBody) = 200) /\
  handle Sample.failingService PostQuery Sample.queryBody
  = {| statusCode := 200; body := Failure "Embedding service not initialized" |} /\
  isFailure (handle Sample.failingService PostQuery Sample.queryBody) = true /\
  isErrorStatus (handle Sample.failingService PostQuery Sample.queryBody) = false /\
  handle Sample.failingService PostSearch Sample.queryBody
  = {| statusCode := 500; body := Failure "Embedding service not initialized" |}.
Proof.
  split; [| repeat split; reflexivity].
  intros ragService reqBody. simpl. unfold postQuery.
  destruct (searchAndGenerate ragService _ _ _); reflexivity.
Qed.

End StatusCodes.

(* ================================================================= *)
(** ** The maintainability index *)

Section Maintainability.

Import JS AnalyticsService.
Local Open Scope float_scope.
Local Set Warnings "-inexact-float".

Example splitLines_examples :
  splitLines "" = [""%string] /\
  splitLines (String "a" (String LF (String LF "b"))) = ["a"; ""; "b"]%string.
Proof. split; reflexivity. Qed.

(** The keyword [||] counts every position of the content. *)
Example cyclomaticComplexity_examples :
  cyclomaticComplexity (calculateCodeMetrics logTable "") = 2%nat /\
  cyclomaticComplexity (calculateCodeMetrics logTable "if (a) b") = 11%nat /\
  cyclomaticComplexity (calculateCodeMetrics logTable "a&&b") = 7%nat.
Proof. repeat split; reflexivity. Qed.





End Maintainability.

(* ================================================================= *)
(** ** The worked example of the maintainability index over the reals *)

Section MaintainabilityOverReals.

Import AnalyticsService.
Local Open Scope R_scope.

Lemma exp_double_lower (b x b' : R) :
  0 < b -> b < exp x -> b' <= b * b -> b' < exp (x + x).
Proof.
  intros Hb Hlt Hb'. rewrite exp_plus.
  apply Rle_lt_trans with (b * b); [exact Hb'|].
  apply Rmult_gt_0_lt_compat; lra.
Qed.

(** From [H : b < exp x] to [H : b' < exp x'], where [x'] is twice [x] and
    [b'] at most the square of [b]. *)
Ltac square H b' x' :=
  match type of H with
  | ?b < exp ?x =>
      let H' := fresh "H" in
      assert (H' : b' < exp x')
        by (replace x' with (x + x) by lra;
            apply (@exp_double_lower b); [lra | exact H | lra]);
      clear H; rename H' into H
  end.

(** [e^2.3027 > 10], from [(1 + 2.3027/65536)^65536] by sixteen squarings
    with lower bounds of twelve decimals. *)
Lemma exp_above_10 : 10 < exp 2.3027.
Proof.
  assert (H : 1.000035136413 < exp (2.3027 / 65536)).
  { eapply Rle_lt_trans; [| apply exp_ineq1; lra]. lra. }
  square H 1.00007027406 (2.3027 / 32768).
  square H 1.000140553058 (2.3027 / 16384).
  square H 1.000281125871 (2.3027 / 8192).
  square H 1.000562330773 (2.3027 / 4096).
  square H 1.001124977761 (2.3027 / 2048).
  square H 1.002251221096 (2.3027 / 1024).
  square H 1.004507510188 (2.3027 / 512).
  square H 1.009035338024 (2.3027 / 256).
  square H 1.018152313381 (2.3027 / 128).
  square H 1.036634133243 (2.3027 / 64).
  square H 1.074610326204 (2.3027 / 32).
  square H 1.154787353184 (2.3027 / 16).
  square H 1.333533831073 (2.3027 / 8).
  square H 1.778312478616 (2.3027 / 4).
  square H 3.162395271601 (2.3027 / 2).
  square H 10.000743853844 (2.3027 / 1).
  replace (2.3027 / 1) with (2.3027) in H by lra. lra.
Qed.

(** [e^-2.3025 > 1/10], in the same way. *)
Lemma exp_neg_above_tenth : 0.1 < exp (-2.3025).
Proof.
  assert (H : 0.999964866638 < exp ((-2.3025) / 65536)).
  { eapply Rle_lt_trans; [| apply exp_ineq1; lra]. lra. }
  square H 0.99992973451 ((-2.3025) / 32768).
  square H 0.999859473957 ((-2.3025) / 16384).
  square H 0.999718967661 ((-2.3025) / 8192).
  square H 0.999438014301 ((-2.3025) / 4096).
  square H 0.998876344429 ((-2.3025) / 2048).
  square H 0.997753951459 ((-2.3025) / 1024).
  square H 0.995512947652 ((-2.3025) / 512).
  square H 0.991046028942 ((-2.3025) / 256).
  square H 0.982172231481 ((-2.3025) / 128).
  square H 0.964662292292 ((-2.3025) / 64).
  square H 0.93057333817 ((-2.3025) / 32).
  square H 0.865966737712 ((-2.3025) / 16).
  square H 0.749898390823 ((-2.3025) / 8).
  square H 0.562347596558 ((-2.3025) / 4).
  square H 0.316234819354 ((-2.3025) / 2).
  square H 0.100004460971 ((-2.3025) / 1).
  replace ((-2.3025) / 1) with ((-2.3025)) in H by lra. lra.
Qed.

Lemma ln_10_bounds : 2.3025 < ln 10 < 2.3027.
Proof.
  split.
  - apply exp_lt_inv. rewrite exp_ln by lra.
    pose proof exp_neg_above_tenth as H.
    replace (exp (-2.3025)) with (/ exp 2.3025) in H
      by (rewrite <- exp_Ropp; f_equal; lra).
    pose proof (exp_pos 2.3025) as Hp.
    apply (Rmult_lt_compat_r (exp 2.3025)) in H; [|exact Hp].
    rewrite Rinv_l in H by lra. lra.
  - apply exp_lt_inv. rewrite exp_ln by lra. apply exp_above_10.
Qed.

(** Over the reals the formula gives 207.77 at cyclomaticComplexity 1,
    linesOfCode 10 and commentRatio 0, and the value taken for
    [Math.log(10)] in [logTable] is within 0.0002 of [ln 10]. *)
Lemma maintainabilityReal_example :
  207.77 < maintainabilityReal 1 10 0 < 207.78 /\
  Rabs (2.302585092994046 - ln 10) < 0.0002.
Proof.
  pose proof ln_10_bounds as [Hlo Hhi]. split.
  - unfold maintainabilityReal.
    rewrite ln_1.
    replace (0 + 0.1) with (/ 10) by lra.
    rewrite ln_Rinv by lra.
    rewrite Rmax_right by lra. lra.
  - apply Rabs_def1; lra.
Qed.

End MaintainabilityOverReals.

(* ================================================================= *)
(** ** Cleaning file content *)

Section CleanContent.

Import JS NodePath Effect RAGService.
Local Open Scope string_scope.

Variable env : Environment.









Lemma isBlank_replaceCRLF (s : string) :
  (isBlank s = true -> isBlank (replaceCRLF s) = true) /\
  (forall c, isBlank (String c s) = true -> isBlank (replaceCRLF (String c s)) = true).
Proof.
  induction s as [|d s [IH1 IH2]].
  - split; [auto|]. intros c H. exact H.
  - split; [apply IH2|].
    intros c H. cbn [replaceCRLF].
    cbn [isBlank] in H. apply andb_true_iff in H as [Hc Hd].
    destruct (Ascii.eqb c CR && Ascii.eqb d LF).
    + cbn [isBlank]. apply andb_true_iff. split; [reflexivity|].
      apply IH1. cbn [isBlank] in Hd. now apply andb_true_iff in Hd as [_ Hd].
    + change (isBlank (String c (replaceCRLF (String d s))) = true).
      cbn [isBlank]. rewrite Hc. simpl. apply IH2. exact Hd.
Qed.

Lemma isBlank_replaceCR (s : string) :
  isBlank s = true -> isBlank (replaceCR s) = true.
Proof.
  induction s as [|a s IH]; simpl; [auto|].
  intros H. apply andb_true_iff in H as [Ha Hs].
  rewrite (IH Hs), andb_true_r.
  destruct (Ascii.eqb a CR); [reflexivity | exact Ha].
Qed.

Lemma isBlank_replaceTabs (s : string) :
  isBlank s = true -> isBlank (replaceTabs s) = true.
Proof.
  induction s as [|a s IH]; simpl; [auto|].
  intros H. apply andb_true_iff in H as [Ha Hs].
  destruct (Ascii.eqb a TAB); cbn [isBlank]; rewrite (IH Hs).
  - reflexivity.
  - now rewrite Ha.
Qed.

Lemma trim_blank (s : string) : isBlank s = true -> trim s = "".
Proof.
  unfold trim. induction s as [|a s IH]; simpl; [auto|].
  intros H. apply andb_true_iff in H as [Ha Hs].
  rewrite Ha. apply IH, Hs.
Qed.

(** X2.  A file whose content is not a string, or is made of white space
    only, is skipped by [ingestCommit]: its cleaned content is the empty
    string.  ([JSON.parse] rejects the empty string.) *)
Theorem blank_file_is_skipped (file : Commit.File) :
  reformatJSON env "" = None ->
  match Commit.content file with
  | Some content => isBlank content = true
  | None => True
  end ->
  cleanFileContent env (Commit.content file) (Commit.path file) = "" /\
  isSkipped env file = true.
Proof.
  intros Hjson Hblank.
  assert (H : cleanFileContent env (Commit.content file) (Commit.path file) = "").
  { unfold cleanFileContent.
    destruct (Commit.content file) as [content|]; [|reflexivity].
    destruct (String.eqb content ""); [reflexivity|].
    rewrite trim_blank.
    - change (collapseBlankLines "") with "".
      destruct (includes _ _); [rewrite Hjson|]; reflexivity.
    - apply isBlank_replaceTabs, isBlank_replaceCR, isBlank_replaceCRLF, Hblank. }
  split; [exact H|]. unfold isSkipped. now rewrite H.
Qed.

End CleanContent.

Section CleanContentSamples.

Import JS NodePath Effect RAGService.
Local Open Scope string_scope.


Lemma blank_file_is_skipped_witness :
  let file := {| Commit.path := "/src/blank.json";
                 Commit.content := Some (String TAB (String CR (String LF "  "))) |} in
  cleanFileContent Sample.env (Commit.content file) (Commit.path file) = "" /\
  isSkipped Sample.env file = true.
Proof.
  intros file. apply (blank_file_is_skipped Sample.env file).
  - reflexivity.
  - reflexivity.
Defined.

End CleanContentSamples.

(* ================================================================= *)
(** ** The document store: lookups, identifiers, growth *)

Section StoreFacts.

Import JS Effect RAGService.
Local Open Scope string_scope.

Variable env : Environment.



(** What [ingestDocument] does, by the answers of the embedding adapter
    and of the database. *)
Lemma ingestDocument_run (text : string) (metadata : Metadata) (st : State) :
  ingestDocument env text metadata st
  = match embedText env (S (tick st)) (text ++ newline ++ stringifyMetadata env metadata) with
    | Ok v =>
        match insertError env (S (S (tick st)))
                {| id := generateId env (tick st); text := text;
                   metadata := metadata; embedding := v |} with
        | None =>
            (Ok (generateId env (tick st), "ingested"),
             {| db := upsert {| id := generateId env (tick st); text := text;
                                metadata := metadata; embedding := v |} (db st);
                tick := S (S (tick st)) |})
        | Some e => (Throw e, {| db := db st; tick := S (S (tick st)) |})
        end
    | Throw e => (Throw e, {| db := db st; tick := S (S (tick st)) |})
    end.
Proof.
  unfold ingestDocument, bind, nextTick, lift, run_insert, ret. cbn [tick db].
  destruct (embedText env _ _); [|reflexivity].
  destruct (insertError env _ _); reflexivity.
Qed.


(** X4.  A failed ingestion writes nothing: when [ingestDocument] throws,
    the table is the one before the call, and the error is the one the
    embedding adapter threw or, the text embedded, the one the database
    threw at the insert of the new row.  Conversely each of the two makes
    [ingestDocument] throw that error. *)
Theorem ingestDocument_failure_writes_nothing
        (text : string) (metadata : Metadata) (st st' : State) (error : string) :
  ingestDocument env text metadata st = (Throw error, st') ->
  let embeddingText := text ++ newline ++ stringifyMetadata env metadata in
  db st' = db st /\
  (embedText env (S (tick st)) embeddingText = Throw error \/
   exists v : Vector,
     embedText env (S (tick st)) embeddingText = Ok v /\
     insertError env (S (S (tick st)))
       {| id := generateId env (tick st); text := text;
          metadata := metadata; embedding := v |} = Some error) /\
  forall (text' : string) (metadata' : Metadata) (from : State) (error' : string),
    let embeddingText' := text' ++ newline ++ stringifyMetadata env metadata' in
    (embedText env (S (tick from)) embeddingText' = Throw error' \/
     exists v : Vector,
       embedText env (S (tick from)) embeddingText' = Ok v /\
       insertError env (S (S (tick from)))
         {| id := generateId env (tick from); text := text';
            metadata := metadata'; embedding := v |} = Some error') ->
    fst (ingestDocument env text' metadata' from) = Throw error' /\
    db (snd (ingestDocument env text' metadata' from)) = db from.
Proof.
  intros Hrun embeddingText. subst embeddingText. split; [|split].
  - revert Hrun. rewrite ingestDocument_run.
    destruct (embedText env _ _) as [v|e].
    + destruct (insertError env _ _); [|discriminate].
      intros H. now injection H as _ <-.
    + intros H. now injection H as _ <-.
  - revert Hrun. rewrite ingestDocument_run.
    destruct (embedText env _ _) as [v|e].
    + destruct (insertError env _ _) as [e|] eqn:Hinsert; [|discriminate].
      intros H. injection H as <- _. right. exists v. split; [reflexivity | exact Hinsert].
    + intros H. injection H as <- _. now left.
  - intros text' metadata' from error' embeddingText' H. subst embeddingText'.
    rewrite ingestDocument_run.
    destruct H as [-> | (v & -> & ->)]; split; reflexivity.
Qed.

(* ----------------------------------------------------------------- *)
(** *** A property of the table that every write keeps *)

Section Preserved.

Variable P : list Row -> Prop.
Hypothesis P_upsert : forall r rows, P rows -> P (upsert r rows).

Lemma preserves_ret {A : Type} (a : A) : preserves P (ret a).
Proof. intros st H. exact H. Qed.

Lemma preserves_lift {A : Type} (r : Result A) : preserves P (lift r).
Proof. intros st H. exact H. Qed.

Lemma preserves_nextTick : preserves P nextTick.
Proof. intros st H. exact H. Qed.

Lemma preserves_allDocs : preserves P allDocs.
Proof. intros st H. exact H. Qed.

Lemma preserves_bind {A B : Type} (c : M State A) (k : A -> M State B) :
  preserves P c -> (forall a, preserves P (k a)) -> preserves P (bind c k).
Proof.
  intros Hc Hk st H. unfold bind.
  specialize (Hc st H). destruct (c st) as [[a|e] st1]; simpl in *.
  - now apply Hk.
  - exact Hc.
Qed.

Lemma preserves_tryCatch {A : Type} (body : M State A) (handler : string -> M State A) :
  preserves P body -> (forall e, preserves P (handler e)) -> preserves P (tryCatch body handler).
Proof.
  intros Hb Hh st H. unfold tryCatch.
  specialize (Hb st H). destruct (body st) as [[a|e] st1]; simpl in *.
  - exact Hb.
  - now apply Hh.
Qed.

Lemma preserves_run_insert (r : Row) : preserves P (run_insert env r).
Proof.
  intros st H. unfold run_insert.
  destruct (insertError env (tick st) r); simpl; [exact H | now apply P_upsert].
Qed.

Lemma preserves_ingestDocument (text : string) (metadata : Metadata) :
  preserves P (ingestDocument env text metadata).
Proof.
  unfold ingestDocument.
  apply preserves_bind; [apply preserves_nextTick | intros t].
  apply preserves_bind; [apply preserves_nextTick | intros t'].
  apply preserves_bind; [apply preserves_lift | intros embedding].
  apply preserves_bind; [apply preserves_run_insert | intros _; apply preserves_ret].
Qed.

Lemma preserves_ingestFiles (projectName : string) (metadata : Commit.Metadata)
      (files : list Commit.File) :
  forall results, preserves P (ingestFiles env projectName metadata files results).
Proof.
  induction files as [|file rest IH]; intros results; simpl.
  - apply preserves_ret.
  - apply preserves_bind; [| intros r; apply IH].
    unfold ingestFile.
    apply preserves_tryCatch; [| intros e; apply preserves_ret].
    apply preserves_bind; [apply preserves_nextTick | intros t].
    destruct (isEmptyContent _); [apply preserves_ret |].
    apply preserves_bind; [apply preserves_ingestDocument | intros r; apply preserves_ret].
Qed.

Lemma preserves_throw {A : Type} (error : string) : preserves P (@throw State A error).
Proof. intros st H. exact H. Qed.

Lemma preserves_ingestPayloadFiles (projectName : string) (metadata : Payload.MetadataValue)
      (files : list (option Payload.File)) :
  forall results, preserves P (ingestPayloadFiles env projectName metadata files results).
Proof.
  induction files as [|[file|] rest IH]; intros results; simpl.
  - apply preserves_ret.
  - apply preserves_bind; [| intros r; apply IH].
    unfold ingestPayloadFile.
    apply preserves_tryCatch; [| intros e; apply preserves_ret].
    destruct metadata as [absent|m]; [apply preserves_throw|].
    apply preserves_bind; [apply preserves_nextTick | intros t].
    destruct (Payload.path file); [|apply preserves_throw].
    cbn zeta. destruct (isEmptyContent _); [apply preserves_ret |].
    apply preserves_bind; [apply preserves_ingestDocument | intros r; apply preserves_ret].
  - apply preserves_throw.
Qed.

Lemma preserves_demoLoop (remaining : nat) :
  forall i results, preserves P (demoLoop env remaining i results).
Proof.
  induction remaining as [|n IH]; intros i results; simpl.
  - apply preserves_ret.
  - apply preserves_bind; [apply preserves_nextTick | intros t].
    apply preserves_bind; [apply preserves_ingestDocument | intros r; apply IH].
Qed.

Lemma preserves_searchAndGenerate (query : string) (k : option Z) (projectName : option string) :
  preserves P (searchAndGenerate env query k projectName).
Proof.
  unfold searchAndGenerate.
  repeat first [ apply preserves_bind; [| intros ? ]
               | apply preserves_nextTick | apply preserves_lift
               | apply preserves_allDocs | apply preserves_ret ].
Qed.

Lemma perform_preserves (op : Operation) (st : State) :
  P (db st) -> P (db (perform env op st)).
Proof.
  intros H. destruct op; simpl.
  - now apply preserves_ingestDocument.
  - unfold ingestCommit.
    apply preserves_bind; [apply preserves_ingestFiles | intros r; apply preserves_ret | exact H].
  - now apply preserves_searchAndGenerate.
  - exact H.
  - unfold bulkIngestDemo.
    apply preserves_bind; [apply preserves_demoLoop | intros r; apply preserves_ret | exact H].
  - unfold ingestCommitPayload.
    apply preserves_bind;
      [apply preserves_ingestPayloadFiles | intros r; apply preserves_ret | exact H].
Qed.

Lemma performAll_preserves (ops : list Operation) :
  forall st, P (db st) -> P (db (performAll env ops st)).
Proof.
  unfold performAll. induction ops as [|op ops IH]; intros st H; simpl.
  - exact H.
  - apply IH, perform_preserves, H.
Qed.

End Preserved.

Lemma existsb_id_In (r : Row) (rows : list Row) :
  existsb (fun x => String.eqb (id x) (id r)) rows = true <-> In (id r) (ids rows).
Proof.
  unfold ids. induction rows as [|x rows IH]; simpl; [split; [discriminate | tauto]|].
  rewrite orb_true_iff, IH, String.eqb_eq. tauto.
Qed.

Lemma ids_upsert_new (r : Row) (rows : list Row) :
  ~ In (id r) (ids rows) -> ids (upsert r rows) = (ids rows ++ [id r])%list.
Proof.
  intros Hnew. unfold ids. induction rows as [|x rows IH]; simpl; [reflexivity|].
  destruct (String.eqb_spec (id x) (id r)) as [Hx|Hx].
  - exfalso. apply Hnew. now left.
  - simpl. rewrite IH; [reflexivity|]. intros Hin. apply Hnew. now right.
Qed.

Lemma ids_upsert_old (r : Row) (rows : list Row) :
  In (id r) (ids rows) -> ids (upsert r rows) = ids rows.
Proof.
  unfold ids. induction rows as [|x rows IH]; simpl; [tauto|].
  destruct (String.eqb_spec (id x) (id r)) as [Hx|Hx]; simpl.
  - intros _. now rewrite Hx.
  - intros [H|H]; [congruence|]. now rewrite IH.
Qed.

Lemma NoDup_ids_upsert (r : Row) (rows : list Row) :
  NoDup (ids rows) -> NoDup (ids (upsert r rows)).
Proof.
  intros Hnd.
  destruct (in_dec string_dec (id r) (ids rows)) as [Hin|Hnew].
  - now rewrite ids_upsert_old.
  - rewrite ids_upsert_new by exact Hnew.
    apply (Permutation_NoDup (l := id r :: ids rows)).
    + apply Permutation_cons_append.
    + now constructor.
Qed.

(** X5.  The ids of the table stay pairwise distinct: whatever sequence of
    [ingestDocument], [ingestCommit], [searchAndGenerate], [getProjects]
    and [bulkIngestDemo] calls runs on a table without a repeated id, and
    however each call completes, no id occurs twice afterwards, also when
    the environment generates an identifier a second time. *)
Theorem ids_stay_distinct (ops : list Operation) (st : State) :
  NoDup (ids (db st)) -> NoDup (ids (db (performAll env ops st))).
Proof.
  apply (@performAll_preserves (fun rows => NoDup (ids rows)) NoDup_ids_upsert).
Qed.

(* ----------------------------------------------------------------- *)
(** *** The growth of the table under a commit *)

Local Abbreviation known := (knownIds env).

Lemma ingestFile_growth (base : list Row) (projectName : string)
      (metadata : Commit.Metadata) (file : Commit.File) (st : State) :
  freshIds env base -> distinctIds env -> known base st ->
  exists (r : option FileResult) (st' : State),
    ingestFile env projectName metadata file st = (Ok r, st') /\
    known base st' /\
    List.length (db st')
    = List.length (db st) + match r with Some (Success _ _ _) => 1 | _ => 0 end.
Proof.
  intros Hfresh Hdistinct Hknown.
  unfold ingestFile, tryCatch, bind, nextTick, ret. cbn [tick db].
  destruct (isEmptyContent _).
  - eexists _, _. split; [reflexivity|]. cbn [db tick]. split; [|simpl; lia].
    intros x Hx. destruct (Hknown x Hx) as [H|(t & Ht & ->)]; [now left | right].
    exists t. split; [cbn [tick]; lia | reflexivity].
  - rewrite ingestDocument_run. cbn [tick db].
    destruct (embedText env _ _) as [v|e];
      [destruct (insertError env _ _)|].
    + eexists _, _. split; [reflexivity|]. cbn [db tick]. split; [|simpl; lia].
      intros x Hx. destruct (Hknown x Hx) as [H|(t & Ht & ->)]; [now left | right].
      exists t. split; [cbn [tick]; lia | reflexivity].
    + eexists _, _. split; [reflexivity|]. cbn [db tick fst].
      set (r := {| id := generateId env (S (tick st)); text := _;
                   metadata := _; embedding := v |}).
      assert (Hnew : ~ In (id r) (ids (db st))).
      { intros Hin. destruct (Hknown _ Hin) as [H|(t & Ht & Heq)].
        - exact (Hfresh _ H).
        - apply Hdistinct in Heq. lia. }
      split.
      * intros x Hx. cbn [db] in Hx. rewrite (ids_upsert_new _ _ Hnew) in Hx.
        apply in_app_or in Hx as [Hx|[<-|[]]].
        -- destruct (Hknown x Hx) as [H|(t & Ht & ->)]; [now left | right].
           exists t. split; [cbn [tick]; lia | reflexivity].
        -- right. exists (S (tick st)). split; [cbn [tick]; lia | reflexivity].
      * pose proof (f_equal (@List.length string) (ids_upsert_new _ _ Hnew)) as Hlen.
        unfold ids in Hlen. rewrite length_app, !length_map in Hlen. simpl in Hlen. lia.
    + eexists _, _. split; [reflexivity|]. cbn [db tick]. split; [|simpl; lia].
      intros x Hx. destruct (Hknown x Hx) as [H|(t & Ht & ->)]; [now left | right].
      exists t. split; [cbn [tick]; lia | reflexivity].
Qed.

Lemma ingestFiles_growth (base : list Row) (projectName : string)
      (metadata : Commit.Metadata) (files : list Commit.File) :
  freshIds env base -> distinctIds env ->
  forall (results : list FileResult) (st : State),
    known base st ->
    exists (results' : list FileResult) (st' : State),
      ingestFiles env projectName metadata files results st = (Ok results', st') /\
      List.length (db st') + List.length (filter isSuccess results)
      = List.length (db st) + List.length (filter isSuccess results').
Proof.
  intros Hfresh Hdistinct.
  induction files as [|file rest IH]; intros results st Hknown; simpl.
  - exists results, st. split; [reflexivity | lia].
  - unfold bind.
    destruct (ingestFile_growth projectName metadata file Hfresh Hdistinct Hknown)
      as (r & st1 & Hrun & Hknown1 & Hlen).
    rewrite Hrun.
    destruct (IH (match r with Some entry => (results ++ [entry])%list | None => results end)
                 st1 Hknown1) as (results' & st' & Hrest & Hlen').
    exists results', st'. split; [exact Hrest|].
    destruct r as [[p d n|p e]|]; rewrite ?filter_app, ?length_app in Hlen';
      simpl in Hlen'; lia.
Qed.

(** X6.  With identifiers that are new to the table and never generated
    twice, [ingestCommit] adds exactly as many rows as its summary counts
    as [successful]: one row per stored file, none for a skipped or a
    failed one. *)
Theorem ingestCommit_adds_successful_rows (commitData : Commit.Data) (st : State) :
  freshIds env (db st) ->
  distinctIds env ->
  exists (summary : Summary.t) (st' : State),
    ingestCommit env commitData st = (Ok summary, st') /\
    List.length (db st') = List.length (db st) + Summary.successful summary.
Proof.
  intros Hfresh Hdistinct. unfold ingestCommit, bind, ret.
  assert (Hknown : known (db st) st) by (intros x Hx; now left).
  destruct (ingestFiles_growth (Commit.projectName commitData) (Commit.metadata commitData)
              (Commit.files commitData) Hfresh Hdistinct [] Hknown)
    as (results' & st' & Hrun & Hlen).
  rewrite Hrun. eexists _, st'. split; [reflexivity|]. simpl in *. lia.
Qed.

End StoreFacts.

Section StoreSamples.

Import JS Effect RAGService.
Local Open Scope string_scope.

Lemma showNat_injective (n m : nat) : showNat n = showNat m -> n = m.
Proof.
  unfold showNat. intros H.
  apply DecimalNat.Unsigned.to_uint_inj.
  pose proof (NilEmpty.usu (Nat.to_uint n)) as Hn.
  pose proof (NilEmpty.usu (Nat.to_uint m)) as Hm.
  rewrite H in Hn. congruence.
Qed.

Lemma sample_distinctIds : distinctIds Sample.env.
Proof.
  intros t t' H. simpl in H. injection H as H. now apply showNat_injective.
Qed.

Lemma sample_freshIds : freshIds Sample.env Sample.rows.
Proof. intros t. simpl. intros [H|[H|[H|[]]]]; discriminate H. Qed.

Lemma sample_ids_distinct : NoDup (ids Sample.rows).
Proof.
  simpl. repeat constructor; simpl; intuition discriminate.
Qed.


Lemma ingestDocument_failure_writes_nothing_witness :
  let st := {| db := Sample.rows; tick := 5 |} in
  let st' := snd (ingestDocument Sample.fullDiskEnv "const a = 1;"
                    (Sample.metadataOf "app" "src/a.js") st) in
  ingestDocument Sample.fullDiskEnv "const a = 1;" (Sample.metadataOf "app" "src/a.js") st
  = (Throw "database or disk is full", st') /\
  db st' = Sample.rows /\
  fst (ingestDocument Sample.env "const a = 1;" (Sample.metadataOf "app" "src/a.js") st)
  = Throw "Ollama embedding failed".
Proof.
  intros st st'.
  assert (Hrun : ingestDocument Sample.fullDiskEnv "const a = 1;"
                   (Sample.metadataOf "app" "src/a.js") st
                 = (Throw "database or disk is full", st')) by reflexivity.
  split; [exact Hrun|].
  destruct (@ingestDocument_failure_writes_nothing Sample.fullDiskEnv "const a = 1;"
              (Sample.metadataOf "app" "src/a.js") st st' "database or disk is full" Hrun)
    as (Hdb & _ & _).
  split; [exact Hdb|].
  destruct (@ingestDocument_failure_writes_nothing Sample.env "const a = 1;"
              (Sample.metadataOf "app" "src/a.js") st
              (snd (ingestDocument Sample.env "const a = 1;"
                      (Sample.metadataOf "app" "src/a.js") st))
              "Ollama embedding failed" eq_refl)
    as (_ & _ & Hconverse).
  apply (Hconverse "const a = 1;" (Sample.metadataOf "app" "src/a.js") st
           "Ollama embedding failed").
  left. reflexivity.
Defined.

Lemma ids_stay_distinct_witness :
  NoDup (ids (db (performAll Sample.env
                    [IngestCommit Sample.commit; BulkIngestDemo 2;
                     IngestDocument "seed" (Sample.metadataOf "app" "src/a.js")]
                    Sample.st))).
Proof.
  apply (@ids_stay_distinct Sample.env
           [IngestCommit Sample.commit; BulkIngestDemo 2;
            IngestDocument "seed" (Sample.metadataOf "app" "src/a.js")] Sample.st).
  exact sample_ids_distinct.
Defined.

Lemma ingestCommit_adds_successful_rows_witness :
  exists (summary : Summary.t) (st' : State),
    ingestCommit Sample.env Sample.commit Sample.st = (Ok summary, st') /\
    List.length (db st') = List.length (db Sample.st) + Summary.successful summary.
Proof.
  apply (@ingestCommit_adds_successful_rows Sample.env Sample.commit Sample.st).
  - exact sample_freshIds.
  - exact sample_distinctIds.
Defined.

End StoreSamples.

(* ================================================================= *)
(** ** The list of projects *)

Section Projects.

Import JS Effect RAGService.
Local Open Scope string_scope.

Variable env : Environment.

Lemma optionEqb_eq (a b : option string) : optionEqb a b = true <-> a = b.
Proof.
  destruct a as [x|], b as [y|]; simpl; try (split; [discriminate | congruence]).
  - rewrite String.eqb_eq. split; congruence.
  - tauto.
Qed.

Lemma optionEqb_refl (a : option string) : optionEqb a a = true.
Proof. now apply optionEqb_eq. Qed.

Lemma In_distinct (l : list (option string)) (y : option string) :
  In y (distinct l) <-> In y l.
Proof.
  induction l as [|x l IH]; simpl; [tauto|].
  rewrite filter_In, IH, negb_true_iff.
  destruct (optionEqb x y) eqn:Hxy.
  - apply optionEqb_eq in Hxy. subst. intuition discriminate.
  - split; [tauto|]. intros [H|H]; [now left | now right].
Qed.

Lemma NoDup_distinct (l : list (option string)) : NoDup (distinct l).
Proof.
  induction l as [|x l IH]; simpl; constructor.
  - rewrite filter_In, optionEqb_refl. intros [_ H]. discriminate H.
  - now apply NoDup_filter.
Qed.

Lemma list_sum_indicator (a : option string) (ks : list (option string)) :
  NoDup ks -> In a ks ->
  list_sum (map (fun k => if optionEqb a k then 1 else 0) ks) = 1.
Proof.
  induction ks as [|k ks IH]; simpl; [tauto|].
  intros Hnd Hin. inversion Hnd as [|? ? Hk Hks]; subst.
  destruct (optionEqb a k) eqn:Hak.
  - apply optionEqb_eq in Hak. subst k.
    assert (H0 : list_sum (map (fun k => if optionEqb a k then 1 else 0) ks) = 0).
    { clear IH Hin Hnd Hks. induction ks as [|k ks IH]; simpl; [reflexivity|].
      destruct (optionEqb a k) eqn:Hak.
      - apply optionEqb_eq in Hak. subst. exfalso. apply Hk. now left.
      - apply IH. intros H. apply Hk. now right. }
    lia.
  - destruct Hin as [->|Hin]; [now rewrite optionEqb_refl in Hak|].
    now rewrite IH.
Qed.

Lemma list_sum_map_add {A : Type} (f g : A -> nat) (l : list A) :
  list_sum (map (fun x => f x + g x) l) = list_sum (map f l) + list_sum (map g l).
Proof. induction l as [|x l IH]; simpl; lia. Qed.

(** Counting the rows key by key counts every row once. *)
Lemma count_by_key {A : Type} (key : A -> option string) (ks : list (option string))
      (l : list A) :
  NoDup ks -> (forall y, In y l -> In (key y) ks) ->
  list_sum (map (fun k => List.length (filter (fun d => optionEqb (key d) k) l)) ks)
  = List.length l.
Proof.
  intros Hnd. induction l as [|y l IH]; intros Hin; simpl.
  - clear Hnd Hin. induction ks as [|k ks IHk]; simpl; auto.
  - rewrite (map_ext _ (fun k => (if optionEqb (key y) k then 1 else 0)
                                 + List.length (filter (fun d => optionEqb (key d) k) l))).
    + rewrite list_sum_map_add, list_sum_indicator, IH; auto.
      * intros z Hz. apply Hin. now right.
      * apply Hin. now left.
    + intros k. now destruct (optionEqb (key y) k).
Qed.

(** X7.  [getProjects] lists every project name of the store once, each
    with at least one document, and the document counts of the projects add
    up to the number of rows of the store: every row is counted for exactly
    one project (rows without a project name form a project of their
    own).  The call reads only. *)
Theorem getProjects_partitions_the_store (st : State) :
  exists projects : list Project.t,
    getProjects env st = (Ok projects, st) /\
    NoDup (map Project.name projects) /\
    (forall d, In d (db st) -> In (Meta.project_name (metadata d)) (map Project.name projects)) /\
    Forall (fun p => 1 <= Project.documents p) projects /\
    list_sum (map Project.documents projects) = List.length (db st).
Proof.
  unfold getProjects, bind, allDocs, ret.
  eexists. split; [reflexivity|].
  set (names := distinct (map (fun d => Meta.project_name (metadata d)) (db st))).
  assert (Hnames : map Project.name (map (projectSummary env (db st)) names) = names).
  { rewrite map_map. simpl. apply map_id. }
  rewrite Hnames. split; [apply NoDup_distinct|]. split; [|split].
  - intros d Hd. apply In_distinct.
    exact (in_map (fun d => Meta.project_name (metadata d)) _ _ Hd).
  - apply Forall_forall. intros p Hp.
    apply in_map_iff in Hp as (name & <- & Hname). simpl.
    apply In_distinct, in_map_iff in Hname as (d & Hd & Hin).
    assert (H : In d (filter (fun d => optionEqb (Meta.project_name (metadata d)) name) (db st))).
    { apply filter_In. split; [exact Hin|]. now apply optionEqb_eq. }
    destruct (filter _ (db st)); [contradiction | simpl; lia].
  - rewrite map_map. simpl.
    apply (count_by_key (fun d => Meta.project_name (metadata d))).
    + apply NoDup_distinct.
    + intros d Hd. apply In_distinct.
    exact (in_map (fun d => Meta.project_name (metadata d)) _ _ Hd).
Qed.

End Projects.

(* ================================================================= *)
(** ** The demo ingestion *)

Section Demo.

Import JS Effect RAGService.
Local Open Scope string_scope.

Variable env : Environment.

Lemma demoLoop_counts (remaining : nat) :
  (forall t s, exists v, embedText env t s = Ok v) ->
  (forall t r, insertError env t r = None) ->
  forall (i : nat) (results : list (string * string)) (st : State),
  exists (added : list (string * string)) (st' : State),
    demoLoop env remaining i results st = (Ok (results ++ added)%list, st') /\
    List.length added = remaining /\
    tick st' = tick st + 3 * remaining /\
    List.length (db st) <= List.length (db st').
Proof.
  intros Hembed Hinsert. induction remaining as [|n IH]; intros i results st; simpl.
  - exists [], st. unfold ret. rewrite app_nil_r. repeat split; lia.
  - unfold bind at 1. unfold nextTick at 1. cbn [tick db].
    unfold bind at 1. rewrite ingestDocument_run. cbn [tick db].
    destruct (Hembed (S (S (tick st)))
                (demoText i ++ newline
                 ++ stringifyMetadata env (demoMetadata i (beforeT (now env (tick st))))))
      as [v Hv].
    rewrite Hv, Hinsert.
    destruct (IH (S i) (results ++ [(generateId env (S (tick st)), "ingested")])%list
                 {| db := upsert {| id := generateId env (S (tick st)); text := demoText i;
                                    metadata := demoMetadata i (beforeT (now env (tick st)));
                                    embedding := v |} (db st);
                    tick := S (S (S (tick st))) |})
      as (added & st' & Hrun & Hlen & Htick & Hdb).
    rewrite Hrun.
    exists ((generateId env (S (tick st)), "ingested") :: added), st'.
    rewrite <- app_assoc. split; [reflexivity|]. simpl in *.
    repeat split; try lia.
    eapply Nat.le_trans; [|exact Hdb].
    clear. induction (db st) as [|x rows IHr]; simpl; [lia|].
    destruct (String.eqb _ _); simpl; lia.
Qed.

(** With an embedding adapter that answers every call and a database
    that takes every insert, [bulkIngestDemo(count)] returns [ingested =
    count] with one result per round, after three calls to the outside
    per round. *)
Theorem bulkIngestDemo_ingests_count (count : nat) (st : State) :
  (forall t s, exists v, embedText env t s = Ok v) ->
  (forall t r, insertError env t r = None) ->
  exists (results : list (string * string)) (st' : State),
    bulkIngestDemo env count st = (Ok (count, results), st') /\
    List.length results = count /\
    tick st' = tick st + 3 * count.
Proof.
  intros Hembed Hinsert. unfold bulkIngestDemo, bind.
  destruct (demoLoop_counts count Hembed Hinsert 0 [] st) as (added & st' & Hrun & Hlen & Htick & _).
  rewrite Hrun. simpl. exists added, st'. unfold ret. rewrite Hlen. repeat split; auto.
Qed.

End Demo.

Section DemoSamples.

Import JS Effect RAGService.
Local Open Scope string_scope.

Lemma bulkIngestDemo_ingests_count_witness :
  exists (results : list (string * string)) (st' : State),
    bulkIngestDemo Sample.steadyEnv 3 Sample.st = (Ok (3, results), st') /\
    List.length results = 3 /\
    tick st' = tick Sample.st + 3 * 3.
Proof.
  apply (@bulkIngestDemo_ingests_count Sample.steadyEnv 3 Sample.st).
  - intros t s. exists (Some [1; 0]%float). reflexivity.
  - intros t r. reflexivity.
Defined.

End DemoSamples.

(* ================================================================= *)
(** ** Searching: the project filter and the count of sources *)

Section SearchFacts.

Import JS Effect RAGService.
Local Open Scope string_scope.

Variable env : Environment.

Lemma In_slice0 {A : Type} (k : Z) (l : list A) (x : A) : In x (slice0 k l) -> In x l.
Proof.
  assert (Hfirst : forall n, In x (firstn n l) -> In x l).
  { intros n H. rewrite <- (firstn_skipn n l). apply in_or_app. now left. }
  unfold slice0. destruct (k <? 0)%Z; apply Hfirst.
Qed.

Lemma length_slice0 {A : Type} (k : Z) (l : list A) :
  List.length (slice0 k l)
  = if (k <? 0)%Z then Z.to_nat (Z.of_nat (List.length l) + k)
    else Nat.min (Z.to_nat k) (List.length l).
Proof.
  unfold slice0. destruct (k <? 0)%Z eqn:Hk; rewrite length_firstn; [|reflexivity].
  apply Z.ltb_lt in Hk. lia.
Qed.

(** What [searchAndGenerate] returns when it returns. *)
Lemma searchAndGenerate_sources
      (query : string) (k : option Z) (projectName : option string)
      (st st' : State) (result : SearchResult.t) :
  searchAndGenerate env query k projectName st = (Ok result, st') ->
  exists queryEmbedding : Vector,
    embedText env (tick st) query = Ok queryEmbedding /\
    SearchResult.sources result
    = map (toSource env)
        (slice0 (match k with Some k => k | None => 5%Z end)
           (sortBy byScoreDescending
              (scoreDocs queryEmbedding (searchedDocs projectName (db st))))).
Proof.
  unfold searchAndGenerate, bind, nextTick, lift, allDocs, ret. cbn [tick db].
  destruct (embedText env (tick st) query) as [q|e]; [|discriminate].
  destruct (generateWithContext env _ _ _) as [answer|e]; [|discriminate].
  intros H. injection H as <- _. exists q. split; reflexivity.
Qed.

(** X8.  A search restricted to a project answers from that project
    only: every source it returns is built from a row of the store whose
    project name is the one asked for. *)
Theorem searchAndGenerate_stays_in_project
        (query : string) (k : option Z) (projectName : option string)
        (st st' : State) (result : SearchResult.t) :
  truthy projectName = true ->
  searchAndGenerate env query k projectName st = (Ok result, st') ->
  exists hits : list Scored.t,
    SearchResult.sources result = map (toSource env) hits /\
    Forall (fun hit => In (Scored.doc hit) (db st) /\
                       Meta.project_name (metadata (Scored.doc hit)) = projectName) hits.
Proof.
  intros Hproject Hrun.
  destruct (searchAndGenerate_sources _ _ _ _ Hrun) as (q & _ & Hsources).
  eexists. split; [exact Hsources|].
  apply Forall_forall. intros hit Hhit.
  apply In_slice0 in Hhit.
  apply (Permutation_in _ (sortBy_perm _ _)) in Hhit.
  unfold scoreDocs in Hhit. apply in_map_iff in Hhit as (d & <- & Hd).
  unfold searchedDocs in Hd. rewrite Hproject in Hd.
  apply filter_In in Hd as [Hin Heq]. simpl. split; [exact Hin|].
  destruct (Meta.project_name (metadata d)) as [x|], projectName as [y|];
    simpl in Heq; try discriminate.
  apply String.eqb_eq in Heq. now subst.
Qed.

(** X9.  The number of sources of a search, for every [k]: with [n]
    documents searched, a [k] that is not negative gives [min(k, n)]
    sources, an absent [k] counts as 5, and a negative [k] gives the
    [n + k] best documents (none when [n + k] is negative) rather than
    nothing. *)
Theorem searchAndGenerate_sources_count
        (query : string) (k : option Z) (projectName : option string)
        (st st' : State) (result : SearchResult.t) :
  searchAndGenerate env query k projectName st = (Ok result, st') ->
  let n := List.length (searchedDocs projectName (db st)) in
  List.length (SearchResult.sources result)
  = match k with
    | None => Nat.min 5 n
    | Some k => if (k <? 0)%Z then Z.to_nat (Z.of_nat n + k) else Nat.min (Z.to_nat k) n
    end.
Proof.
  intros Hrun n.
  destruct (searchAndGenerate_sources _ _ _ _ Hrun) as (q & _ & Hsources).
  rewrite Hsources, length_map, length_slice0.
  rewrite (Permutation_length (sortBy_perm _ _)).
  unfold scoreDocs. rewrite length_map. fold n.
  destruct k as [k|]; reflexivity.
Qed.

End SearchFacts.

Section SearchSamples.

Import JS Effect RAGService.
Local Open Scope string_scope.

Lemma searchAndGenerate_stays_in_project_witness :
  let run := searchAndGenerate Sample.env "where is the parser?" (Some 2%Z) (Some "app")
               Sample.st in
  exists hits : list Scored.t,
    match fst run with
    | Ok result => SearchResult.sources result = map (toSource Sample.env) hits
    | Throw _ => False
    end /\
    Forall (fun hit => In (Scored.doc hit) (db Sample.st) /\
                       Meta.project_name (metadata (Scored.doc hit)) = Some "app") hits.
Proof.
  intros run.
  destruct (fst run) as [result|e] eqn:Hrun; [|discriminate Hrun].
  apply (@searchAndGenerate_stays_in_project Sample.env "where is the parser?" (Some 2%Z)
           (Some "app") Sample.st (snd run) result).
  - reflexivity.
  - rewrite <- Hrun. apply surjective_pairing.
Defined.

Lemma searchAndGenerate_sources_count_witness :
  let run := searchAndGenerate Sample.env "where is the parser?" (Some (-1)%Z) None
               Sample.st in
  match fst run with
  | Ok result => List.length (SearchResult.sources result) = 2
  | Throw _ => False
  end.
Proof.
  intros run.
  destruct (fst run) as [result|e] eqn:Hrun; [|discriminate Hrun].
  apply (@searchAndGenerate_sources_count Sample.env "where is the parser?" (Some (-1)%Z)
           None Sample.st (snd run) result).
  rewrite <- Hrun. apply surjective_pairing.
Defined.

End SearchSamples.

(* ================================================================= *)
(** ** Cosine similarity does not depend on the order of its arguments *)

Section CosineSymmetry.

Import JS RAGService.
Local Open Scope float_scope.

Lemma SFmul_comm (prec emax : Z) (x y : SpecFloat.spec_float) :
  SpecFloat.SFmul prec emax x y = SpecFloat.SFmul prec emax y x.
Proof.
  destruct x as [sx|sx| |sx mx ex], y as [sy|sy| |sy my ey]; simpl;
    rewrite ?(xorb_comm sx sy); try reflexivity.
  now rewrite (Pos.mul_comm mx my), (Z.add_comm ex ey).
Qed.

Lemma mul_comm (x y : float) : x * y = y * x.
Proof.
  apply FloatAxioms.Prim2SF_inj.
  rewrite !FloatAxioms.mul_spec. apply SFmul_comm.
Qed.

Lemma cosineLoop_swap (a : list float) :
  forall (b : list float) (dot na nb : float),
    cosineLoop b a dot nb na
    = let '(d, x, y) := cosineLoop a b dot na nb in (d, y, x).
Proof.
  induction a as [|x a IH]; intros [|y b] dot na nb; simpl; try reflexivity.
  rewrite (mul_comm y x). apply IH.
Qed.

(** X10.  [cosine] is symmetric: the similarity of [a] to [b] is, bit for
    bit, the similarity of [b] to [a], absent vectors and vectors of
    unequal length included. *)
Theorem cosine_symmetric (a b : Vector) : cosine a b = cosine b a.
Proof.
  destruct a as [a|], b as [b|]; simpl; try reflexivity.
  rewrite (Nat.eqb_sym (List.length b) (List.length a)).
  destruct (Nat.eqb (List.length a) (List.length b)); simpl; [|reflexivity].
  rewrite (cosineLoop_swap a b).
  destruct (cosineLoop a b 0 0 0) as [[d x] y].
  now rewrite (mul_comm (sqrt y) (sqrt x)).
Qed.

End CosineSymmetry.

(* ================================================================= *)
(** ** File classification looks at the last component only *)

Section FileTypeFacts.

Import JS NodePath FileType.
Local Open Scope string_scope.

Lemma list_ascii_of_toLowerCase (s : string) :
  list_ascii_of_string (toLowerCase s) = map lowerChar (list_ascii_of_string s).
Proof. induction s as [|c s IH]; simpl; [reflexivity | now rewrite IH]. Qed.

Lemma isSlash_lowerChar (c : ascii) : isSlash (lowerChar c) = isSlash c.
Proof. destruct c as [[] [] [] [] [] [] [] []]; reflexivity. Qed.

Lemma lowerChar_idempotent (c : ascii) : lowerChar (lowerChar c) = lowerChar c.
Proof. destruct c as [[] [] [] [] [] [] [] []]; reflexivity. Qed.

Lemma toLowerCase_idempotent (s : string) : toLowerCase (toLowerCase s) = toLowerCase s.
Proof.
  induction s as [|c s IH]; simpl; [reflexivity|].
  now rewrite lowerChar_idempotent, IH.
Qed.

Lemma dropWhile_isSlash_lower (l : list ascii) :
  dropWhile isSlash (map lowerChar l) = map lowerChar (dropWhile isSlash l).
Proof.
  induction l as [|c l IH]; simpl; [reflexivity|].
  rewrite isSlash_lowerChar. destruct (isSlash c); [exact IH | reflexivity].
Qed.

Lemma takeWhile_notSlash_lower (l : list ascii) :
  takeWhile (fun c => negb (isSlash c)) (map lowerChar l)
  = map lowerChar (takeWhile (fun c => negb (isSlash c)) l).
Proof.
  induction l as [|c l IH]; simpl; [reflexivity|].
  rewrite isSlash_lowerChar. destruct (isSlash c); simpl; [reflexivity | now rewrite IH].
Qed.

Lemma basename_toLowerCase (p : string) :
  basename (toLowerCase p) = toLowerCase (basename p).
Proof.
  unfold basename, lastComponentRev.
  rewrite list_ascii_of_toLowerCase, <- map_rev.
  rewrite dropWhile_isSlash_lower, takeWhile_notSlash_lower.
  now rewrite toLowerCase_of_list, map_rev.
Qed.

Lemma list_ascii_of_append (s t : string) :
  list_ascii_of_string (s ++ t) = (list_ascii_of_string s ++ list_ascii_of_string t)%list.
Proof. induction s as [|c s IH]; simpl; [reflexivity | now rewrite IH]. Qed.

Lemma takeWhile_all (p : ascii -> bool) (l rest : list ascii) (stop : ascii) :
  forallb p l = true -> p stop = false ->
  takeWhile p (l ++ stop :: rest) = l.
Proof.
  intros Hl Hstop. induction l as [|c l IH]; simpl in *.
  - now rewrite Hstop.
  - apply andb_true_iff in Hl as [Hc Hl]. now rewrite Hc, IH.
Qed.

Lemma takeWhile_whole (p : ascii -> bool) (l : list ascii) :
  forallb p l = true -> takeWhile p l = l.
Proof.
  induction l as [|c l IH]; simpl; [reflexivity|].
  intros H. apply andb_true_iff in H as [Hc Hl]. now rewrite Hc, IH.
Qed.

Lemma forallb_notSlash (name : string) :
  occurs "/" name = false ->
  forallb (fun c => negb (isSlash c)) (list_ascii_of_string name) = true.
Proof.
  unfold isSlash. induction name as [|c name IH]; cbn [occurs list_ascii_of_string forallb];
    [reflexivity|].
  intros H. apply orb_false_iff in H as [Hc Hn].
  rewrite Ascii.eqb_sym, Hc. simpl. apply IH, Hn.
Qed.

(** The last component of [dir/name] is [name]. *)
Lemma lastComponentRev_in_directory (dir name : string) :
  name <> "" -> occurs "/" name = false ->
  lastComponentRev (dir ++ "/" ++ name) = lastComponentRev name.
Proof.
  intros Hname Hslash. unfold lastComponentRev.
  rewrite !list_ascii_of_append, !rev_app_distr. simpl.
  pose proof (forallb_notSlash name Hslash) as Hall.
  assert (Hrev : forallb (fun c => negb (isSlash c)) (rev (list_ascii_of_string name)) = true).
  { rewrite forallb_forall in *. intros c Hc. apply Hall. now apply in_rev. }
  destruct (rev (list_ascii_of_string name)) as [|c r] eqn:Hr.
  - exfalso. apply Hname.
    apply (f_equal (@rev ascii)) in Hr. rewrite rev_involutive in Hr. simpl in Hr.
    destruct name; [reflexivity | discriminate Hr].
  - simpl in Hrev. apply andb_true_iff in Hrev as [Hc Hrest].
    cbn [app dropWhile]. apply negb_true_iff in Hc. rewrite Hc.
    cbn [takeWhile]. rewrite Hc. simpl. f_equal.
    rewrite <- app_assoc. cbn [app].
    rewrite takeWhile_all; [| exact Hrest | reflexivity].
    now rewrite takeWhile_whole.
Qed.

(** X11.  [RAGService.getFileType] reads the last component of a path and
    nothing else, and reads it without regard to letter case: a path and
    its lower-cased form are classified alike, and so are a file name and
    the same name below any directory. *)
Theorem getFileType_ignores_case_and_directory :
  (forall p : string, getFileType (toLowerCase p) = getFileType p) /\
  (forall dir name : string,
      name <> "" -> occurs "/" name = false ->
      getFileType (dir ++ "/" ++ name) = getFileType name).
Proof.
  split.
  - intros p. apply getFileType_by_basename.
    now rewrite basename_toLowerCase, toLowerCase_idempotent.
  - intros dir name Hname Hslash. apply getFileType_by_basename.
    unfold basename. now rewrite lastComponentRev_in_directory.
Qed.

End FileTypeFacts.

(* ================================================================= *)
(** ** The model manager: fallback, cleared keys, the file on disk *)

Section ManagerFacts.

Import JS Effect ModelManager.
Local Open Scope string_scope.

Variable env : Environment.

Ltac run :=
  unfold saveConfig, geminiInitialize, embeddingInitialize, initializeEmbedding,
    bind, ret, throw, lift, tryCatch, nextTick, getConfigObject, setConfigObject,
    writeFile, setLLMService, setEmbeddingService; simpl.

(** X12.  A [gemini] provider without a stored key is not an error:
    [initializeLLM] rewrites the provider to [ollama], saves, and completes
    as the start of the local runtime completes.  The manager then runs the
    ollama adapter, and a key is still not stored. *)
Theorem initializeLLM_falls_back_to_ollama (st : State) :
  llmProvider (config st) = "gemini" ->
  truthy (geminiApiKey (config st)) = false ->
  fst (initializeLLM env st) = ollamaInitialize env (S (S (tick st))) /\
  llmProvider (config (snd (initializeLLM env st))) = "ollama" /\
  llmService (snd (initializeLLM env st)) = Some OllamaService /\
  geminiApiKey (config (snd (initializeLLM env st))) = geminiApiKey (config st) /\
  (writeFileSync env (S (tick st)) = true ->
   file (snd (initializeLLM env st)) = Some (config (snd (initializeLLM env st)))).
Proof.
  intros Hprovider Hkey. unfold initializeLLM. simpl. run.
  rewrite Hprovider. simpl. rewrite Hkey. simpl.
  destruct (writeFileSync env (S (tick st))); simpl;
    destruct (ollamaInitialize env (S (S (tick st)))); simpl;
    repeat split; try reflexivity; intros H; discriminate H.
Qed.

(** X13.  Switching to [gemini] with no key at hand (none passed, none
    stored) reports success as soon as the local runtime starts: the call
    returns, and the provider recorded and running is [ollama], not
    [gemini]. *)
Theorem setLLMProvider_gemini_without_key (options : Options.t) (st : State) :
  truthy (Options.apiKey options) = false ->
  truthy (geminiApiKey (config st)) = false ->
  ollamaInitialize env (S (S (S (S (tick st))))) = Ok tt ->
  fst (setLLMProvider env "gemini" options st) = Ok tt /\
  llmProvider (config (snd (setLLMProvider env "gemini" options st))) = "ollama" /\
  llmService (snd (setLLMProvider env "gemini" options st)) = Some OllamaService.
Proof.
  intros Hoption Hkey Hollama.
  unfold setLLMProvider, beginSwitch, initializeLLM. simpl. run.
  rewrite Hoption. simpl.
  destruct (Options.model options) as [model|]; simpl;
    destruct (writeFileSync env (S (tick st))); simpl; rewrite Hkey; simpl;
    destruct (writeFileSync env (S (S (S (tick st))))); simpl;
    rewrite Hollama; simpl; repeat split; reflexivity.
Qed.

(** X14.  After [clearApiKeys], which always returns, [getConfig] shows
    no key at all, raw or masked, and reports [gemini] as not configured.
    The provider and the adapters are left as they are: an adapter that
    was built with a key keeps running with it. *)
Theorem clearApiKeys_then_getConfig (st : State) :
  fst (clearApiKeys env st) = Ok tt /\
  hidesRawKeys (getConfig (snd (clearApiKeys env st))) = true /\
  maskedKeys (getConfig (snd (clearApiKeys env st)))
  = {| MaskedKeys.gemini := None; MaskedKeys.huggingface := None;
       MaskedKeys.openai := None |} /\
  Configured.gemini (configured (getConfig (snd (clearApiKeys env st)))) = false /\
  llmProvider (config (snd (clearApiKeys env st))) = llmProvider (config st) /\
  embeddingProvider (config (snd (clearApiKeys env st))) = embeddingProvider (config st) /\
  llmService (snd (clearApiKeys env st)) = llmService st /\
  embeddingService (snd (clearApiKeys env st)) = embeddingService st.
Proof.
  unfold clearApiKeys. run.
  destruct (writeFileSync env (S (tick st))); simpl; repeat split; reflexivity.
Qed.

Lemma substring_whole (n : nat) (s : string) :
  String.length s <= n -> substring 0 n s = s.
Proof.
  revert n. induction s as [|c s IH]; intros [|n] H; simpl in *; try reflexivity; try lia.
  rewrite IH; [reflexivity | lia].
Qed.

(** X15.  Masking does not hide a short key: a stored key of at most four
    characters appears in full, followed by the ellipsis, in the
    [maskedKeys] of [getConfig]. *)
Theorem short_key_is_shown_in_full (st : State) (key : string) :
  geminiApiKey (config st) = Some key ->
  key <> "" ->
  String.length key <= 4 ->
  MaskedKeys.gemini (maskedKeys (getConfig st)) = Some (key ++ "...").
Proof.
  intros Hkey Hne Hlen. simpl. unfold getMaskedApiKey. simpl. rewrite Hkey.
  assert (Ht : truthy (Some key) = true).
  { simpl. apply negb_true_iff. destruct (String.eqb_spec key ""); congruence. }
  rewrite Ht. unfold mask.
  destruct (Nat.ltb_spec 12 (String.length key)); [lia|].
  now rewrite substring_whole.
Qed.

Lemma saveConfig_synced (st : State) :
  (forall t, writeFileSync env t = true) -> synced (snd (saveConfig env st)).
Proof. intros Hwrite. run. rewrite Hwrite. reflexivity. Qed.

Lemma initializeLLM_synced (st : State) :
  (forall t, writeFileSync env t = true) ->
  synced st -> synced (snd (initializeLLM env st)).
Proof.
  intros Hwrite. unfold initializeLLM, synced. simpl. run.
  destruct (String.eqb (llmProvider (config st)) "ollama"); simpl; [auto|].
  destruct (String.eqb (llmProvider (config st)) "gemini"); simpl; [|auto].
  destruct (truthy (geminiApiKey (config st))) eqn:Hk; simpl.
  - destruct (geminiApiKey (config st)) as [key|]; [|discriminate].
    simpl in Hk. rewrite Hk. simpl.
    destruct (geminiTestConnection env _ _); simpl; auto.
  - rewrite Hwrite. simpl. intros _. reflexivity.
Qed.

(** X16.  While the disk accepts every write, the configuration file
    follows the memory: after [setLLMProvider], [setEmbeddingProvider] or
    [clearApiKeys], whether the call returns or throws, the file holds
    exactly the configuration the manager has in memory. *)
Theorem configuration_file_follows_memory (st : State) :
  (forall t, writeFileSync env t = true) ->
  (forall provider options, synced (snd (setLLMProvider env provider options st))) /\
  (forall provider apiKey, synced (snd (setEmbeddingProvider env provider apiKey st))) /\
  synced (snd (clearApiKeys env st)).
Proof.
  intros Hwrite. split; [|split].
  - intros provider options. unfold setLLMProvider.
    unfold bind at 1.
    assert (Hbegin : exists prev st1,
               beginSwitch env provider options st = (Ok prev, st1) /\ synced st1).
    { unfold beginSwitch.
      unfold bind at 1. unfold getConfigObject at 1.
      unfold bind at 1. unfold setConfigObject at 1.
      unfold bind at 1.
      match goal with
      | |- context [saveConfig env ?s] =>
          pose proof (saveConfig_synced s Hwrite) as Hs;
          destruct (saveConfig env s) as [[[]|e] s1] eqn:Hrun
      end.
      - unfold ret. eexists _, _. split; [reflexivity | exact Hs].
      - exfalso. revert Hrun. run. rewrite Hwrite. discriminate. }
    destruct Hbegin as (prev & st1 & -> & Hs1).
    unfold tryCatch.
    pose proof (@initializeLLM_synced st1 Hwrite Hs1) as Hs2.
    destruct (initializeLLM env st1) as [[[]|e] st2]; [exact Hs2|].
    simpl in Hs2.
    unfold bind at 1. unfold rollback.
    unfold bind at 1. unfold getConfigObject at 1.
    unfold bind at 1. unfold setConfigObject at 1.
    match goal with
    | |- context [saveConfig env ?s] =>
        pose proof (saveConfig_synced s Hwrite) as Hs3;
        destruct (saveConfig env s) as [[[]|e3] st3]
    end; [|exact Hs3].
    simpl in Hs3. unfold bind at 1.
    pose proof (@initializeLLM_synced st3 Hwrite Hs3) as Hs4.
    destruct (initializeLLM env st3) as [[[]|e4] st4]; exact Hs4.
  - intros provider apiKey. unfold setEmbeddingProvider, synced. run.
    rewrite Hwrite. unfold embeddingInitialize, ret, throw. simpl.
    repeat match goal with
           | |- context [if ?c then _ else _] => destruct c; simpl
           end; reflexivity.
  - unfold clearApiKeys, synced. run. rewrite Hwrite. reflexivity.
Qed.

End ManagerFacts.

Section ManagerSamples.

Import JS Effect ModelManager.
Local Open Scope string_scope.

Lemma initializeLLM_falls_back_to_ollama_witness :
  let st := {| config := withLLMProvider "gemini" Sample.defaults;
               file := Some Sample.defaults;
               llmService := None; embeddingService := None; tick := 0 |} in
  fst (initializeLLM Sample.managerEnv st) = ollamaInitialize Sample.managerEnv 2 /\
  llmProvider (config (snd (initializeLLM Sample.managerEnv st))) = "ollama" /\
  llmService (snd (initializeLLM Sample.managerEnv st)) = Some OllamaService /\
  geminiApiKey (config (snd (initializeLLM Sample.managerEnv st))) = geminiApiKey (config st) /\
  (writeFileSync Sample.managerEnv 1 = true ->
   file (snd (initializeLLM Sample.managerEnv st))
   = Some (config (snd (initializeLLM Sample.managerEnv st)))).
Proof.
  intros st. apply (@initializeLLM_falls_back_to_ollama Sample.managerEnv st).
  - reflexivity.
  - reflexivity.
Defined.

Lemma setLLMProvider_gemini_without_key_witness :
  let options := {| Options.apiKey := None; Options.model := None |} in
  fst (setLLMProvider Sample.managerEnv "gemini" options Sample.manager) = Ok tt /\
  llmProvider (config (snd (setLLMProvider Sample.managerEnv "gemini" options Sample.manager)))
  = "ollama" /\
  llmService (snd (setLLMProvider Sample.managerEnv "gemini" options Sample.manager))
  = Some OllamaService.
Proof.
  intros options.
  apply (@setLLMProvider_gemini_without_key Sample.managerEnv options Sample.manager).
  - reflexivity.
  - reflexivity.
  - reflexivity.
Defined.

Lemma short_key_is_shown_in_full_witness :
  let st := {| config := withGeminiApiKey (Some "abcd") Sample.defaults;
               file := None; llmService := None; embeddingService := None; tick := 0 |} in
  MaskedKeys.gemini (maskedKeys (getConfig st)) = Some "abcd...".
Proof.
  intros st. apply (@short_key_is_shown_in_full st "abcd").
  - reflexivity.
  - discriminate.
  - simpl. lia.
Defined.

Lemma configuration_file_follows_memory_witness :
  (forall provider options,
      synced (snd (setLLMProvider Sample.managerEnv provider options Sample.managerWithKey))) /\
  (forall provider apiKey,
      synced (snd (setEmbeddingProvider Sample.managerEnv provider apiKey
                     Sample.managerWithKey))) /\
  synced (snd (clearApiKeys Sample.managerEnv Sample.managerWithKey)).
Proof.
  apply (@configuration_file_follows_memory Sample.managerEnv Sample.managerWithKey).
  intros t. reflexivity.
Defined.

End ManagerSamples.

(* ================================================================= *)
(** ** The analytics scores under growth of the content *)

Section AnalyticsFacts.

Import JS AnalyticsService.
Local Open Scope string_scope.

Lemma prefix_empty (s : string) : String.prefix "" s = true.
Proof. now destruct s. Qed.

Lemma prefix_append (p s t : string) :
  String.prefix p s = true -> String.prefix p (s ++ t) = true.
Proof.
  revert s. induction p as [|a p IH]; intros s; [intros _; apply prefix_empty|].
  destruct s as [|b s]; simpl; [discriminate|].
  destruct (ascii_dec a b); [apply IH | discriminate].
Qed.

Lemma prefix_empty_only (p : string) : String.prefix p "" = true -> p = "".
Proof. destruct p; [reflexivity | discriminate]. Qed.

Lemma dropPrefix_append (p s t rest : string) :
  dropPrefix p s = Some rest -> dropPrefix p (s ++ t) = Some (rest ++ t).
Proof.
  revert s. induction p as [|a p IH]; intros s; simpl.
  - intros H. injection H as <-. reflexivity.
  - destruct s as [|b s]; simpl; [discriminate|].
    destruct (Ascii.eqb a b); [apply IH | discriminate].
Qed.

(** The white space skipped at the head of [s ++ t]: the text that stays
    starts with the text that stays of [s]. *)
Lemma prefix_trimStart_append (p s t : string) :
  String.prefix p (trimStart s) = true ->
  String.prefix p (trimStart (s ++ t)) = true.
Proof.
  induction s as [|a s IH]; simpl.
  - intros H. apply prefix_empty_only in H. subst p. apply prefix_empty.
  - destruct (isWhitespace a); [exact IH|].
    intros H. change (String a (s ++ t)) with (String a s ++ t).
    now apply prefix_append.
Qed.

Lemma matchesAt_append (p : Pattern) (s t : string) :
  matchesAt p s = true -> matchesAt p (s ++ t) = true.
Proof.
  unfold matchesAt. destruct (dropPrefix (head p) s) as [rest|] eqn:Hd; [|discriminate].
  rewrite (dropPrefix_append _ _ t Hd). apply prefix_trimStart_append.
Qed.

Lemma matches_append_right (p : Pattern) (s t : string) :
  matches p s = true -> matches p (s ++ t) = true.
Proof.
  induction s as [|a s IH]; cbn [matches]; intros H.
  - rewrite orb_false_r in H. apply (matchesAt_append p "" t) in H.
    change ("" ++ t) with t in *.
    destruct t; cbn [matches]; now rewrite H.
  - apply orb_true_iff in H as [H|H].
    + change (String a s ++ t) with (String a (s ++ t)). cbn [matches].
      apply (matchesAt_append p (String a s) t) in H.
      change (String a s ++ t) with (String a (s ++ t)) in H. now rewrite H.
    + change (String a s ++ t) with (String a (s ++ t)). cbn [matches].
      rewrite (IH H). apply orb_true_r.
Qed.

Lemma matches_append_left (p : Pattern) (s t : string) :
  matches p t = true -> matches p (s ++ t) = true.
Proof.
  intros H. induction s as [|a s IH]; [exact H|].
  change (String a s ++ t) with (String a (s ++ t)). cbn [matches].
  rewrite IH. apply orb_true_r.
Qed.

Lemma matches_in_context (p : Pattern) (before content after : string) :
  matches p content = true -> matches p (before ++ content ++ after) = true.
Proof. intros H. now apply matches_append_left, matches_append_right. Qed.

(** X17.  Text added around a content never raises its security score:
    a pattern that matches the content still matches the larger text, so
    the score of [before ++ content ++ after] is at most the score of
    [content]. *)
Theorem calculateSecurityScore_never_rises (before content after : string) :
  (calculateSecurityScore (before ++ content ++ after) <= calculateSecurityScore content)%Z.
Proof.
  rewrite !calculateSecurityScore_spec. unfold securityScoreSpec, deduction.
  pose proof (@matches_in_context evalCall before content after) as H1.
  pose proof (@matches_in_context innerHTMLAssignment before content after) as H2.
  pose proof (@matches_in_context documentWrite before content after) as H3.
  pose proof (@matches_in_context sqlConcatenation before content after) as H4.
  pose proof (@matches_in_context passwordAssignment before content after) as H5.
  set (larger := before ++ content ++ after) in *.
  destruct (matches evalCall content), (matches evalCall larger);
    try discriminate (H1 eq_refl);
    destruct (matches innerHTMLAssignment content), (matches innerHTMLAssignment larger);
    try discriminate (H2 eq_refl);
    destruct (matches documentWrite content), (matches documentWrite larger);
    try discriminate (H3 eq_refl);
    destruct (matches sqlConcatenation content), (matches sqlConcatenation larger);
    try discriminate (H4 eq_refl);
    destruct (matches passwordAssignment content), (matches passwordAssignment larger);
    try discriminate (H5 eq_refl); lia.
Qed.

Lemma fold_left_add_ge (f : string -> nat) (l : list string) (init : nat) :
  init <= fold_left (fun sum keyword => sum + f keyword) l init.
Proof.
  revert init. induction l as [|k l IH]; intros init; simpl; [lia|].
  specialize (IH (init + f k)). lia.
Qed.

Lemma length_splitLines (content : string) :
  1 <= List.length (splitLines content) <= String.length content + 1.
Proof.
  induction content as [|c content IH]; simpl; [lia|].
  destruct (Ascii.eqb c LF); simpl; [lia|].
  destruct (splitLines content); simpl in *; lia.
Qed.

(** X18.  The cyclomatic complexity of a content is at least its length
    plus 2, whatever the content: the pattern built for the keyword [||]
    matches the empty string at each of its [length + 1] positions.  The
    number of lines is at least 1 (the empty content has one line) and at
    most the length plus 1, so the complexity always exceeds the number of
    lines. *)
Theorem cyclomaticComplexity_exceeds_length (MathLog : float -> float) (content : string) :
  String.length content + 2 <= cyclomaticComplexity (calculateCodeMetrics MathLog content) /\
  1 <= linesOfCode (calculateCodeMetrics MathLog content) <= String.length content + 1 /\
  linesOfCode (calculateCodeMetrics MathLog content)
  < cyclomaticComplexity (calculateCodeMetrics MathLog content).
Proof.
  unfold calculateCodeMetrics. cbn [cyclomaticComplexity linesOfCode].
  pose proof (length_splitLines content) as Hlines.
  assert (Hcc : String.length content + 2
                <= fold_left (fun sum keyword => sum + countKeyword keyword content)
                     complexityKeywords 1).
  { unfold complexityKeywords.
    change ["if"; "else"; "for"; "while"; "switch"; "case"; "catch"; "&&"; "||"]
      with (["if"; "else"; "for"; "while"; "switch"; "case"; "catch"; "&&"] ++ ["||"])%list.
    rewrite fold_left_app. cbn [fold_left].
    change (countKeyword "||" content) with (String.length content + 1).
    pose proof (fold_left_add_ge (fun keyword => countKeyword keyword content)
                  ["if"; "else"; "for"; "while"; "switch"; "case"; "catch"; "&&"] 1).
    lia. }
  lia.
Qed.

(* ----------------------------------------------------------------- *)
(** *** The kind of a change *)

Lemma toLowerCase_append (s t : string) :
  toLowerCase (s ++ t) = toLowerCase s ++ toLowerCase t.
Proof. induction s as [|c s IH]; simpl; [reflexivity | now rewrite IH]. Qed.

Lemma prefix_self_append (s t : string) : String.prefix s (s ++ t) = true.
Proof.
  induction s as [|c s IH]; simpl; [apply prefix_empty|].
  destruct (ascii_dec c c); [exact IH | congruence].
Qed.

Lemma includesText_in_context (before word after : string) :
  includesText (before ++ word ++ after) word = true.
Proof.
  induction before as [|c before IH].
  - simpl. destruct (word ++ after) eqn:H; cbn [includesText];
      rewrite <- H, prefix_self_append; reflexivity.
  - change (String c before ++ word ++ after) with (String c (before ++ word ++ after)).
    cbn [includesText]. rewrite IH. apply orb_true_r.
Qed.

(** X19.  The first test wins: a commit message that holds [feat] or
    [add] anywhere, in any letter case and also inside a longer word, is a
    [feature], whatever else the message says. *)
Theorem determineChangeType_feature_first (before word after : string) :
  In (toLowerCase word) ["feat"; "add"] ->
  determineChangeType (before ++ word ++ after) = "feature".
Proof.
  intros Hword. unfold determineChangeType.
  rewrite !toLowerCase_append.
  pose proof (includesText_in_context (toLowerCase before) (toLowerCase word)
                (toLowerCase after)) as H.
  destruct Hword as [Hw|[Hw|[]]]; rewrite <- Hw in *; rewrite H.
  - reflexivity.
  - now rewrite orb_true_r.
Qed.

(* ----------------------------------------------------------------- *)
(** *** The file type of the analytics tables *)

Lemma split_nonempty (sep : ascii) (s : string) : split sep s <> [].
Proof.
  induction s as [|c s IH]; simpl; [discriminate|].
  destruct (Ascii.eqb c sep); [discriminate|].
  destruct (split sep s); [contradiction | discriminate].
Qed.

Lemma split_without_separator (sep : ascii) (s : string) :
  occurs sep s = false -> split sep s = [s].
Proof.
  induction s as [|c s IH]; cbn [occurs split]; [reflexivity|].
  intros H. apply orb_false_iff in H as [Hc Hs].
  rewrite Ascii.eqb_sym, Hc, (IH Hs). reflexivity.
Qed.

Lemma split_append (sep : ascii) (stem rest : string) :
  split sep (stem ++ String sep rest) = (split sep stem ++ split sep rest)%list.
Proof.
  induction stem as [|c stem IH].
  - simpl. now rewrite Ascii.eqb_refl.
  - change (String c stem ++ String sep rest) with (String c (stem ++ String sep rest)).
    cbn [split]. rewrite IH.
    destruct (Ascii.eqb c sep); [reflexivity|].
    pose proof (split_nonempty sep stem) as Hne.
    destruct (split sep stem); [contradiction | reflexivity].
Qed.

Lemma last_append {A : Type} (l1 l2 : list A) (d : A) :
  l2 <> [] -> last (l1 ++ l2)%list d = last l2 d.
Proof.
  intros Hne. induction l1 as [|x l1 IH]; [reflexivity|].
  simpl. destruct (l1 ++ l2)%list eqn:H; [|exact IH].
  apply app_eq_nil in H as [_ H]. contradiction.
Qed.

(** X20.  [AnalyticsService.getFileType] answers the lower-cased text
    after the last dot of the path, and [unknown] when nothing follows that
    dot; a path without any dot is answered whole, directories included, so
    that only the empty path of these is [unknown]. *)
Theorem getFileType_is_text_after_last_dot (stem extension : string) :
  occurs "." extension = false ->
  getFileType (stem ++ "." ++ extension)
  = (if String.eqb extension "" then "unknown" else toLowerCase extension) /\
  getFileType extension
  = (if String.eqb extension "" then "unknown" else toLowerCase extension).
Proof.
  intros Hdot. unfold getFileType.
  change (stem ++ "." ++ extension) with (stem ++ String "." extension).
  rewrite split_append, last_append by apply split_nonempty.
  rewrite (split_without_separator _ _ Hdot). simpl.
  destruct extension as [|c extension]; [split; reflexivity|].
  simpl. split; reflexivity.
Qed.

End AnalyticsFacts.

Section AnalyticsSamples.

Import JS AnalyticsService.
Local Open Scope string_scope.

Lemma determineChangeType_feature_first_witness :
  determineChangeType ("Fix crash in " ++ "Add" ++ "ress form") = "feature".
Proof.
  apply (determineChangeType_feature_first "Fix crash in " "Add" "ress form").
  simpl. tauto.
Defined.

Lemma getFileType_is_text_after_last_dot_witness :
  getFileType ("src/app.test" ++ "." ++ "JS")
  = (if String.eqb "JS" "" then "unknown" else toLowerCase "JS") /\
  getFileType "JS" = (if String.eqb "JS" "" then "unknown" else toLowerCase "JS").
Proof.
  apply (getFileType_is_text_after_last_dot "src/app.test" "JS"). reflexivity.
Defined.

End AnalyticsSamples.

(* ================================================================= *)
(** ** The snapshot generator: which files look binary *)

Section LooksBinary.

Import Uint63.
Import SnapshotGenerator.
Local Open Scope Z_scope.
Local Set Warnings "-inexact-float".

(** The comparison of the ratio with 0.3 agrees with the comparison of
    [10 * nonPrintable] with [3 * len] on every pair of counters up to
    4096, by evaluation of the 4097 x 4097 cases. *)
Lemma ratio_checked : ratioAgreesUpTo 4097 (Uint63.of_Z 0) = true.
Proof. vm_compute. reflexivity. Qed.

Lemma wB_value : Uint63.wB = 9223372036854775808.
Proof. reflexivity. Qed.

Lemma to_Z_of_Z_small (z : Z) :
  0 <= z < 9223372036854775808 -> Uint63.to_Z (Uint63.of_Z z) = z.
Proof.
  intros H. rewrite Uint63.of_Z_spec, wB_value. now apply Z.mod_small.
Qed.

Lemma of_Z_succ (z : Z) :
  0 <= z < 4611686018427387904 ->
  Uint63.add (Uint63.of_Z z) (Uint63.of_Z 1) = Uint63.of_Z (z + 1).
Proof.
  intros H. apply Uint63.to_Z_inj.
  rewrite Uint63.add_spec, !to_Z_of_Z_small by lia.
  rewrite wB_value. apply Z.mod_small. lia.
Qed.

Lemma ratioAgreesFrom_spec (rounds : nat) :
  forall (z : Z) (len : Uint63.int),
    0 <= z -> z + Z.of_nat rounds < 4611686018427387904 ->
    ratioAgreesFrom rounds (Uint63.of_Z z) len = true ->
    forall k, z <= k < z + Z.of_nat rounds -> ratioAgrees (Uint63.of_Z k) len = true.
Proof.
  induction rounds as [|rounds IH]; intros z len Hz Hbound Hcheck k Hk; [lia|].
  cbn [ratioAgreesFrom] in Hcheck. apply andb_true_iff in Hcheck as [Hhere Hrest].
  destruct (Z.eq_dec k z) as [->|Hne]; [exact Hhere|].
  change 1%uint63 with (Uint63.of_Z 1) in Hrest.
  rewrite of_Z_succ in Hrest by lia.
  apply (IH (z + 1) len); try lia. exact Hrest.
Qed.

Lemma ratioAgreesUpTo_spec (rounds : nat) :
  forall z : Z,
    0 <= z -> z + Z.of_nat rounds < 4611686018427387904 ->
    ratioAgreesUpTo rounds (Uint63.of_Z z) = true ->
    forall n len, 0 <= n <= 4096 -> z <= len < z + Z.of_nat rounds ->
                  ratioAgrees (Uint63.of_Z n) (Uint63.of_Z len) = true.
Proof.
  induction rounds as [|rounds IH]; intros z Hz Hbound Hcheck n len Hn Hlen; [lia|].
  cbn [ratioAgreesUpTo] in Hcheck. apply andb_true_iff in Hcheck as [Hhere Hrest].
  destruct (Z.eq_dec len z) as [->|Hne].
  - change 0%uint63 with (Uint63.of_Z 0) in Hhere.
    apply (@ratioAgreesFrom_spec 4097 0 (Uint63.of_Z z)); try lia. exact Hhere.
  - change 1%uint63 with (Uint63.of_Z 1) in Hrest.
    rewrite of_Z_succ in Hrest by lia.
    apply (IH (z + 1)); try lia. exact Hrest.
Qed.

(** The test [nonPrintable / len > 0.3] on binary64 numbers decides
    [10 * nonPrintable > 3 * len] exactly, for counters up to 4096. *)
Lemma ratio_exact (n len : Z) :
  0 <= n <= 4096 -> 0 <= len <= 4096 ->
  (0.3 <? toNumber n / toNumber len)%float = (3 * len <? 10 * n).
Proof.
  intros Hn Hlen.
  pose proof (@ratioAgreesUpTo_spec 4097 0 ltac:(lia) ltac:(lia) ratio_checked n len Hn
                ltac:(lia)) as H.
  unfold ratioAgrees in H. apply Bool.eqb_prop in H.
  unfold toNumber. change Uint63Axioms.of_Z with Uint63.of_Z. rewrite H.
  assert (H3 : Uint63.to_Z (3 * Uint63.of_Z len)%uint63 = 3 * len).
  { rewrite Uint63.mul_spec. change (Uint63.to_Z 3%uint63) with 3.
    rewrite to_Z_of_Z_small, wB_value by lia. apply Z.mod_small. lia. }
  assert (H10 : Uint63.to_Z (10 * Uint63.of_Z n)%uint63 = 10 * n).
  { rewrite Uint63.mul_spec. change (Uint63.to_Z 10%uint63) with 10.
    rewrite to_Z_of_Z_small, wB_value by lia. apply Z.mod_small. lia. }
  destruct (Z.ltb_spec (3 * len) (10 * n)) as [Hlt|Hge].
  - apply Uint63.ltb_spec. lia.
  - destruct (Uint63.ltb _ _) eqn:Hb; [|reflexivity].
    apply Uint63.ltb_spec in Hb. lia.
Qed.

Lemma countNonPrintable_bounds (bytes : list Byte.byte) :
  0 <= countNonPrintable bytes <= Z.of_nat (List.length bytes).
Proof.
  unfold countNonPrintable.
  assert (H : forall init,
             init <= fold_left (fun n b => if isNonPrintable (byteValue b) then n + 1 else n)
                       bytes init
             <= init + Z.of_nat (List.length bytes)).
  { induction bytes as [|b bytes IH]; intros init; simpl List.length; cbn [fold_left]; [lia|].
    destruct (isNonPrintable (byteValue b)).
    - specialize (IH (init + 1)). lia.
    - specialize (IH init). lia. }
  specialize (H 0). lia.
Qed.

Lemma firstn_min_length {A : Type} (n : nat) (l : list A) :
  firstn (Nat.min (List.length l) n) l = firstn n l.
Proof.
  destruct (Nat.le_ge_cases (List.length l) n) as [H|H].
  - rewrite Nat.min_l by exact H. now rewrite firstn_all, firstn_all2.
  - now rewrite Nat.min_r.
Qed.

(** [looksBinary] on the part of the buffer that it reads. *)
Lemma looksBinary_scanned (buffer : list Byte.byte) :
  looksBinary buffer
  = (existsb (fun b => byteValue b =? 0) (firstn 4096 buffer)
     || (0.3 <? toNumber (countNonPrintable (firstn 4096 buffer))
                / toNumber (Z.of_nat (List.length (firstn 4096 buffer))))%float).
Proof.
  unfold looksBinary.
  assert (H : Z.to_nat (Z.min (Z.of_nat (List.length buffer)) 4096)
              = Nat.min (List.length buffer) 4096) by lia.
  rewrite H, firstn_min_length.
  assert (Hz : Z.min (Z.of_nat (List.length buffer)) 4096
               = Z.of_nat (List.length (firstn 4096 buffer))).
  { rewrite length_firstn. lia. }
  rewrite Hz. now destruct (existsb _ (firstn 4096 buffer)).
Qed.

Lemma length_scanned (buffer : list Byte.byte) :
  0 <= Z.of_nat (List.length (firstn 4096 buffer)) <= 4096.
Proof. rewrite length_firstn. lia. Qed.

(** X21.  [looksBinary] in whole numbers: a buffer looks binary exactly
    when one of its first 4096 bytes is zero, or, counting among these
    bytes the ones outside 32..126 other than tab, line feed and carriage
    return, ten times the count exceeds three times their number.  The
    division and the comparison with 0.3 on binary64 numbers lose nothing:
    a share of exactly 30% is not binary, and the empty buffer (0/0) is
    not binary. *)
Theorem looksBinary_by_counting (buffer : list Byte.byte) :
  looksBinary buffer
  = (existsb (fun b => byteValue b =? 0) (firstn 4096 buffer)
     || (3 * Z.of_nat (List.length (firstn 4096 buffer))
         <? 10 * countNonPrintable (firstn 4096 buffer))).
Proof.
  rewrite looksBinary_scanned. f_equal.
  pose proof (countNonPrintable_bounds (firstn 4096 buffer)) as Hcount.
  pose proof (length_scanned buffer) as Hshort.
  apply ratio_exact; lia.
Qed.

Lemma countNonPrintable_none (bytes : list Byte.byte) :
  forallb (fun b => negb (isNonPrintable (byteValue b))) bytes = true ->
  countNonPrintable bytes = 0.
Proof.
  unfold countNonPrintable. generalize 0.
  induction bytes as [|b bytes IH]; intros init H; cbn [fold_left]; [reflexivity|].
  cbn [forallb] in H. apply andb_true_iff in H as [Hb Hrest].
  apply negb_true_iff in Hb. rewrite Hb. now apply IH.
Qed.

Lemma countNonPrintable_all (bytes : list Byte.byte) :
  forallb (fun b => isNonPrintable (byteValue b)) bytes = true ->
  countNonPrintable bytes = Z.of_nat (List.length bytes).
Proof.
  unfold countNonPrintable.
  assert (H : forall init,
             forallb (fun b => isNonPrintable (byteValue b)) bytes = true ->
             fold_left (fun n b => if isNonPrintable (byteValue b) then n + 1 else n)
               bytes init
             = init + Z.of_nat (List.length bytes)).
  { induction bytes as [|b bytes IH]; intros init H; simpl List.length; cbn [fold_left]; [lia|].
    cbn [forallb] in H. apply andb_true_iff in H as [Hb Hrest].
    rewrite Hb, IH by exact Hrest. lia. }
  intros Hall. now rewrite H.
Qed.

Lemma no_zero_among_printable (bytes : list Byte.byte) :
  forallb (fun b => negb (isNonPrintable (byteValue b))) bytes = true ->
  existsb (fun b => byteValue b =? 0) bytes = false.
Proof.
  induction bytes as [|b bytes IH]; cbn [forallb existsb]; [reflexivity|].
  intros H. apply andb_true_iff in H as [Hb Hrest]. rewrite (IH Hrest), orb_false_r.
  destruct (Z.eqb_spec (byteValue b) 0) as [Hz|Hz]; [|reflexivity].
  rewrite Hz in Hb. discriminate Hb.
Qed.

(** X22.  Plain text never looks binary: a buffer whose first 4096 bytes
    are all tabs, line feeds, carriage returns or printable ASCII (32 to
    126) is not binary, whatever follows them; this includes the empty
    buffer. *)
Theorem looksBinary_accepts_plain_text (buffer : list Byte.byte) :
  forallb (fun b => negb (isNonPrintable (byteValue b))) (firstn 4096 buffer) = true ->
  looksBinary buffer = false.
Proof.
  intros Hplain. rewrite looksBinary_scanned.
  rewrite (no_zero_among_printable _ Hplain). cbn [orb].
  pose proof (length_scanned buffer) as Hshort.
  rewrite ratio_exact; [| rewrite (countNonPrintable_none _ Hplain); lia | exact Hshort].
  rewrite (countNonPrintable_none _ Hplain). apply Z.ltb_ge. lia.
Qed.

(** X23.  Text without ASCII looks binary: a non-empty buffer whose first
    4096 bytes all lie above 126, as the UTF-8 bytes of text written
    outside the ASCII range do, is binary, so [scanProject] leaves such a
    file out of the snapshot. *)
Theorem looksBinary_rejects_text_without_ascii (buffer : list Byte.byte) :
  buffer <> [] ->
  forallb (fun b => 126 <? byteValue b) (firstn 4096 buffer) = true ->
  looksBinary buffer = true /\
  forall toStringUtf8 dir name,
    visit toStringUtf8 dir (File name buffer) = Effect.Ok [].
Proof.
  intros Hne Hhigh.
  assert (Hall : forallb (fun b => isNonPrintable (byteValue b)) (firstn 4096 buffer) = true).
  { rewrite forallb_forall in *. intros b Hb. specialize (Hhigh b Hb).
    apply Z.ltb_lt in Hhigh. unfold isNonPrintable.
    destruct (Z.eqb_spec (byteValue b) 9); [lia|].
    destruct (Z.eqb_spec (byteValue b) 10); [lia|].
    destruct (Z.eqb_spec (byteValue b) 13); [lia|].
    cbn [orb]. apply orb_true_iff. right. now apply Z.ltb_lt. }
  assert (Hbinary : looksBinary buffer = true).
  { rewrite looksBinary_scanned. apply orb_true_iff. right.
    pose proof (length_scanned buffer) as Hshort.
    rewrite ratio_exact; [| rewrite (countNonPrintable_all _ Hall); lia | exact Hshort].
    rewrite (countNonPrintable_all _ Hall). apply Z.ltb_lt.
    destruct buffer as [|b buffer]; [contradiction|]. simpl List.length. lia. }
  split; [exact Hbinary|].
  intros toStringUtf8 dir name. cbn [visit]. rewrite Hbinary.
  repeat match goal with
         | |- context [if ?c then _ else _] => destruct c
         end; reflexivity.
Qed.

End LooksBinary.

Section LooksBinarySamples.

Import SnapshotGenerator.
Local Open Scope Z_scope.

Lemma looksBinary_accepts_plain_text_witness :
  looksBinary [Byte.x63; Byte.x6f; Byte.x6e; Byte.x73; Byte.x74; Byte.x09; Byte.x61;
               Byte.x0d; Byte.x0a] = false.
Proof.
  apply (@looksBinary_accepts_plain_text
           [Byte.x63; Byte.x6f; Byte.x6e; Byte.x73; Byte.x74; Byte.x09; Byte.x61;
            Byte.x0d; Byte.x0a]).
  reflexivity.
Defined.

(** The six UTF-8 bytes of a two-character Chinese word. *)
Lemma looksBinary_rejects_text_without_ascii_witness :
  looksBinary [Byte.xe4; Byte.xbd; Byte.xa0; Byte.xe5; Byte.xa5; Byte.xbd] = true /\
  forall toStringUtf8 dir name,
    visit toStringUtf8 dir
      (File name [Byte.xe4; Byte.xbd; Byte.xa0; Byte.xe5; Byte.xa5; Byte.xbd])
    = Effect.Ok [].
Proof.
  apply (@looksBinary_rejects_text_without_ascii
           [Byte.xe4; Byte.xbd; Byte.xa0; Byte.xe5; Byte.xa5; Byte.xbd]).
  - discriminate.
  - reflexivity.
Defined.

End LooksBinarySamples.

(* ================================================================= *)
(** ** The snapshot generator: the scan, the atomic write, the run *)

Section Snapshot.

Import JS Effect SnapshotGenerator.
Local Open Scope string_scope.

(** Induction on a tree of entries. *)
Lemma Entry_induction (P : Entry -> Prop) :
  (forall name entries, Forall P entries -> P (Directory name entries)) ->
  (forall name error, P (UnreadableDirectory name error)) ->
  (forall name contents, P (File name contents)) ->
  (forall name, P (UnreadableFile name)) ->
  (forall name, P (Other name)) ->
  forall entry, P entry.
Proof.
  intros Hdir Hunreadable Hfile Hbroken Hother.
  fix IH 1.
  intros [name entries|name error|name contents|name|name];
    [| apply Hunreadable | apply Hfile | apply Hbroken | apply Hother].
  apply Hdir. induction entries as [|entry entries IHentries]; constructor.
  - apply IH.
  - exact IHentries.
Qed.

Variable toStringUtf8 : list Byte.byte -> string.

Local Abbreviation visit := (SnapshotGenerator.visit toStringUtf8).
Local Abbreviation walk := (SnapshotGenerator.walk toStringUtf8).
Local Abbreviation scanProject := (SnapshotGenerator.scanProject toStringUtf8).
Local Abbreviation scanned := (SnapshotGenerator.scanned toStringUtf8).

(** The loop of [walk] inside [visit] is [walk]. *)
Lemma visit_directory (dir : list string) (name : string) (entries : list Entry) :
  visit dir (Directory name entries)
  = if String.eqb (join "/" (dir ++ [name])) "" then Ok []
    else if includes IGNORE_DIRS name then Ok []
    else walk (dir ++ [name]) entries.
Proof. reflexivity. Qed.

Lemma FileAt_incl (entries entries' : list Entry) (components : list string)
      (contents : list Byte.byte) :
  incl entries entries' ->
  FileAt entries components contents -> FileAt entries' components contents.
Proof.
  intros Hincl H. destruct H as [entries name contents Hin|entries below name rest contents Hin Hbelow].
  - apply FileHere. now apply Hincl.
  - eapply FileBelow; [apply Hincl, Hin | exact Hbelow].
Qed.

Lemma scanned_incl (entries entries' : list Entry) (dir : list string) (file : SnapshotFile) :
  incl entries entries' -> scanned entries dir file -> scanned entries' dir file.
Proof.
  intros Hincl (components & contents & Hat & Hrest).
  exists components, contents. split; [|exact Hrest].
  exact (FileAt_incl Hincl Hat).
Qed.

Lemma walk_scanned (entries : list Entry) :
  Forall (fun entry => forall dir found,
            visit dir entry = Ok found -> Forall (scanned [entry] dir) found) entries ->
  forall dir found, walk dir entries = Ok found -> Forall (scanned entries dir) found.
Proof.
  induction 1 as [|entry entries Hentry _ IH]; intros dir found; cbn [SnapshotGenerator.walk].
  - intros H. injection H as <-. constructor.
  - destruct (visit dir entry) as [here|e] eqn:Hhere; [|discriminate].
    destruct (walk dir entries) as [more|e] eqn:Hmore; [|discriminate].
    intros H. injection H as <-. apply Forall_app. split.
    + eapply Forall_impl; [|exact (Hentry dir here Hhere)].
      intros file. apply scanned_incl. intros x [<-|[]]. now left.
    + eapply Forall_impl; [|exact (IH dir more Hmore)].
      intros file. apply scanned_incl. intros x Hx. now right.
Qed.

Lemma visit_scanned (entry : Entry) :
  forall dir found, visit dir entry = Ok found -> Forall (scanned [entry] dir) found.
Proof.
  induction entry as [name entries IH|name error|name contents|name|name]
    using Entry_induction; intros dir found.
  - rewrite visit_directory.
    destruct (String.eqb _ ""); [intros H; injection H as <-; constructor|].
    destruct (includes IGNORE_DIRS name); [intros H; injection H as <-; constructor|].
    intros Hwalk. eapply Forall_impl; [|exact (walk_scanned IH _ Hwalk)].
    intros file (components & contents & Hat & Hpath & Hrest).
    exists (name :: components), contents. split; [|split; [|exact Hrest]].
    + eapply FileBelow; [now left | exact Hat].
    + rewrite Hpath, <- app_assoc. reflexivity.
  - cbn [SnapshotGenerator.visit].
    destruct (String.eqb _ ""); [intros H; injection H as <-; constructor|].
    destruct (includes IGNORE_DIRS name); [intros H; injection H as <-; constructor|].
    discriminate.
  - cbn [SnapshotGenerator.visit].
    destruct (String.eqb _ ""); [intros H; injection H as <-; constructor|].
    destruct (Z.ltb_spec MAX_FILE_BYTES (Z.of_nat (List.length contents))) as [Hbig|Hsmall];
      [intros H; injection H as <-; constructor|].
    destruct (looksBinary contents) eqn:Hbinary; [intros H; injection H as <-; constructor|].
    intros H. injection H as <-. constructor; [|constructor].
    exists [name], contents. cbn [path content].
    split; [apply FileHere; now left|]. repeat split; assumption.
  - intros H. injection H as <-. constructor.
  - intros H. injection H as <-. constructor.
Qed.

(** X24.  Every file that [scanProject] puts into a snapshot is a
    regular file of the tree: its path starts with [/] and names the
    place of the file below the root, and its content is the decoding of
    the bytes of that file, which do not look binary and number at most
    2 MiB.  No tree of directories, however it is laid out, gets a larger
    or a binary file into a snapshot. *)
Theorem scanProject_keeps_small_text_files (root : list Entry) (found : list SnapshotFile) :
  scanProject root = Ok found ->
  Forall (fun file =>
            String.prefix "/" (path file) = true /\
            exists (components : list string) (contents : list Byte.byte),
              FileAt root components contents /\
              path file = "/" ++ join "/" components /\
              content file = toStringUtf8 contents /\
              looksBinary contents = false /\
              (Z.of_nat (List.length contents) <= 2 * 1024 * 1024)%Z) found.
Proof.
  unfold SnapshotGenerator.scanProject. intros Hwalk.
  assert (H : Forall (scanned root []) found).
  { apply (walk_scanned (entries := root)); [|exact Hwalk].
    apply Forall_forall. intros entry _. apply visit_scanned. }
  eapply Forall_impl; [|exact H].
  intros file (components & contents & Hat & Hpath & Hcontent & Hbinary & Hsize).
  split.
  - rewrite Hpath. simpl. destruct (ascii_dec "/" "/"); [apply prefix_empty | congruence].
  - exists components, contents. repeat split; assumption.
Qed.

Lemma walk_prune (entries : list Entry) :
  Forall (fun entry => forall dir, visit dir (prune entry) = visit dir entry) entries ->
  forall dir, walk dir (map prune entries) = walk dir entries.
Proof.
  induction 1 as [|entry entries Hentry _ IH]; intros dir;
    cbn [map SnapshotGenerator.walk]; [reflexivity|].
  now rewrite Hentry, IH.
Qed.

Lemma visit_prune (entry : Entry) :
  forall dir, visit dir (prune entry) = visit dir entry.
Proof.
  induction entry as [name entries IH|name error|name contents|name|name]
    using Entry_induction; intros dir; try reflexivity.
  - cbn [prune]. destruct (includes IGNORE_DIRS name) eqn:Hignored.
    + rewrite !visit_directory, Hignored. now destruct (String.eqb _ "").
    + rewrite !visit_directory, Hignored. destruct (String.eqb _ ""); [reflexivity|].
      now apply walk_prune.
  - cbn [prune]. destruct (includes IGNORE_DIRS name) eqn:Hignored; [|reflexivity].
    rewrite visit_directory. cbn [SnapshotGenerator.visit]. rewrite Hignored.
    now destruct (String.eqb _ "").
Qed.

(** X25.  [scanProject] never looks below an ignored directory
    ([.git], [node_modules], [dist] and the fourteen others), at any
    depth: emptying every ignored directory of a tree, also one that
    cannot be read, changes neither the files found nor whether the scan
    throws. *)
Theorem scanProject_skips_ignored_directories (root : list Entry) :
  scanProject (map prune root) = scanProject root.
Proof.
  unfold SnapshotGenerator.scanProject. apply walk_prune.
  apply Forall_forall. intros entry _. apply visit_prune.
Qed.

(* ----------------------------------------------------------------- *)
(** *** The atomic write *)

Lemma tmp_differs (filePath : string) : String.eqb (filePath ++ ".tmp") filePath = false.
Proof.
  apply String.eqb_neq. intros H.
  apply (f_equal String.length) in H. rewrite length_append in H. simpl in H. lia.
Qed.

(** X26.  [writeFileSyncAtomic] replaces the target whole or not at all:
    when it returns, the target holds the new data and the temporary file
    is gone; when it throws, in the write or in the rename, the target
    holds what it held before (only the temporary file may be left
    behind); no other file changes in either case. *)
Theorem writeFileSyncAtomic_all_or_nothing
        (write : WriteOutcome) (rename : RenameOutcome) (filePath data : string)
        (disk : Disk) :
  match writeFileSyncAtomic write rename filePath data disk with
  | (Ok _, disk') =>
      write = Written /\ rename = Renamed /\
      disk' filePath = Some data /\ disk' (filePath ++ ".tmp") = None
  | (Throw _, disk') => disk' filePath = disk filePath
  end /\
  forall other : string,
    other <> filePath -> other <> filePath ++ ".tmp" ->
    snd (writeFileSyncAtomic write rename filePath data disk) other = disk other.
Proof.
  pose proof (tmp_differs filePath) as Htmp.
  assert (Htmp' : String.eqb filePath (filePath ++ ".tmp") = false).
  { now rewrite String.eqb_sym. }
  unfold writeFileSyncAtomic, bind, writeFileSync, renameSync, store.
  destruct write as [|error leftover], rename as [|error']; cbn [fst snd];
    rewrite ?String.eqb_refl, ?Htmp, ?Htmp'; (split; [auto|]);
    intros other Hother Hothertmp;
    apply String.eqb_neq in Hother; apply String.eqb_neq in Hothertmp;
    now rewrite ?Hother, ?Hothertmp.
Qed.

(* ----------------------------------------------------------------- *)
(** *** A run of the generator *)

(** The file operations in the trace complete as the ones on the disk. *)
Lemma traced_write_completes_alike
      (write : WriteOutcome) (rename : RenameOutcome) (filePath text : string) (data : Data)
      (trace : Trace) (disk : Disk) :
  fst (Traced.writeFileSyncAtomic write rename filePath data trace)
  = fst (writeFileSyncAtomic write rename filePath text disk).
Proof.
  unfold Traced.writeFileSyncAtomic, writeFileSyncAtomic, Traced.writeFileSync,
    Traced.renameSync, writeFileSync, renameSync, bind, emit, throw.
  destruct write as [|error leftover], rename as [|error']; reflexivity.
Qed.


End Snapshot.

Section SnapshotSamples.

Import JS Effect SnapshotGenerator.
Local Open Scope string_scope.

(** Of the sample repository only [src/a.js] enters the snapshot: the
    image holds a zero byte, [node_modules] is ignored, and the lock file
    cannot be read. *)
Lemma scanProject_keeps_small_text_files_witness :
  scanProject string_of_list_byte Sample.tree
  = Ok [ {| path := "/src/a.js"; content := "const a;" ++ String "010" "" |} ] /\
  Forall (fun file =>
            String.prefix "/" (path file) = true /\
            exists (components : list string) (contents : list Byte.byte),
              FileAt Sample.tree components contents /\
              path file = "/" ++ join "/" components /\
              content file = string_of_list_byte contents /\
              looksBinary contents = false /\
              (Z.of_nat (List.length contents) <= 2 * 1024 * 1024)%Z)
         [ {| path := "/src/a.js"; content := "const a;" ++ String "010" "" |} ].
Proof.
  assert (Hrun : scanProject string_of_list_byte Sample.tree
                 = Ok [ {| path := "/src/a.js";
                           content := "const a;" ++ String "010" "" |} ]).
  { vm_compute. reflexivity. }
  split; [exact Hrun|].
  exact (@scanProject_keeps_small_text_files string_of_list_byte Sample.tree _ Hrun).
Defined.


End SnapshotSamples.

(* ================================================================= *)
(** ** The Gemini adapter: what a response parses to *)

Section Gemini.

Import JS Effect CLIServer GeminiService.
Local Open Scope string_scope.

Lemma prefix_of_append (p s : string) : String.prefix p (p ++ s) = true.
Proof.
  induction p as [|c p IH]; simpl; [now destruct s|].
  destruct (ascii_dec c c); [exact IH | congruence].
Qed.

Lemma isString_eq (v : option Json) (s : string) :
  isString v s = true -> v = Some (JString s).
Proof.
  destruct v as [[| | |x| |]|]; simpl; try discriminate.
  intros H. apply String.eqb_eq in H. now subst.
Qed.

(** What the [try] block returns, and when. *)
Lemma parseResponse_text (response : Json) (text : string) :
  parseResponse response = Ok text ->
  firstText response = Some (JString text) /\
  truthyValue (property response "error") = false /\
  (truthyValue (firstFinishReason response) = false \/
   firstFinishReason response = Some (JString "STOP")).
Proof.
  unfold parseResponse, firstText, firstFinishReason.
  destruct (truthyValue (Some response)); [|discriminate]. cbn [negb].
  destruct (truthyValue (property response "error")); [discriminate|].
  destruct (property response "candidates") as [[| | | |[|candidate rest]|]|];
    try discriminate.
  destruct (truthyValue (property candidate "finishReason")
            && negb (isString (property candidate "finishReason") "STOP")) eqn:Hreason.
  { destruct candidate; try discriminate;
      destruct (isString _ "SAFETY"); try discriminate;
      destruct (isString _ "OTHER"); discriminate. }
  assert (Hstop : truthyValue (property candidate "finishReason") = false \/
                  property candidate "finishReason" = Some (JString "STOP")).
  { apply andb_false_iff in Hreason as [H|H]; [now left | right].
    apply negb_false_iff in H. now apply isString_eq. }
  destruct (property candidate "content") as [content|] eqn:Hcontent.
  2: { destruct candidate; discriminate. }
  destruct (truthyValue (Some content)).
  2: { destruct candidate; discriminate. }
  cbn [negb].
  destruct (property content "parts") as [[| | | |[|textPart parts]|]|];
    try (destruct candidate; discriminate).
  destruct (truthyValue (Some textPart)); [|destruct candidate; discriminate].
  cbn [negb].
  destruct (property textPart "text") as [[| | |s| |]|]; cbn [asString];
    try (destruct candidate; discriminate).
  intros H. assert (Hs : s = text) by (destruct candidate; congruence).
  subst s. split; [reflexivity | split; [reflexivity | exact Hstop]].
Qed.

(** X28.  [safeParseResponse] returns a text only for a response without
    an [error] whose first candidate has finished normally (no
    [finishReason], or [STOP]), and the text is then the [text], a string,
    of the first part of that candidate's content.  Every message it throws
    either holds one of the three markers that pass through ([API Error:],
    [No candidates], [Response blocked]) or starts with
    [Error parsing response: ]: no error of the parsing leaves the function
    as it was raised. *)
Theorem safeParseResponse_text_or_labelled_error (response : Json) :
  match safeParseResponse response with
  | Ok text =>
      firstText response = Some (JString text) /\
      truthyValue (property response "error") = false /\
      (truthyValue (firstFinishReason response) = false \/
       firstFinishReason response = Some (JString "STOP"))
  | Throw message =>
      passesThrough message = true \/
      String.prefix "Error parsing response: " message = true
  end.
Proof.
  unfold safeParseResponse.
  destruct (parseResponse response) as [text|message] eqn:Hparse.
  - now apply parseResponse_text.
  - destruct (passesThrough message) eqn:Hpass; [now left | right].
    apply prefix_of_append.
Qed.

(** [generateWithContext] sends one request and labels every error. *)
Lemma generateWithContext_run (answer : nat -> Call -> Result Json) (apiKey : option string)
      (systemPrompt userPrompt : string) (sent : Sent) :
  let call := {| callKey := apiKey; callPrompt := prompt systemPrompt userPrompt |} in
  generateWithContext answer apiKey systemPrompt userPrompt sent
  = (match answer (List.length sent) call with
     | Ok response =>
         match safeParseResponse response with
         | Ok text => Ok text
         | Throw message => Throw ("Gemini API error: " ++ message)
         end
     | Throw message => Throw ("Gemini API error: " ++ message)
     end, (sent ++ [call])%list).
Proof.
  unfold generateWithContext, makeRequest, tryCatch, bind, lift, throw. cbn zeta.
  destruct (answer _ _) as [response|message]; [|reflexivity].
  destruct (safeParseResponse response); reflexivity.
Qed.

(** X29.  [initialize] makes no request without a key and fails with
    [Gemini API key is required].  With a key it sends one request, the
    test prompt under that key, and returns exactly when the request is
    answered by a response that [safeParseResponse] turns into a text
    that is not empty, the [text] of the first part of the first
    candidate; every other outcome is an error whose message starts with
    [Gemini API key validation failed: ]. *)
Theorem initialize_validates_the_key
        (answer : nat -> Call -> Result Json) (apiKey : option string) (sent : Sent) :
  let test := {| callKey := apiKey;
                 callPrompt := prompt "System" "Say 'Hello' to test the connection" |} in
  let run := initialize answer apiKey sent in
  if truthy apiKey
  then
    snd run = (sent ++ [test])%list /\
    (fst run = Ok tt <->
     exists (response : Json) (text : string),
       answer (List.length sent) test = Ok response /\
       safeParseResponse response = Ok text /\
       text <> "") /\
    (forall (response : Json) (text : string),
       answer (List.length sent) test = Ok response ->
       safeParseResponse response = Ok text ->
       firstText response = Some (JString text)) /\
    (forall message : string,
       fst run = Throw message ->
       String.prefix "Gemini API key validation failed: " message = true)
  else run = (Throw "Gemini API key is required", sent).
Proof.
  intros test run. subst run. unfold initialize.
  destruct (truthy apiKey); cbn [negb]; [|reflexivity].
  unfold testConnection, tryCatch, bind.
  rewrite generateWithContext_run. cbn zeta. fold test.
  split; [|split; [|split]].
  - destruct (answer _ test) as [response|e]; [|reflexivity].
    destruct (safeParseResponse response) as [text|message]; [|reflexivity].
    destruct (String.eqb text "" || (String.length text <? 1)%nat); reflexivity.
  - destruct (answer _ test) as [response|e].
    + destruct (safeParseResponse response) as [text|message] eqn:Hparse.
      * destruct (String.eqb_spec text "") as [Hempty|Hfull]; cbn [orb].
        -- split; [discriminate|].
           intros (response' & text' & Hresponse & Htext & Hne).
           injection Hresponse as <-. congruence.
        -- assert (Hlen : (String.length text <? 1)%nat = false).
           { apply Nat.ltb_ge. destruct text; [congruence | simpl; lia]. }
           rewrite Hlen. split; [|reflexivity].
           intros _. exists response, text. repeat split; assumption.
      * split; [discriminate|].
        intros (response' & text' & Hresponse & Htext & Hne).
        injection Hresponse as <-. congruence.
    + split; [discriminate|].
      intros (response' & text' & Hresponse & _). discriminate.
  - intros response text _ Hparse. unfold safeParseResponse in Hparse.
    destruct (parseResponse response) as [text'|message] eqn:Hparsed.
    + injection Hparse as ->. now apply parseResponse_text.
    + destruct (passesThrough message); discriminate.
  - intros message.
    destruct (answer _ test) as [response|e].
    + destruct (safeParseResponse response) as [text|message'].
      * destruct (String.eqb text "" || (String.length text <? 1)%nat); cbn [fst];
          [|discriminate].
        intros H. injection H as <-. reflexivity.
      * cbn [fst]. intros H. injection H as <-. reflexivity.
    + cbn [fst]. intros H. injection H as <-. reflexivity.
Qed.

(* ----------------------------------------------------------------- *)
(** *** The IPC channels beside the HTTP routes *)

(** X30.  The IPC channel [rag:ingest-commit] answers a payload with the
    body that the route [POST /ingest-commit] sends for it, the same
    validation with the same messages, the same result, the same error,
    whenever the body parser of the server hands the payload to the route,
    which it does for an object or an array of at most 100 kB: a request
    of more than 100 kB, which the channel ingests, is answered by the
    server with the error page of status 413, and a body that parses to
    neither an object nor an array with the one of status 400, on every
    route and without a call to the service.  The channel [rag:search] answers like the route
    [POST /search] only for a query that is truthy: for any other query
    the route answers [Query is required] without calling the service,
    while the channel has no such check. *)
Theorem channels_answer_like_routes (ragService : Service) :
  (forall (request : Request) (route : Route),
      (102400 < bodyLength request)%N ->
      serve ragService route request = ErrorPage 413) /\
  (forall (request : Request) (route : Route),
      (bodyLength request <= 102400)%N ->
      bodyLength request <> 0%N ->
      (forall properties, parsed request <> Some (JObject properties)) ->
      (forall items, parsed request <> Some (JArray items)) ->
      serve ragService route request = ErrorPage 400) /\
  (forall (request : Request) (commitData : Json),
      (bodyLength request <= 102400)%N ->
      bodyLength request <> 0%N ->
      parsed request = Some commitData ->
      ((exists properties, commitData = JObject properties) \/
       (exists items, commitData = JArray items)) ->
      exists response : Response,
        serve ragService PostIngestCommit request = Handled response /\
        response = postIngestCommit ragService commitData /\
        body response = ragIngestCommit ragService commitData) /\
  (forall (request : Request) (args : list (string * Json)),
      (bodyLength request <= 102400)%N ->
      bodyLength request <> 0%N ->
      parsed request = Some (JObject args) ->
      exists response : Response,
        serve ragService PostSearch request = Handled response /\
        response = postSearch ragService (JObject args) /\
        body response
        = if truthyValue (lookup "query" args)
          then ragSearch ragService args
          else Failure "Query is required").
Proof.
  assert (Hsame : forall commitData : Json,
             body (postIngestCommit ragService commitData)
             = ragIngestCommit ragService commitData).
  { intros commitData. unfold ragIngestCommit, postIngestCommit.
    destruct (negb (truthyValue (Some commitData))
              || negb (truthyValue (property commitData "projectName"))
              || negb (truthyValue (property commitData "files"))); [reflexivity|].
    destruct (negb (isArray (property commitData "files"))); [reflexivity|].
    now destruct (ingestCommit ragService commitData). }
  assert (Hparser : forall request : Request,
             (bodyLength request <= 102400)%N -> bodyLength request <> 0%N ->
             expressJson request
             = match parsed request with
               | Some (JObject properties) => Accepted (JObject properties)
               | Some (JArray items) => Accepted (JArray items)
               | _ => Refused 400
               end).
  { intros request Hsmall Hbody. unfold expressJson. change DEFAULT_LIMIT with 102400%N.
    destruct (N.ltb_spec 102400 (bodyLength request)) as [Hbig|_]; [lia|].
    destruct (N.eqb_spec (bodyLength request) 0) as [Hzero|_]; [contradiction | reflexivity]. }
  split; [|split; [|split]].
  - intros request route Hbig. unfold serve, expressJson. change DEFAULT_LIMIT with 102400%N.
    apply N.ltb_lt in Hbig. now rewrite Hbig.
  - intros request route Hsmall Hbody Hobject Harray. unfold serve.
    rewrite (Hparser request Hsmall Hbody).
    destruct (parsed request) as [[| | | |items|properties]|]; try reflexivity.
    + now destruct (Harray items).
    + now destruct (Hobject properties).
  - intros request commitData Hsmall Hbody Hparsed Hshape. unfold serve.
    rewrite (Hparser request Hsmall Hbody), Hparsed.
    destruct Hshape as [(properties & ->)|(items & ->)];
      (eexists; split; [reflexivity|]; split; [reflexivity | apply Hsame]).
  - intros request args Hsmall Hbody Hparsed. unfold serve.
    rewrite (Hparser request Hsmall Hbody), Hparsed.
    eexists. split; [reflexivity|]. split; [reflexivity|].
    cbn [handle]. unfold postSearch, ragSearch. cbn [property].
    destruct (truthyValue (lookup "query" args)); cbn [negb]; [|reflexivity].
    now destruct (searchAndGenerate ragService _ _ _).
Qed.

End Gemini.

Section GeminiSamples.

Import JS Effect CLIServer GeminiService.
Local Open Scope string_scope.

(** A key the API accepts, a key it rejects, and no key. *)
Lemma initialize_validates_the_key_witness :
  let test (apiKey : option string) :=
    {| callKey := apiKey;
       callPrompt := prompt "System" "Say 'Hello' to test the connection" |} in
  initialize Sample.geminiAnswer (Some "AIzaSyA-good-key") []
  = (Ok tt, [test (Some "AIzaSyA-good-key")]) /\
  initialize Sample.geminiAnswer (Some "AIzaSyA-rejected-key") []
  = (Throw ("Gemini API key validation failed: Gemini API error: "
            ++ "API key not valid. Please pass a valid API key."),
     [test (Some "AIzaSyA-rejected-key")]) /\
  initialize Sample.geminiAnswer None [] = (Throw "Gemini API key is required", []).
Proof.
  intros test. split; [|split].
  - destruct (@initialize_validates_the_key Sample.geminiAnswer (Some "AIzaSyA-good-key") [])
      as (Hsent & Hreturns & _).
    apply injective_projections; cbn [fst snd]; [|exact Hsent].
    apply Hreturns. eexists _, "Hello".
    split; [reflexivity | split; [reflexivity | discriminate]].
  - destruct (@initialize_validates_the_key Sample.geminiAnswer
                (Some "AIzaSyA-rejected-key") [])
      as (Hsent & _).
    apply injective_projections; cbn [fst snd]; [reflexivity | exact Hsent].
  - exact (@initialize_validates_the_key Sample.geminiAnswer None []).
Defined.

(** A commit of 150 kB: the channel ingests it, the server answers with
    the error page 413; the same commit in 300 bytes gets, from the route
    and from the channel, the same body. *)
Lemma channels_answer_like_routes_witness :
  let large := {| bodyLength := 150000; parsed := Some Sample.commitBody |} in
  let small := {| bodyLength := 300; parsed := Some Sample.commitBody |} in
  let ingested := Success (JObject [("total_files", JNumber 1)]) in
  ragIngestCommit Sample.ingestingService Sample.commitBody = ingested /\
  serve Sample.ingestingService PostIngestCommit large = ErrorPage 413 /\
  serve Sample.ingestingService PostIngestCommit small
  = Handled {| statusCode := 200; body := ingested |} /\
  serve Sample.ingestingService PostSearch {| bodyLength := 4; parsed := Some JNull |}
  = ErrorPage 400.
Proof.
  intros large small ingested.
  destruct (@channels_answer_like_routes Sample.ingestingService)
    as (Hlarge & Hrefused & Hcommit & _).
  split; [reflexivity|]. split; [|split].
  - apply Hlarge. reflexivity.
  - destruct (Hcommit small Sample.commitBody) as (response & Hserve & Hresponse & _).
    + discriminate.
    + discriminate.
    + reflexivity.
    + left. eexists. reflexivity.
    + rewrite Hserve, Hresponse. reflexivity.
  - apply Hrefused; try discriminate.
Defined.

End GeminiSamples.
